(** * WhatsApp customer-support bot: the message pipeline of [src/server.js]

    A shallow embedding of the asynchronous pipeline of [server.js]: the
    conversation store kept in Redis, the reply generation of
    [getAIResponse], the rate-limited delivery of [sendWhatsAppMessage],
    the queue worker, the [/dev/clear-redis] handler, the two [/webhook]
    handlers and the [/stats] handler.

    Asynchronous code is written in a state-and-exception monad over a
    [World]: the process-wide variables of the module, the Redis
    keyspace, a millisecond clock and a trace of the observable effects.
    Everything the program cannot decide itself (a Redis command that
    rejects, the file system, the completion backend, the HTTP call, how
    long a suspension really lasts) is read from an [Env], indexed by
    the number of such operations performed so far. *)

From Stdlib Require Import ZArith String List Bool Lia PrimFloat.
From stdpp Require Import base option list strings gmap.

Local Open Scope string_scope.
Local Open Scope Z_scope.

(** ** Data model *)

Inductive Role := system | user | assistant.

Record Message := { role : Role; content : string }.

(** [completion.usage] of the backend. *)
Record Usage := {
  prompt_tokens : Z;
  completion_tokens : Z;
  total_tokens : Z
}.

(** The value of [openai.chat.completions.create] as far as the program
    reads it: [choices[0].message.content] and [usage]. *)
Record Completion := { reply : string; reply_usage : Usage }.

(** [responseData] of [getAIResponse]: [{ content, usage }]. *)
Record ResponseData := { resp_content : string; resp_usage : Usage }.

(** JavaScript numbers as the program meets them: integers (token
    counts, exact in the range the source works in), and the [NaN]
    that [parseInt] returns on a text without digits. *)
Inductive jsnum := Int (z : Z) | NaN.

Definition jsnum_add (a b : jsnum) : jsnum :=
  match a, b with
  | Int x, Int y => Int (x + y)
  | _, _ => NaN
  end.

(** The JSON values the program stores and reads back. *)
Inductive JSValue :=
| VNull
| VNumber (n : Z)
| VMessages (l : list Message)
| VResponse (r : ResponseData).

(** A string held by Redis. [Json v] is the text [JSON.stringify(v)]
    (for a number, its decimal text): [JSON.parse] gives [v] back.
    [Raw s] is the text [s] taken verbatim; what [JSON.parse] and
    [parseInt] make of it is asked of the environment. *)
Inductive RedisString :=
| Json (v : JSValue)
| Raw (s : string).

(** Errors that travel through [throw] and rejected promises. *)
Record HttpErrorResponse := {
  status : Z;                  (* error.response.status *)
  error_code : option Z        (* error.response.data.error.code *)
}.

Inductive JSError :=
| RedisError
| FsError
| BackendError
| SyntaxError
| TypeError
| AxiosError (response : option HttpErrorResponse)
| RecipientNotAuthorized (to : string).

Inductive HttpOutcome :=
| HttpOk (data : string)
| HttpFail (response : option HttpErrorResponse).

(** Lines written with [console.log], [console.warn] and
    [console.error], named after the message they start with. *)
Inductive LogLine :=
| ErrLoadingSupportScript
| LogMessageSent
| ErrRecipientNotAllowed
| ErrSendingMessage
| ErrGettingHistory
| ErrUpdatingHistory
| WarnParsingCached
| ErrGettingAIResponse
| LogProcessingMessage
| LogGotAIResponse
| LogResponseSent
| LogTokenUsage
| ErrProcessingMessage.

(** The two [setTimeout] sites of [sendWhatsAppMessage]. *)
Inductive TimerSite := RateLimitWait | RetryBackoff.

Inductive Event :=
| EvConsole (l : LogLine)
| EvTimer (site : TimerSite) (delay : Z)
| EvPost (at_ms : Z) (to : string) (body : option string)
| EvCreate (messages : list Message)
| EvFlushAll.

(** ** The environment *)

Record Env := {
  redis_fault : nat -> bool;            (* the n-th Redis command rejects *)
  latency : nat -> N;                   (* extra milliseconds taken by the n-th suspension *)
  readFile_result : nat -> option string;
  create_result : nat -> list Message -> option Completion;
  post_result : nat -> HttpOutcome;
  JSON_parse_text : string -> option JSValue;  (* JSON.parse on a verbatim text *)
  parseInt_text : string -> jsnum              (* parseInt on a verbatim text *)
}.

(** ** The world *)

Record World := {
  now : Z;                              (* Date.now() *)
  messagesSentInWindow : Z;
  windowStart : Z;
  redis : gmap string (RedisString * option Z);  (* value, expiry instant *)
  redisOps : nat;
  fsReads : nat;
  backendCalls : nat;
  httpPosts : nat;
  awaits : nat;
  trace : list Event                    (* oldest first *)
}.

Definition set_clock (t : Z) (k : nat) (w : World) : World :=
  {| now := t; messagesSentInWindow := messagesSentInWindow w;
     windowStart := windowStart w; redis := redis w; redisOps := redisOps w;
     fsReads := fsReads w; backendCalls := backendCalls w;
     httpPosts := httpPosts w; awaits := k; trace := trace w |}.

Definition set_limiter (sent start : Z) (w : World) : World :=
  {| now := now w; messagesSentInWindow := sent;
     windowStart := start; redis := redis w; redisOps := redisOps w;
     fsReads := fsReads w; backendCalls := backendCalls w;
     httpPosts := httpPosts w; awaits := awaits w; trace := trace w |}.

Definition set_redis (m : gmap string (RedisString * option Z)) (w : World) : World :=
  {| now := now w; messagesSentInWindow := messagesSentInWindow w;
     windowStart := windowStart w; redis := m; redisOps := redisOps w;
     fsReads := fsReads w; backendCalls := backendCalls w;
     httpPosts := httpPosts w; awaits := awaits w; trace := trace w |}.

Definition count_redisOp (w : World) : World :=
  {| now := now w; messagesSentInWindow := messagesSentInWindow w;
     windowStart := windowStart w; redis := redis w; redisOps := S (redisOps w);
     fsReads := fsReads w; backendCalls := backendCalls w;
     httpPosts := httpPosts w; awaits := awaits w; trace := trace w |}.

Definition count_fsRead (w : World) : World :=
  {| now := now w; messagesSentInWindow := messagesSentInWindow w;
     windowStart := windowStart w; redis := redis w; redisOps := redisOps w;
     fsReads := S (fsReads w); backendCalls := backendCalls w;
     httpPosts := httpPosts w; awaits := awaits w; trace := trace w |}.

Definition count_backendCall (w : World) : World :=
  {| now := now w; messagesSentInWindow := messagesSentInWindow w;
     windowStart := windowStart w; redis := redis w; redisOps := redisOps w;
     fsReads := fsReads w; backendCalls := S (backendCalls w);
     httpPosts := httpPosts w; awaits := awaits w; trace := trace w |}.

Definition count_httpPost (w : World) : World :=
  {| now := now w; messagesSentInWindow := messagesSentInWindow w;
     windowStart := windowStart w; redis := redis w; redisOps := redisOps w;
     fsReads := fsReads w; backendCalls := backendCalls w;
     httpPosts := S (httpPosts w); awaits := awaits w; trace := trace w |}.

Definition record (e : Event) (w : World) : World :=
  {| now := now w; messagesSentInWindow := messagesSentInWindow w;
     windowStart := windowStart w; redis := redis w; redisOps := redisOps w;
     fsReads := fsReads w; backendCalls := backendCalls w;
     httpPosts := httpPosts w; awaits := awaits w; trace := (trace w ++ [e])%list |}.

(** ** Promises: state, exceptions and a recursion budget *)

Inductive Outcome (A : Type) :=
| Ok (a : A)          (* the promise fulfils *)
| Throw (e : JSError) (* the promise rejects *)
| Pending.            (* the recursion budget of the model ran out *)
Arguments Ok {A} a.
Arguments Throw {A} e.
Arguments Pending {A}.

Definition M (A : Type) : Type := World -> Outcome A * World.

Definition ret {A} (a : A) : M A := fun w => (Ok a, w).
Definition throw {A} (e : JSError) : M A := fun w => (Throw e, w).
Definition pending {A} : M A := fun w => (Pending, w).

Definition bind {A B} (m : M A) (k : A -> M B) : M B :=
  fun w =>
    match m w with
    | (Ok a, w') => k a w'
    | (Throw e, w') => (Throw e, w')
    | (Pending, w') => (Pending, w')
    end.

(** [try { m } catch (error) { h error }] *)
Definition try_catch {A} (m : M A) (h : JSError -> M A) : M A :=
  fun w =>
    match m w with
    | (Throw e, w') => h e w'
    | r => r
    end.

Notation "'let*' x ':=' e 'in' k" := (bind e (fun x => k))
  (at level 10, x name, e at level 100, k at level 200).
Notation "'do*' e 'in' k" := (bind e (fun _ => k))
  (at level 10, e at level 100, k at level 200).

Definition modify (f : World -> World) : M unit := fun w => (Ok tt, f w).

Definition console (l : LogLine) : M unit := modify (record (EvConsole l)).

(** ** Constants of [server.js] *)

Definition MESSAGE_WINDOW_MS : Z := 1000.
Definition MAX_MESSAGES_PER_WINDOW : Z := 30.
Definition MAX_TOKENS : Z := 120000.
Definition CONVERSATION_TTL : Z := 24 * 60 * 60.

Definition nl : string := String (Ascii.ascii_of_nat 10) "".

Definition brevityNote : string :=
  nl +:+ nl +:+ "IMPORTANT: Keep all responses brief and concise. Aim for 2-3 sentences when possible. Only provide detailed explanations when absolutely necessary for technical support or safety-related issues.".

Definition fallbackText : string :=
  "I apologize, but I'm having trouble accessing our support system right now. Please try again in a few moments.".

Definition fallbackResponse : ResponseData :=
  {| resp_content := fallbackText;
     resp_usage := {| prompt_tokens := 0; completion_tokens := 0; total_tokens := 0 |} |}.

(** The fallback object literal is [{ total_tokens: 0 }]: its other
    usage fields are absent, which the record renders as zero. *)

Record History := { messages : JSValue; tokenCount : jsnum }.

Definition emptyHistory : History :=
  {| messages := VMessages []; tokenCount := Int 0 |}.

Record JobResult := {
  job_from : string;
  job_messageText : string;
  job_aiResponse : option string;
  job_tokenUsage : option Usage
}.

Record HttpResponse := { resp_status : Z; resp_ok : bool }.

(** ** Primitives of the host *)

Section Program.

Variable E : Env.

(** Time passes while the caller is suspended: the requested duration
    and whatever the event loop adds to it. *)
Definition pause (d : Z) : M unit :=
  fun w => (Ok tt, set_clock (now w + d + Z.of_N (latency E (awaits w))) (S (awaits w)) w).

(** [await new Promise(resolve => setTimeout(resolve, delay))]. Node
    runs a timer whose delay is below 1 or above 2147483647 after 1 ms. *)
Definition setTimeout_await (site : TimerSite) (delay : Z) : M unit :=
  do* modify (record (EvTimer site delay)) in
  pause (if (delay <? 1) || (2147483647 <? delay) then 1 else delay).

Definition live (t : Z) (e : RedisString * option Z) : bool :=
  match e.2 with
  | None => true
  | Some expiry => t <? expiry
  end.

Definition lookup_live (t : Z) (key : string)
    (m : gmap string (RedisString * option Z)) : option RedisString :=
  match m !! key with
  | Some e => if live t e then Some e.1 else None
  | None => None
  end.

(** One Redis command: it rejects when the environment says so, and
    otherwise acts on the keyspace at the instant it is issued. *)
Definition redis_command {A}
    (run : Z -> gmap string (RedisString * option Z) ->
           A * gmap string (RedisString * option Z)) : M A :=
  fun w =>
    let w1 := count_redisOp w in
    if redis_fault E (redisOps w) then
      bind (pause 0) (fun _ => throw RedisError) w1
    else
      let (a, m) := run (now w) (redis w) in
      bind (pause 0) (fun _ => ret a) (set_redis m w1).

Definition redis_get (key : string) : M (option RedisString) :=
  redis_command (fun t m => (lookup_live t key m, m)).

(** [redis.set(key, value)] clears any expiry; with ['EX', seconds] the
    key expires that many seconds after the command. *)
Definition redis_set (key : string) (value : RedisString) (ex : option Z) : M unit :=
  redis_command (fun t m =>
    (tt, <[key := (value, match ex with
                          | Some seconds => Some (t + seconds * 1000)
                          | None => None
                          end)]> m)).

Definition redis_expire (key : string) (seconds : Z) : M unit :=
  redis_command (fun t m =>
    (tt, match lookup_live t key m with
         | Some v => <[key := (v, Some (t + seconds * 1000))]> m
         | None => m
         end)).

Definition redis_flushall : M unit :=
  do* modify (record EvFlushAll) in
  redis_command (fun _ _ => (tt, ∅)).

Definition fs_readFile : M string :=
  fun w =>
    let w1 := count_fsRead w in
    match readFile_result E (fsReads w) with
    | Some s => bind (pause 0) (fun _ => ret s) w1
    | None => bind (pause 0) (fun _ => throw FsError) w1
    end.

Definition openai_create (msgs : list Message) : M Completion :=
  fun w =>
    let w1 := count_backendCall (record (EvCreate msgs) w) in
    match create_result E (backendCalls w) msgs with
    | Some c => bind (pause 0) (fun _ => ret c) w1
    | None => bind (pause 0) (fun _ => throw BackendError) w1
    end.

Definition axios_post (to : string) (body : option string) : M string :=
  fun w =>
    let w1 := count_httpPost (record (EvPost (now w) to body) w) in
    match post_result E (httpPosts w) with
    | HttpOk data => bind (pause 0) (fun _ => ret data) w1
    | HttpFail r => bind (pause 0) (fun _ => throw (AxiosError r)) w1
    end.

(** A string is falsy when it is empty; [redis.get] of a missing key
    gives [null]. *)
Definition truthy (s : RedisString) : bool :=
  match s with
  | Raw "" => false
  | _ => true
  end.

Definition JSON_parse (s : RedisString) : M JSValue :=
  match s with
  | Json v => ret v
  | Raw t =>
      match JSON_parse_text E t with
      | Some v => ret v
      | None => throw SyntaxError
      end
  end.

Definition parseInt (s : RedisString) : jsnum :=
  match s with
  | Json (VNumber n) => Int n
  | Json _ => NaN
  | Raw t => parseInt_text E t
  end.

(** The text a number becomes when it is sent as a command argument. *)
Definition String_of_jsnum (n : jsnum) : RedisString :=
  match n with
  | Int z => Json (VNumber z)
  | NaN => Raw "NaN"
  end.

(** [...v] inside an array literal. Of the values of [JSValue], the
    ones the program stores, only an array can be spread; a JSON
    string, which JavaScript spreads into its characters, is not among
    them. *)
Definition spread (v : JSValue) : M (list Message) :=
  match v with
  | VMessages l => ret l
  | _ => throw TypeError
  end.

(** [v.content] and [v.usage]: a [TypeError] on [null], [undefined] on
    a value without the property. *)
Definition prop_content (v : JSValue) : M (option string) :=
  match v with
  | VNull => throw TypeError
  | VResponse r => ret (Some (resp_content r))
  | _ => ret None
  end.

Definition prop_usage (v : JSValue) : M (option Usage) :=
  match v with
  | VNull => throw TypeError
  | VResponse r => ret (Some (resp_usage r))
  | _ => ret None
  end.

Definition error_code_of (e : JSError) : option Z :=
  match e with
  | AxiosError (Some r) => error_code r
  | _ => None
  end.

Definition status_of (e : JSError) : option Z :=
  match e with
  | AxiosError (Some r) => Some (status r)
  | _ => None
  end.

(** ** [loadSupportScript] (lines 69-81) *)

Definition loadSupportScript : M Message :=
  try_catch
    (let* scriptContent := fs_readFile in
     ret {| role := system; content := scriptContent +:+ brevityNote |})
    (fun error =>
       do* console ErrLoadingSupportScript in
       throw error).

(** ** The outbound rate limiter (lines 86-99)

    The check runs between two suspension points, so it is one atomic
    step on the pair [messagesSentInWindow], [windowStart]. *)

Record Limiter := { sent : Z; start : Z }.

Inductive Admission := Proceed | Wait (delayMs : Z).

Definition rateLimitCheck (now_ : Z) (l : Limiter) : Admission * Limiter :=
  let l1 := if now_ - start l >? MESSAGE_WINDOW_MS
            then {| sent := 0; start := now_ |}
            else l in
  if sent l1 >=? MAX_MESSAGES_PER_WINDOW then
    (Wait (MESSAGE_WINDOW_MS - (now_ - start l1)), l1)
  else
    (Proceed, {| sent := sent l1 + 1; start := start l1 |}).

Definition limiter_of (w : World) : Limiter :=
  {| sent := messagesSentInWindow w; start := windowStart w |}.

Definition rate_limit_check : M Admission :=
  fun w =>
    let (g, l) := rateLimitCheck (now w) (limiter_of w) in
    (Ok g, set_limiter (sent l) (start l) w).

(** ** [sendWhatsAppMessage] (lines 84-141)

    The two recursive calls are returned without [await]: a rejection
    of the inner call goes straight to the caller and is not seen by
    the [catch] of this activation. [budget] bounds the depth of the
    recursion, which the source leaves unbounded. *)

(** An argument of a Redis command is sent as text, [undefined] as the
    empty text. *)
Definition String_of_arg (message : option string) : RedisString :=
  Raw (default "" message).

Definition status_ge_500 (error : JSError) : bool :=
  match status_of error with
  | Some s => s >=? 500
  | None => false
  end.

(** One activation; [self] stands for the recursive calls. *)
Definition sendOnce (self : string -> option string -> nat -> M string)
    (to : string) (message : option string) (retryCount : nat) : M string :=
  let* admission := rate_limit_check in
  match admission with
  | Wait delayMs =>
      do* setTimeout_await RateLimitWait delayMs in
      self to message retryCount
  | Proceed =>
      try_catch
        (let* data := axios_post to message in
         do* redis_set ("last_message:" +:+ to) (String_of_arg message) None in
         do* redis_expire ("last_message:" +:+ to) 3600 in
         do* console LogMessageSent in
         ret data)
        (fun error =>
           if decide (error_code_of error = Some 131030) then
             do* console ErrRecipientNotAllowed in
             throw (RecipientNotAuthorized to)
           else
             do* console ErrSendingMessage in
             if (retryCount <? 3)%nat && status_ge_500 error then
               let delay := 2 ^ Z.of_nat retryCount * 1000 in
               do* setTimeout_await RetryBackoff delay in
               self to message (S retryCount)
             else
               throw error)
  end.

Fixpoint sendWhatsAppMessage (budget : nat) (to : string)
    (message : option string) (retryCount : nat) : M string :=
  match budget with
  | O => pending
  | S budget' => sendOnce (sendWhatsAppMessage budget') to message retryCount
  end.

(** ** The conversation store (lines 195-235) *)

Definition historyKeyOf (userId : string) : string := "chat_history:" +:+ userId.
Definition tokenCountKeyOf (userId : string) : string := "token_count:" +:+ userId.
Definition cacheKeyOf (userMessage : string) : string := "ai_response:" +:+ userMessage.

Definition getConversationHistory (userId : string) : M History :=
  let historyKey := historyKeyOf userId in
  let tokenCountKey := tokenCountKeyOf userId in
  try_catch
    (let* history := redis_get historyKey in
     let* tokenCount := redis_get tokenCountKey in
     let* parsed :=
       match history with
       | Some h => if truthy h then JSON_parse h else ret (VMessages [])
       | None => ret (VMessages [])
       end in
     ret {| messages := parsed;
            tokenCount := match tokenCount with
                          | Some t => if truthy t then parseInt t else Int 0
                          | None => Int 0
                          end |})
    (fun error =>
       do* console ErrGettingHistory in
       ret emptyHistory).

Definition updateConversationHistory (userId : string)
    (newMessages : list Message) (tokenUsage : Z) : M History :=
  let historyKey := historyKeyOf userId in
  let tokenCountKey := tokenCountKeyOf userId in
  try_catch
    (let* h := getConversationHistory userId in
     let* old := spread (messages h) in
     let updatedMessages := (old ++ newMessages)%list in
     let updatedTokenCount := jsnum_add (tokenCount h) (Int tokenUsage) in
     do* redis_set historyKey (Json (VMessages updatedMessages)) (Some CONVERSATION_TTL) in
     do* redis_set tokenCountKey (String_of_jsnum updatedTokenCount) (Some CONVERSATION_TTL) in
     ret {| messages := VMessages updatedMessages; tokenCount := updatedTokenCount |})
    (fun error =>
       do* console ErrUpdatingHistory in
       throw error).

(** ** [getAIResponse] (lines 238-304) *)

(** Lines 243-251: the cached reply, when there is one that parses. *)
Definition lookupCachedResponse (cacheKey : string) : M (option JSValue) :=
  let* cachedResponse := redis_get cacheKey in
  match cachedResponse with
  | Some c =>
      if truthy c then
        try_catch
          (let* parsed := JSON_parse c in ret (Some parsed))
          (fun parseError =>
             do* console WarnParsingCached in
             ret None)
      else ret None
  | None => ret None
  end.

(** Lines 253-296: the reply asked of the backend. The two promises of
    [Promise.all] touch different resources; they run here one after
    the other, the history first. *)
Definition generateReply (userMessage userId : string) : M JSValue :=
  let cacheKey := cacheKeyOf userMessage in
  let* h := getConversationHistory userId in
  let* supportScript := loadSupportScript in
  let* historyMessages := spread (messages h) in
  let messageArray :=
    (supportScript :: historyMessages ++ [{| role := user; content := userMessage |}])%list in
  let* completion := openai_create messageArray in
  let response := reply completion in
  let usage := reply_usage completion in
  let newMessages :=
    [{| role := user; content := userMessage |};
     {| role := assistant; content := response |}] in
  do* updateConversationHistory userId newMessages (total_tokens usage) in
  let responseData := {| resp_content := response; resp_usage := usage |} in
  do* redis_set cacheKey (Json (VResponse responseData)) (Some 3600) in
  ret (VResponse responseData).

(** The body of the [try] block, lines 242-296. *)
Definition getAIResponse_try (userMessage userId : string) : M JSValue :=
  let* cached := lookupCachedResponse (cacheKeyOf userMessage) in
  match cached with
  | Some parsed => ret parsed
  | None => generateReply userMessage userId
  end.

Definition getAIResponse (userMessage userId : string) : M JSValue :=
  try_catch
    (getAIResponse_try userMessage userId)
    (fun error =>
       do* console ErrGettingAIResponse in
       ret (VResponse fallbackResponse)).

(** ** The queue worker of [process_message] (lines 307-333) *)

Definition processMessage (budget : nat) (from messageText : string) : M JobResult :=
  try_catch
    (do* console LogProcessingMessage in
     let* aiResponse := getAIResponse messageText from in
     do* console LogGotAIResponse in
     let* text := prop_content aiResponse in
     do* sendWhatsAppMessage budget from text 0 in
     do* console LogResponseSent in
     let* usage := prop_usage aiResponse in
     do* console LogTokenUsage in
     ret {| job_from := from; job_messageText := messageText;
            job_aiResponse := text; job_tokenUsage := usage |})
    (fun error =>
       do* console ErrProcessingMessage in
       throw error).

(** ** [POST /dev/clear-redis] (lines 409-417)

    The route is registered when the module loads, whatever the mode of
    the process: [NODE_ENV] is passed along and never read. *)

Definition clearRedisHandler : M HttpResponse :=
  try_catch
    (do* redis_flushall in
     ret {| resp_status := 200; resp_ok := true |})
    (fun error =>
       ret {| resp_status := 500; resp_ok := false |}).

Definition postRoute (NODE_ENV : option string) (path : string) : option (M HttpResponse) :=
  if decide (path = "/dev/clear-redis") then Some clearRedisHandler
  else None.

End Program.

(** ** Worlds and environments used in the examples *)

Definition sampleUsage : Usage :=
  {| prompt_tokens := 30; completion_tokens := 12; total_tokens := 42 |}.

Definition sampleCompletion : Completion :=
  {| reply := "Hello! How can I help?"; reply_usage := sampleUsage |}.

Definition mkEnv (faults : nat -> bool) (posts : nat -> HttpOutcome) : Env :=
  {| redis_fault := faults;
     latency := fun _ => 0%N;
     readFile_result := fun _ => Some "You are a support agent.";
     create_result := fun _ _ => Some sampleCompletion;
     post_result := posts;
     JSON_parse_text := fun _ => None;
     parseInt_text := fun _ => NaN |}.

(** Nothing fails. *)
Definition quietEnv : Env := mkEnv (fun _ => false) (fun _ => HttpOk "ack").

(** The [n]-th Redis command rejects, nothing else fails. *)
Definition faultAt (n : nat) : Env :=
  mkEnv (fun k => Nat.eqb k n) (fun _ => HttpOk "ack").

(** The channel answers every call with a 503. *)
Definition serverDown : Env :=
  mkEnv (fun _ => false)
        (fun _ => HttpFail (Some {| status := 503; error_code := None |})).

Definition freshWorld : World :=
  {| now := 0; messagesSentInWindow := 0; windowStart := 0; redis := ∅;
     redisOps := 0; fsReads := 0; backendCalls := 0; httpPosts := 0;
     awaits := 0; trace := [] |}.

Definition worldWith (m : gmap string (RedisString * option Z)) : World :=
  set_redis m freshWorld.

(** ** Observations used in the statements *)

(** The world after a Redis command that left the keyspace as [m]. *)
Definition served (E : Env) (m : gmap string (RedisString * option Z)) (w : World) : World :=
  set_clock (now w + 0 + Z.of_N (latency E (awaits w))) (S (awaits w))
            (set_redis m (count_redisOp w)).

(** The conversation of a user as it is stored. *)
Definition storedMessages (userId : string) (w : World) : list Message :=
  match redis w !! historyKeyOf userId with
  | Some (Json (VMessages l), _) => l
  | _ => []
  end.

Definition storedTokenCount (userId : string) (w : World) : Z :=
  match redis w !! tokenCountKeyOf userId with
  | Some (Json (VNumber n), _) => n
  | _ => 0
  end.

Definition backoffDelays (t : list Event) : list Z :=
  flat_map (fun e => match e with
                     | EvTimer RetryBackoff d => [d]
                     | _ => []
                     end) t.

Definition posts (t : list Event) : list (Z * string * option string) :=
  flat_map (fun e => match e with
                     | EvPost at_ms to body => [(at_ms, to, body)]
                     | _ => []
                     end) t.

Definition prompts (t : list Event) : list (list Message) :=
  flat_map (fun e => match e with
                     | EvCreate msgs => [msgs]
                     | _ => []
                     end) t.

Definition logged (t : list Event) : list LogLine :=
  flat_map (fun e => match e with
                     | EvConsole l => [l]
                     | _ => []
                     end) t.

(** Every message of a chat request costs at least one token, so the
    number of messages bounds the tokens of a prompt from below. *)
Definition promptTokensAtLeast (msgs : list Message) : Z :=
  Z.of_nat (length msgs).

(** A run of the limiter: the checks made at the instants [ts], in that
    order, by whichever callers are awake. Each check is reported with
    its instant, the window it fell in and the answer it got. *)
Fixpoint checkRun (ts : list Z) (l : Limiter) : list (Z * Z * Admission) * Limiter :=
  match ts with
  | [] => ([], l)
  | t :: ts' =>
      let (g, l1) := rateLimitCheck t l in
      let (r, l2) := checkRun ts' l1 in
      ((t, start l1, g) :: r, l2)
  end.

Definition isGrantIn (window : Z) (c : Z * Z * Admission) : bool :=
  match c with
  | (_, s, Proceed) => s =? window
  | (_, _, Wait _) => false
  end.

(** The sends let through in the window that started at [window]. *)
Definition grantsIn (window : Z) (r : list (Z * Z * Admission)) : list (Z * Z * Admission) :=
  List.filter (isGrantIn window) r.

Definition isGrant (c : Z * Z * Admission) : bool :=
  match c with
  | (_, _, Proceed) => true
  | _ => false
  end.

Fixpoint nondecreasingFrom (t0 : Z) (ts : list Z) : Prop :=
  match ts with
  | [] => True
  | t :: ts' => t0 <= t /\ nondecreasingFrom t ts'
  end.

(** How many sends a run can still let through in a given window. *)
Definition budgetLeft (window : Z) (l : Limiter) : Z :=
  if window <? start l then 0
  else if window =? start l then Z.max 0 (MAX_MESSAGES_PER_WINDOW - sent l)
  else MAX_MESSAGES_PER_WINDOW.

(** The sends let through at an instant of the closed interval
    [window, window + MESSAGE_WINDOW_MS]. *)
Definition isGrantWithin (window : Z) (c : Z * Z * Admission) : bool :=
  match c with
  | (t, _, Proceed) => (window <=? t) && (t <=? window + MESSAGE_WINDOW_MS)
  | (_, _, Wait _) => false
  end.

Definition windowOf (c : Z * Z * Admission) : Z := c.1.2.
Definition instantOf (c : Z * Z * Admission) : Z := c.1.1.

(** The state a check works on once a lapsed window has been reset. *)
Definition rolled (t : Z) (l : Limiter) : Limiter :=
  if t - start l >? MESSAGE_WINDOW_MS then {| sent := 0; start := t |} else l.

(** A failure of the channel that [sendWhatsAppMessage] retries: a
    response with a status of 500 or more that does not carry the code
    of a recipient who is not allowed. *)
Definition retryable (o : HttpOutcome) : Prop :=
  exists r, o = HttpFail (Some r) /\ 500 <= status r /\ error_code r <> Some 131030.

(** What one stretch of [sendWhatsAppMessage] adds to the trace and
    leaves alone. *)
Record stretch (w w' : World) (attempts : list (string * option string))
    (delays : list Z) : Prop := {
  st_posts : map (fun p => (p.1.2, p.2)) (posts (trace w')) =
             (map (fun p => (p.1.2, p.2)) (posts (trace w)) ++ attempts)%list;
  st_delays : backoffDelays (trace w') = (backoffDelays (trace w) ++ delays)%list;
  st_redis : redis w' = redis w;
  st_clock : windowStart w' <= now w'
}.

(** A step that only reads: the keyspace, the count of backend calls
    and the prompts sent so far are as before, and time and the count
    of Redis commands do not go back. *)
Record calm (w w' : World) : Prop := {
  calm_redis : redis w' = redis w;
  calm_backend : backendCalls w' = backendCalls w;
  calm_prompts : prompts (trace w') = prompts (trace w);
  calm_files : fsReads w' = fsReads w;
  calm_now : now w <= now w';
  calm_ops : (redisOps w <= redisOps w')%nat
}.

(** What [getConversationHistory] makes of the two strings it read;
    [None] when [JSON.parse] throws. *)
Definition parsedHistory (E : Env) (o : option RedisString) : option JSValue :=
  match o with
  | Some h =>
      if truthy h then
        match h with
        | Json v => Some v
        | Raw t => JSON_parse_text E t
        end
      else Some (VMessages [])
  | None => Some (VMessages [])
  end.

Definition parsedCount (E : Env) (o : option RedisString) : jsnum :=
  match o with
  | Some t => if truthy t then parseInt E t else Int 0
  | None => Int 0
  end.

(** The first entry of every prompt. *)
Definition personaOf (scriptContent : string) : Message :=
  {| role := system; content := scriptContent +:+ brevityNote |}.

(** The world after [fs.readFile] and after a backend call. *)
Definition fileRead (E : Env) (w : World) : World :=
  set_clock (now w + 0 + Z.of_N (latency E (awaits w))) (S (awaits w)) (count_fsRead w).

Definition asked (E : Env) (msgs : list Message) (w : World) : World :=
  set_clock (now w + 0 + Z.of_N (latency E (awaits w))) (S (awaits w))
            (count_backendCall (record (EvCreate msgs) w)).

Definition userMessageOf (text : string) : Message :=
  {| role := user; content := text |}.

(** The two messages a turn appends and the object it caches. *)
Definition turnMessages (userMessage : string) (c : Completion) : list Message :=
  [userMessageOf userMessage; {| role := assistant; content := reply c |}].

Definition responseOf (c : Completion) : ResponseData :=
  {| resp_content := reply c; resp_usage := reply_usage c |}.

(** [getAIResponse] gets as far as the backend call, which it makes
    with [prompt] in the world [wc]: the cache gave nothing, the
    history was read and is an array, the persona was loaded. *)
Definition reachesBackend (E : Env) (userMessage userId : string) (w : World)
    (prompt : list Message) (wc : World) : Prop :=
  exists wa h wb scriptContent hm,
    lookupCachedResponse E (cacheKeyOf userMessage) w = (Ok None, wa) /\
    getConversationHistory E userId wa = (Ok h, wb) /\
    readFile_result E (fsReads wb) = Some scriptContent /\
    messages h = VMessages hm /\
    prompt = (personaOf scriptContent :: hm ++ [userMessageOf userMessage])%list /\
    wc = fileRead E wb.

(** [getAIResponse] gets as far as [updateConversationHistory], which
    it calls in the world [wd] with the completion [c]. *)
Definition reachesUpdate (E : Env) (userMessage userId : string) (w : World)
    (c : Completion) (wd : World) : Prop :=
  exists prompt wc,
    reachesBackend E userMessage userId w prompt wc /\
    create_result E (backendCalls wc) prompt = Some c /\
    wd = asked E prompt wc.

(** A computation that never runs out of recursion budget. *)
Definition settles {A} (m : M A) : Prop := forall w, (m w).1 <> Pending.

(** A turn that completes: the body of [getAIResponse] fulfils after
    asking the backend, no Redis command of the turn rejects, and what
    is stored for the user does not expire before the turn is over. *)
Definition completedTurn (E : Env) (userMessage userId : string) (w : World)
    (r : ResponseData) (w' : World) : Prop :=
  getAIResponse_try E userMessage userId w = (Ok (VResponse r), w') /\
  backendCalls w' <> backendCalls w /\
  (forall n, (redisOps w <= n < redisOps w')%nat -> redis_fault E n = false) /\
  (forall key c expiry,
     key = historyKeyOf userId \/ key = tokenCountKeyOf userId ->
     redis w !! key = Some (c, Some expiry) -> now w' < expiry).

(** Whatever happens between two turns of a user leaves the user's two
    keys as they were. *)
Definition untouched (userId : string) (w w' : World) : Prop :=
  redis w' !! historyKeyOf userId = redis w !! historyKeyOf userId /\
  redis w' !! tokenCountKeyOf userId = redis w !! tokenCountKeyOf userId.

(** The completed turns of one user, each with its text and reply. *)
Inductive Dialogue (E : Env) (userId : string) :
    World -> list (string * ResponseData) -> World -> Prop :=
| dialogue_start w : Dialogue E userId w [] w
| dialogue_turn w w1 w2 w3 turns userMessage r :
    Dialogue E userId w turns w1 ->
    untouched userId w1 w2 ->
    completedTurn E userMessage userId w2 r w3 ->
    Dialogue E userId w (turns ++ [(userMessage, r)]) w3.

Definition exchangeOf (turn : string * ResponseData) : list Message :=
  [userMessageOf turn.1; {| role := assistant; content := resp_content turn.2 |}].

Definition exchangesOf (turns : list (string * ResponseData)) : list Message :=
  flat_map exchangeOf turns.

Definition totalUsage (turns : list (string * ResponseData)) : Z :=
  fold_right Z.add 0 (map (fun turn => total_tokens (resp_usage turn.2)) turns).

(** What is stored for a user: nothing, or a history with its count,
    both with an expiry. *)
Definition conversation (userId : string) (w : World) (l : list Message) (n : Z) : Prop :=
  (redis w !! historyKeyOf userId = None /\
   redis w !! tokenCountKeyOf userId = None /\ l = [] /\ n = 0) \/
  (exists x1 x2,
     redis w !! historyKeyOf userId = Some (Json (VMessages l), Some x1) /\
     redis w !! tokenCountKeyOf userId = Some (Json (VNumber n), Some x2)).

(** ** More worlds for the examples *)

(** A customer, a job that has just started for them, and the worlds
    the job goes through when it asks for a reply to "hello". *)
Definition customer : string := "27821234567".
Definition otherCustomer : string := "27829876543".

Definition jobStart : World := record (EvConsole LogProcessingMessage) freshWorld.

Definition atUpdate (E : Env) : World :=
  asked E [personaOf "You are a support agent."; userMessageOf "hello"]
    (fileRead E
       (getConversationHistory E customer
          (lookupCachedResponse E (cacheKeyOf "hello") jobStart).2).2).

Definition afterUpdate (E : Env) : World :=
  (updateConversationHistory E customer (turnMessages "hello" sampleCompletion)
     (total_tokens (reply_usage sampleCompletion)) (atUpdate E)).2.

(** A minute later, nothing else changed. *)
Definition aMinuteLater (w : World) : World := set_clock (now w + 60000) (awaits w) w.

Definition afterHello : World :=
  (getAIResponse_try quietEnv "hello" customer freshWorld).2.

Definition afterThanks : World :=
  (getAIResponse_try quietEnv "thanks" customer (aMinuteLater afterHello)).2.

(** A conversation of 60000 turns, stored with a day to live. *)
Fixpoint manyTurns (n : nat) : list Message :=
  match n with
  | O => []
  | S k => userMessageOf "hi" :: {| role := assistant; content := "Hello!" |}
           :: manyTurns k
  end.

Definition longHistory : list Message := manyTurns (Z.to_nat 60000).

Definition crowdedWorldOf (hist : list Message) : World :=
  worldWith {[ historyKeyOf customer :=
                 (Json (VMessages hist), Some (CONVERSATION_TTL * 1000)) ]}.

Definition crowdedWorld : World := crowdedWorldOf longHistory.

(** ** The body of a request

    [express.json()] hands the handler whatever JSON value the request
    carried; [POST /webhook] reads it without checking its shape.
    [JUndefined] is the value of a property that is not there. The
    members of an object are listed as the text has them; of two
    members with one name the later one counts. *)

#[warnings="-register-all"]
Inductive JsonValue :=
| JUndefined
| JNull
| JBool (b : bool)
| JNumber (n : float)
| JString (s : string)
| JArray (items : list JsonValue)
| JObject (members : list (string * JsonValue)).

(** The properties [POST /webhook] reads. None of them is a property
    that a string, a number, a boolean or an array has of its own. *)
Inductive Property :=
| p_object | p_entry | p_changes | p_value | p_messages | p_from | p_text | p_body.

Definition nameOf (p : Property) : string :=
  match p with
  | p_object => "object"
  | p_entry => "entry"
  | p_changes => "changes"
  | p_value => "value"
  | p_messages => "messages"
  | p_from => "from"
  | p_text => "text"
  | p_body => "body"
  end.

Fixpoint ownProperty (name : string) (members : list (string * JsonValue))
    : option JsonValue :=
  match members with
  | [] => None
  | (k, v) :: rest =>
      match ownProperty name rest with
      | Some later => Some later
      | None => if String.eqb k name then Some v else None
      end
  end.

(** [v.p]: [None] is the [TypeError] of reading a property of [null]
    or [undefined]. *)
Definition member (p : Property) (v : JsonValue) : option JsonValue :=
  match v with
  | JUndefined | JNull => None
  | JObject members => Some (default JUndefined (ownProperty (nameOf p) members))
  | _ => Some JUndefined
  end.

(** [for (const x of v)]: [None] is the [TypeError] of a value that is
    not iterable. An array gives its items and a string its
    characters, each a string of its own. *)
Definition iterate (v : JsonValue) : option (list JsonValue) :=
  match v with
  | JArray items => Some items
  | JString s => Some (map (fun c => JString (String c "")) (list_ascii_of_string s))
  | _ => None
  end.

(** [if (v)] *)
Definition truthyValue (v : JsonValue) : bool :=
  match v with
  | JUndefined | JNull => false
  | JBool b => b
  | JNumber n => negb (PrimFloat.eqb n 0 || PrimFloat.is_nan n)
  | JString s => negb (String.eqb s "")
  | JArray _ | JObject _ => true
  end.

(** [v === s] for a string literal [s]. *)
Definition isString (s : string) (v : JsonValue) : bool :=
  match v with
  | JString s' => String.eqb s' s
  | _ => false
  end.

(** ** Webhook verification, [GET /webhook] (lines 173-192)

    A query parameter given once is a string; one that is not given is
    [undefined]. *)

Record VerifyQuery := {
  hub_mode : option string;
  hub_verify_token : option string;
  hub_challenge : option string
}.

Inductive HookLine :=
| LogVerificationRequest
| LogMissingModeOrToken
| LogWebhookVerified
| LogVerificationFailed
| LogAddingToQueue (from messageText : JsonValue)
| ErrProcessingWebhook
| ErrGettingStats.

(** [res.sendStatus(code)] and [res.status(code).send(body)]. *)
Inductive Reply :=
| sendStatus (code : Z)
| send (code : Z) (body : option string).

(** [!s] for a string that may be [undefined]. *)
Definition falsy (s : option string) : bool :=
  match s with
  | Some (String _ _) => false
  | _ => true
  end.

Definition verifyWebhook (VERIFY_TOKEN : option string) (query : VerifyQuery)
    : list HookLine * Reply :=
  let mode := hub_mode query in
  let token := hub_verify_token query in
  let challenge := hub_challenge query in
  if falsy mode || falsy token then
    ([LogVerificationRequest; LogMissingModeOrToken], sendStatus 400)
  else if bool_decide (mode = Some "subscribe") && bool_decide (token = VERIFY_TOKEN) then
    ([LogVerificationRequest; LogWebhookVerified], send 200 challenge)
  else
    ([LogVerificationRequest; LogVerificationFailed], sendStatus 403).

(** ** The webhook, [POST /webhook] (lines 336-375)

    The handler tests [change.value.messages] and [message.text?.body]
    before it uses them; [data.object], [data.entry], [entry.changes],
    [change.value] and [message.from] it reads as they come, and a
    [TypeError] thrown on the way is caught at the end. *)

Record JobOptions := { attempts : nat; backoff_type : string; backoff_delay : Z }.

(** A job as it is handed to the queue: [from] and [messageText] are
    whatever the payload held. *)
Record QueuedJob := {
  queued_name : string;
  queued_from : JsonValue;
  queued_messageText : JsonValue;
  queued_timestamp : Z;
  queued_opts : JobOptions
}.

(** The queue as the handler sees it: [messageQueue.add] appends a job
    or rejects, and takes some time either way. *)
Record QueueEnv := {
  add_fault : nat -> bool;
  add_latency : nat -> N
}.

Record Hook := {
  hook_now : Z;
  hook_queue : list QueuedJob;
  hook_adds : nat;
  hook_lines : list HookLine
}.

Inductive Flow := Done | Thrown (e : JSError).

Definition hook_log (l : HookLine) (h : Hook) : Hook :=
  {| hook_now := hook_now h; hook_queue := hook_queue h;
     hook_adds := hook_adds h; hook_lines := (hook_lines h ++ [l])%list |}.

Definition messageQueue_add (Q : QueueEnv) (name : string) (from messageText : JsonValue)
    (timestamp : Z) (opts : JobOptions) (h : Hook) : Flow * Hook :=
  let later := hook_now h + Z.of_N (add_latency Q (hook_adds h)) in
  if add_fault Q (hook_adds h) then
    (Thrown RedisError,
     {| hook_now := later; hook_queue := hook_queue h;
        hook_adds := S (hook_adds h); hook_lines := hook_lines h |})
  else
    (Done,
     {| hook_now := later;
        hook_queue := (hook_queue h ++
          [{| queued_name := name; queued_from := from;
              queued_messageText := messageText; queued_timestamp := timestamp;
              queued_opts := opts |}])%list;
        hook_adds := S (hook_adds h); hook_lines := hook_lines h |}).

(** [message.text?.body] *)
Definition messageTextOf (message : JsonValue) : option JsonValue :=
  match member p_text message with
  | None => None
  | Some JUndefined | Some JNull => Some JUndefined
  | Some text => member p_body text
  end.

Definition webhookJobOptions : JobOptions :=
  {| attempts := 3; backoff_type := "exponential"; backoff_delay := 2000 |}.

(** Lines 344-363. *)
Fixpoint forMessages (Q : QueueEnv) (l : list JsonValue) (h : Hook) : Flow * Hook :=
  match l with
  | [] => (Done, h)
  | message :: rest =>
      match member p_from message with
      | None => (Thrown TypeError, h)
      | Some from =>
          match messageTextOf message with
          | None => (Thrown TypeError, h)
          | Some messageText =>
              if truthyValue messageText then
                match messageQueue_add Q "process_message" from messageText (hook_now h)
                        webhookJobOptions
                        (hook_log (LogAddingToQueue from messageText) h) with
                | (Done, h1) => forMessages Q rest h1
                | thrown => thrown
                end
              else forMessages Q rest h
          end
      end
  end.

(** Lines 343-364, for one [change]. *)
Definition forChange (Q : QueueEnv) (change : JsonValue) (h : Hook) : Flow * Hook :=
  match member p_value change with
  | None => (Thrown TypeError, h)
  | Some value =>
      match member p_messages value with
      | None => (Thrown TypeError, h)
      | Some messages =>
          if truthyValue messages then
            match iterate messages with
            | Some l => forMessages Q l h
            | None => (Thrown TypeError, h)
            end
          else (Done, h)
      end
  end.

(** Lines 342-365. *)
Fixpoint forChanges (Q : QueueEnv) (l : list JsonValue) (h : Hook) : Flow * Hook :=
  match l with
  | [] => (Done, h)
  | change :: rest =>
      match forChange Q change h with
      | (Done, h1) => forChanges Q rest h1
      | thrown => thrown
      end
  end.

(** Lines 341-366. *)
Fixpoint forEntries (Q : QueueEnv) (l : list JsonValue) (h : Hook) : Flow * Hook :=
  match l with
  | [] => (Done, h)
  | entry :: rest =>
      match
        match member p_changes entry with
        | None => (Thrown TypeError, h)
        | Some changes =>
            match iterate changes with
            | Some l' => forChanges Q l' h
            | None => (Thrown TypeError, h)
            end
        end
      with
      | (Done, h1) => forEntries Q rest h1
      | thrown => thrown
      end
  end.

Definition postWebhook (Q : QueueEnv) (data : JsonValue) (h : Hook) : Reply * Hook :=
  match
    match member p_object data with
    | None => (Thrown TypeError, h)
    | Some object =>
        if isString "whatsapp_business_account" object then
          match member p_entry data with
          | None => (Thrown TypeError, h)
          | Some entry =>
              match iterate entry with
              | Some entries => forEntries Q entries h
              | None => (Thrown TypeError, h)
              end
          end
        else (Done, h)
    end
  with
  | (Done, h1) => (sendStatus 200, h1)
  | (Thrown error, h1) => (sendStatus 500, hook_log ErrProcessingWebhook h1)
  end.

(** ** [GET /stats] (lines 378-407) *)

(** The keys that [token_count:*] matches. *)
Definition isTokenCountKey (key : string) : bool := String.prefix "token_count:" key.

Record Stats (A : Type) := {
  queueStats : A;
  activeConversations : nat;
  totalTokensUsed : jsnum
}.
Arguments queueStats {A} _.
Arguments activeConversations {A} _.
Arguments totalTokensUsed {A} _.

Section StatsEndpoint.

Variable E : Env.

(** [redis.keys(pattern)]: the matching keys that are alive at the
    instant of the command, in the order the store lists them. *)
Definition redis_keys (matches : string -> bool) : M (list string) :=
  redis_command E (fun t m =>
    (map fst (List.filter (fun kv => matches kv.1 && live t kv.2) (map_to_list m)), m)).

(** Lines 397-400, with [parseInt(count || 0)] as [parsedCount]. *)
Fixpoint sumTokenCounts (keys : list string) (total : jsnum) : M jsnum :=
  match keys with
  | [] => ret total
  | key :: rest =>
      let* count := redis_get E key in
      sumTokenCounts rest (jsnum_add total (parsedCount E count))
  end.

(** The handler. [getQueueStats] stands for the four calls of the
    queue that fill [queueStats]; the reply is the lines written, the
    status and, with a status of 200, the body. *)
Definition statsHandler {A} (getQueueStats : M A)
    : M (list HookLine * Z * option (Stats A)) :=
  try_catch
    (let* q := getQueueStats in
     let* tokenKeys := redis_keys isTokenCountKey in
     let* total := sumTokenCounts tokenKeys (Int 0) in
     ret ([], 200, Some {| queueStats := q;
                           activeConversations := length tokenKeys;
                           totalTokensUsed := total |}))
    (fun error => ret ([ErrGettingStats], 500, None)).

End StatsEndpoint.

(** ** Observations on delivery, reply generation and the job *)

(** The events of a reply generation: console lines and backend calls. *)
Definition replyEvent (e : Event) : Prop :=
  match e with
  | EvConsole _ | EvCreate _ => True
  | _ => False
  end.

(** The events of a delivery to [to] of [message]: console lines,
    timers, and calls of the channel for that recipient and body. *)
Definition deliveryEvent (to : string) (message : option string) (e : Event) : Prop :=
  match e with
  | EvPost _ to' body => to' = to /\ body = message
  | EvTimer _ _ | EvConsole _ => True
  | _ => False
  end.

(** The events of a job for [from]: those of a reply generation and
    those of a delivery to [from], whatever the body. *)
Definition jobEvent (from : string) (e : Event) : Prop :=
  match e with
  | EvPost _ to _ => to = from
  | EvFlushAll => False
  | _ => True
  end.

(** Anything but a call of the channel. *)
Definition noPost (e : Event) : Prop :=
  match e with
  | EvPost _ _ _ => False
  | _ => True
  end.

Definition lastMessageKeyOf (to : string) : string := "last_message:" +:+ to.

Definition conversationKeys (userMessage userId : string) (key : string) : Prop :=
  key = historyKeyOf userId \/ key = tokenCountKeyOf userId \/
  key = cacheKeyOf userMessage.

Definition jobKeys (from messageText : string) (key : string) : Prop :=
  conversationKeys messageText from key \/ key = lastMessageKeyOf from.

(** From [w] to [w']: the events added satisfy [P], the keys outside
    [K] hold what they held, time has not gone back, and the window of
    the limiter has not started in the future if it had not before. *)
Record confined (P : Event -> Prop) (K : string -> Prop) (w w' : World) : Prop := {
  cf_events : exists t, trace w' = (trace w ++ t)%list /\ Forall P t;
  cf_keys : forall key, ~ K key -> redis w' !! key = redis w !! key;
  cf_now : now w <= now w';
  cf_clock : windowStart w <= now w -> windowStart w' <= now w'
}.

Definition within {A} (P : Event -> Prop) (K : string -> Prop) (m : M A) : Prop :=
  forall w, confined P K w (m w).2.

(** A computation calls the channel [n] times at most. *)
Definition postsAtMost {A} (n : nat) (m : M A) : Prop :=
  forall w, (length (posts (trace (m w).2)) <= length (posts (trace w)) + n)%nat.

(** What one leg of [sendWhatsAppMessage] adds to the trace and to the
    count of calls, with the keyspace and the count of Redis commands
    left as they were. *)
Record leg (w w' : World) (attempts : list (string * option string))
    (delays : list Z) (lines : list LogLine) : Prop := {
  leg_posts : map (fun p => (p.1.2, p.2)) (posts (trace w')) =
              (map (fun p => (p.1.2, p.2)) (posts (trace w)) ++ attempts)%list;
  leg_delays : backoffDelays (trace w') = (backoffDelays (trace w) ++ delays)%list;
  leg_logged : logged (trace w') = (logged (trace w) ++ lines)%list;
  leg_httpPosts : httpPosts w' = (httpPosts w + length attempts)%nat;
  leg_redis : redis w' = redis w;
  leg_redisOps : redisOps w' = redisOps w;
  leg_clock : windowStart w' <= now w';
  leg_now : now w <= now w'
}.

(** The limiter lets the next check through. *)
Definition limiterOpen (w : World) : Prop :=
  now w - windowStart w > MESSAGE_WINDOW_MS \/
  messagesSentInWindow w < MAX_MESSAGES_PER_WINDOW.

(** The world in which a call that was let through goes on. *)
Definition afterCheck (w : World) : World :=
  let l := (rateLimitCheck (now w) (limiter_of w)).2 in
  set_limiter (sent l) (start l) w.

(** A failure of the channel that is not retried whatever the count of
    retries: no response at all, or a response with a status below 500;
    and not the code of a recipient who is not allowed. *)
Definition final (o : HttpOutcome) : Prop :=
  o = HttpFail None \/
  exists r, o = HttpFail (Some r) /\ status r < 500 /\ error_code r <> Some 131030.

(** The channel refuses the recipient. *)
Definition refused (o : HttpOutcome) : Prop :=
  exists r, o = HttpFail (Some r) /\ error_code r = Some 131030.

(** The delays of the retries [retryCount], ..., [retryCount + k - 1]. *)
Definition backoffsFrom (retryCount k : nat) : list Z :=
  map (fun i => 2 ^ Z.of_nat i * 1000) (seq retryCount k).

(** The answers of a limiter run that tell the caller to wait. *)
Definition waitWithin (c : Z * Z * Admission) : Prop :=
  match c with
  | (t, s, Wait d) => 0 <= d <= MESSAGE_WINDOW_MS /\ d = MESSAGE_WINDOW_MS - (t - s)
  | (t, s, Proceed) => s <= t
  end.

(** ** Observations on the endpoints *)

(** The messages of a payload that carry a text, in the order of the
    payload, each with its sender: those the handler would find if
    nothing stopped it. *)
Definition textsOfMessage (message : JsonValue) : list (JsonValue * JsonValue) :=
  match member p_from message, messageTextOf message with
  | Some from, Some messageText =>
      if truthyValue messageText then [(from, messageText)] else []
  | _, _ => []
  end.

Definition textsOfChange (change : JsonValue) : list (JsonValue * JsonValue) :=
  match member p_value change with
  | Some value =>
      match member p_messages value with
      | Some messages =>
          if truthyValue messages
          then flat_map textsOfMessage (default [] (iterate messages))
          else []
      | None => []
      end
  | None => []
  end.

Definition textsOfEntry (entry : JsonValue) : list (JsonValue * JsonValue) :=
  match member p_changes entry with
  | Some changes => flat_map textsOfChange (default [] (iterate changes))
  | None => []
  end.

Definition textMessages (data : JsonValue) : list (JsonValue * JsonValue) :=
  match member p_object data, member p_entry data with
  | Some object, Some entry =>
      if isString "whatsapp_business_account" object
      then flat_map textsOfEntry (default [] (iterate entry))
      else []
  | _, _ => []
  end.

(** Neither [null] nor [undefined]. *)
Definition present (v : JsonValue) : bool :=
  match v with
  | JUndefined | JNull => false
  | _ => true
  end.

(** A payload with every part the handler uses without a test: an
    [entry] that can be iterated; in each entry, [changes] that can be
    iterated; in each change, a [value] that is neither [null] nor
    [undefined]; and [messages] that, unless they are falsy, can be
    iterated and hold neither [null] nor [undefined]. *)
Definition completeChange (change : JsonValue) : bool :=
  match member p_value change with
  | Some value =>
      match member p_messages value with
      | Some messages =>
          if truthyValue messages then
            match iterate messages with
            | Some l => forallb present l
            | None => false
            end
          else true
      | None => false
      end
  | None => false
  end.

Definition completeEntry (entry : JsonValue) : bool :=
  match member p_changes entry with
  | Some changes =>
      match iterate changes with
      | Some l => forallb completeChange l
      | None => false
      end
  | None => false
  end.

Definition complete (data : JsonValue) : bool :=
  match member p_entry data with
  | Some entry =>
      match iterate entry with
      | Some l => forallb completeEntry l
      | None => false
      end
  | None => false
  end.

Definition jobsOf (h : Hook) : list (JsonValue * JsonValue) :=
  map (fun j => (queued_from j, queued_messageText j)) (hook_queue h).

(** A job as the handler makes it. *)
Definition webhookJob (since until : Z) (j : QueuedJob) : Prop :=
  queued_name j = "process_message" /\ queued_opts j = webhookJobOptions /\
  truthyValue (queued_messageText j) = true /\ since <= queued_timestamp j <= until.

(** What a loop of the handler has put in the queue: jobs for a
    prefix of the texts it was given, for all of them when it was not
    interrupted. *)
Definition enqueued (expected : list (JsonValue * JsonValue)) (h : Hook)
    (r : Flow * Hook) : Prop :=
  exists js rest,
    hook_queue r.2 = (hook_queue h ++ js)%list /\
    expected = (map (fun j => (queued_from j, queued_messageText j)) js ++ rest)%list /\
    (r.1 = Done -> rest = []) /\
    Forall (webhookJob (hook_now h) (hook_now r.2)) js /\
    hook_now h <= hook_now r.2.

(** The count stored under a key. *)
Definition countUnder (key : string) (w : World) : Z :=
  match redis w !! key with
  | Some (Json (VNumber n), _) => n
  | _ => 0
  end.

(** ** Observations on the limiter at work *)

(** The instants at which a run of the limiter lets a send through,
    and the instants of the calls of the channel in a trace. *)
Definition grantInstants (run : list (Z * Z * Admission)) : list Z :=
  map instantOf (List.filter isGrant run).

Definition postInstants (t : list Event) : list Z :=
  map (fun p => p.1.1) (posts t).

(** From [w] to [w'] the limiter of the process has run its check at
    the instants [ts], none before [w] and none after [w']: its
    counter and window start in [w'] are those this run ends with, and
    the calls of the channel made on the way are the checks that let a
    send through, each made at the instant of its check. *)
Definition metered (w w' : World) (ts : list Z) : Prop :=
  nondecreasingFrom (now w) ts /\
  Forall (fun t => t <= now w') ts /\
  now w <= now w' /\
  limiter_of w' = (checkRun ts (limiter_of w)).2 /\
  postInstants (trace w') =
    (postInstants (trace w) ++ grantInstants (checkRun ts (limiter_of w)).1)%list.

Definition metering (w w' : World) : Prop := exists ts, metered w w' ts.

(** A step of the process that is no delivery: it leaves the limiter
    and the calls of the channel as they were, and time does not go
    back. *)
Definition quiet (w w' : World) : Prop :=
  limiter_of w' = limiter_of w /\ posts (trace w') = posts (trace w) /\
  now w <= now w'.

(** The life of a process as far as the limiter is concerned: calls
    of [sendWhatsAppMessage], one after the other, with anything that
    is no delivery in between. *)
Inductive Traffic (E : Env) : World -> World -> Prop :=
| traffic_none w : Traffic E w w
| traffic_other w w1 w2 : Traffic E w w1 -> quiet w1 w2 -> Traffic E w w2
| traffic_send w w1 budget to message retryCount :
    Traffic E w w1 ->
    Traffic E w (sendWhatsAppMessage E budget to message retryCount w1).2.

(** Send requests served one after the other. *)
Definition deliverAll (E : Env) (budget : nat) (calls : list (string * option string))
    (w : World) : World :=
  fold_left (fun w1 call => (sendWhatsAppMessage E budget call.1 call.2 0 w1).2) calls w.

(** An instant of the closed interval [window, window + MESSAGE_WINDOW_MS]. *)
Definition inWindow (window t : Z) : bool :=
  (window <=? t) && (t <=? window + MESSAGE_WINDOW_MS).

(** Every run of a computation is related by [R] to where it started. *)
Definition along {A} (R : World -> World -> Prop) (m : M A) : Prop :=
  forall w, R w (m w).2.

(** ** Channels for the examples on delivery *)

(** The channel refuses every recipient. *)
Definition refusing : Env :=
  mkEnv (fun _ => false)
        (fun _ => HttpFail (Some {| status := 400; error_code := Some 131030 |})).

(** The channel answers every call with a 400. *)
Definition badRequest : Env :=
  mkEnv (fun _ => false)
        (fun _ => HttpFail (Some {| status := 400; error_code := None |})).

(** The channel answers the first two calls with a 503 and takes the
    third. *)
Definition flaky : Env :=
  mkEnv (fun _ => false)
        (fun n => if (n <? 2)%nat
                  then HttpFail (Some {| status := 503; error_code := None |})
                  else HttpOk "ack").

(** ** Stores, requests and payloads for the later examples *)

(** A request that finds the queue empty, and a queue that takes every
    job in 2 ms. *)
Definition hookStart : Hook :=
  {| hook_now := 0; hook_queue := []; hook_adds := 0; hook_lines := [] |}.

Definition steadyQueue : QueueEnv :=
  {| add_fault := fun _ => false; add_latency := fun _ => 2%N |}.

(** The world after the first exchange with the customer has been
    stored. *)
Definition helloStored : World :=
  (updateConversationHistory quietEnv customer (turnMessages "hello" sampleCompletion)
     42 freshWorld).2.

(** A store in which the customer's history is a text that is not
    JSON, and one in which it is a number. *)
Definition garbledWorld : World :=
  worldWith {[ historyKeyOf customer := (Raw "oops", None);
               tokenCountKeyOf customer := (Json (VNumber 900), None) ]}.


(** A message as WhatsApp sends it. *)
Definition textMessage (from body : string) : JsonValue :=
  JObject [("from", JString from); ("type", JString "text");
           ("text", JObject [("body", JString body)])].

Definition changeOf (messages : JsonValue) : JsonValue :=
  JObject [("field", JString "messages");
           ("value", JObject [("messaging_product", JString "whatsapp");
                              ("messages", messages)])].

(** A payload of two entries: two texts, an image, a message with an
    empty text, a status update without [messages], and [messages]
    that are a string. *)
Definition samplePayload : JsonValue :=
  JObject
    [("object", JString "whatsapp_business_account");
     ("entry", JArray
        [JObject [("id", JString "1");
                  ("changes", JArray
                     [changeOf (JArray
                        [textMessage customer "hello";
                         JObject [("from", JString customer);
                                  ("type", JString "image")]]);
                      JObject [("field", JString "messages");
                               ("value", JObject [("statuses", JArray [])])]])];
         JObject [("id", JString "2");
                  ("changes", JArray
                     [changeOf (JArray
                        [textMessage otherCustomer "";
                         textMessage otherCustomer "thanks"]);
                      changeOf (JString "none")])]])].

(** The same object with a message that is [null], after one text. *)
Definition brokenPayload : JsonValue :=
  JObject
    [("object", JString "whatsapp_business_account");
     ("entry", JArray
        [JObject [("changes", JArray
                     [changeOf (JArray [textMessage customer "hello"; JNull])])]])].

(** The first exchange of the customer, and the instant at which what
    was stored for it expires. *)
Definition helloExpiring : World :=
  set_clock (CONVERSATION_TTL * 1000) (awaits helloStored) helloStored.

(** A store with the counts of two users and the history of one. *)
Definition twoCounts : World :=
  worldWith {[ tokenCountKeyOf customer :=
                 (Json (VNumber 42), Some (CONVERSATION_TTL * 1000));
               tokenCountKeyOf otherCustomer :=
                 (Json (VNumber 7), Some (CONVERSATION_TTL * 1000));
               historyKeyOf customer :=
                 (Json (VMessages (turnMessages "hello" sampleCompletion)),
                  Some (CONVERSATION_TTL * 1000)) ]}.

(** Thirty-one messages for one customer handed to
    [sendWhatsAppMessage] back to back, and the instants of the checks
    the limiter makes for them on a channel without latency. *)
Definition backToBack : list (string * option string) :=
  repeat (customer, Some "hello") 31.

Definition burstChecks : list Z := (repeat 0 31 ++ [1000; 1001])%list.

(** ** The rate limiter *)

Section RateLimiter.

Lemma rateLimitCheck_reset t l :
  t - start l > MESSAGE_WINDOW_MS ->
  rateLimitCheck t l = (Proceed, {| sent := 1; start := t |}).
Proof.
  intros H. unfold rateLimitCheck.
  destruct (Z.gtb_spec (t - start l) MESSAGE_WINDOW_MS) as [_|Hle]; [|lia].
  reflexivity.
Qed.

Lemma rateLimitCheck_exhausted t l :
  t - start l <= MESSAGE_WINDOW_MS ->
  MAX_MESSAGES_PER_WINDOW <= sent l ->
  rateLimitCheck t l = (Wait (MESSAGE_WINDOW_MS - (t - start l)), l).
Proof.
  intros Hw Hs. unfold rateLimitCheck.
  destruct (Z.gtb_spec (t - start l) MESSAGE_WINDOW_MS) as [Hgt|_]; [lia|].
  destruct (Z.geb_spec (sent l) MAX_MESSAGES_PER_WINDOW) as [_|Hlt]; [|lia].
  reflexivity.
Qed.

Lemma rateLimitCheck_grant t l :
  t - start l <= MESSAGE_WINDOW_MS ->
  sent l < MAX_MESSAGES_PER_WINDOW ->
  rateLimitCheck t l = (Proceed, {| sent := sent l + 1; start := start l |}).
Proof.
  intros Hw Hs. unfold rateLimitCheck.
  destruct (Z.gtb_spec (t - start l) MESSAGE_WINDOW_MS) as [Hgt|_]; [lia|].
  destruct (Z.geb_spec (sent l) MAX_MESSAGES_PER_WINDOW) as [Hge|_]; [lia|].
  reflexivity.
Qed.

(** The three cases of a check. *)
Lemma rateLimitCheck_cases t l :
  (t - start l > MESSAGE_WINDOW_MS /\
   rateLimitCheck t l = (Proceed, {| sent := 1; start := t |})) \/
  (t - start l <= MESSAGE_WINDOW_MS /\ MAX_MESSAGES_PER_WINDOW <= sent l /\
   rateLimitCheck t l = (Wait (MESSAGE_WINDOW_MS - (t - start l)), l)) \/
  (t - start l <= MESSAGE_WINDOW_MS /\ sent l < MAX_MESSAGES_PER_WINDOW /\
   rateLimitCheck t l = (Proceed, {| sent := sent l + 1; start := start l |})).
Proof.
  destruct (Z_gt_le_dec (t - start l) MESSAGE_WINDOW_MS) as [H|H].
  - left. split; [assumption|]. apply rateLimitCheck_reset; assumption.
  - destruct (Z_lt_le_dec (sent l) MAX_MESSAGES_PER_WINDOW) as [H'|H'].
    + right; right. repeat split; try assumption. apply rateLimitCheck_grant; assumption.
    + right; left. repeat split; try assumption. apply rateLimitCheck_exhausted; assumption.
Qed.

Lemma grants_bounded ts : forall l window,
  0 <= sent l ->
  Z.of_nat (length (grantsIn window (checkRun ts l).1)) <= budgetLeft window l.
Proof.
  induction ts as [|t ts IH]; intros l window Hs.
  - simpl. unfold budgetLeft, MAX_MESSAGES_PER_WINDOW.
    repeat case_match; lia.
  - simpl.
    destruct (rateLimitCheck_cases t l) as [[Hw Hc]|[[Hw [Hx Hc]]|[Hw [Hx Hc]]]];
      rewrite Hc; clear Hc.
    + specialize (IH {| sent := 1; start := t |} window ltac:(simpl; lia)).
      destruct (checkRun ts {| sent := 1; start := t |}) as [r l2] eqn:Hr.
      unfold grantsIn in *. simpl in *.
      unfold budgetLeft, MESSAGE_WINDOW_MS, MAX_MESSAGES_PER_WINDOW in *. simpl in *.
      destruct (Z.eqb_spec t window) as [->|Hne].
      * rewrite Z.ltb_irrefl, Z.eqb_refl in IH. simpl length.
        destruct (Z.ltb_spec window (start l)); [lia|].
        destruct (Z.eqb_spec window (start l)); lia.
      * destruct (Z.ltb_spec window t); destruct (Z.ltb_spec window (start l));
          destruct (Z.eqb_spec window t); destruct (Z.eqb_spec window (start l)); lia.
    + specialize (IH l window Hs).
      destruct (checkRun ts l) as [r l2] eqn:Hr.
      unfold grantsIn in *. simpl in *. exact IH.
    + specialize (IH {| sent := sent l + 1; start := start l |} window ltac:(simpl; lia)).
      destruct (checkRun ts {| sent := sent l + 1; start := start l |}) as [r l2] eqn:Hr.
      unfold grantsIn in *. simpl in *.
      unfold budgetLeft, MESSAGE_WINDOW_MS, MAX_MESSAGES_PER_WINDOW in *. simpl in *.
      destruct (Z.eqb_spec (start l) window) as [<-|Hne].
      * rewrite Z.ltb_irrefl, Z.eqb_refl in *. simpl length. lia.
      * destruct (Z.ltb_spec window (start l)); destruct (Z.eqb_spec window (start l)); lia.
Qed.

(** Every check falls in the window it is counted in, and a window
    that is not the current one starts after the current one has
    lapsed. *)
Lemma checks_in_window ts : forall t0 l,
  start l <= t0 -> nondecreasingFrom t0 ts ->
  Forall (fun c => (windowOf c = start l \/ start l + MESSAGE_WINDOW_MS < windowOf c) /\
                   windowOf c <= instantOf c <= windowOf c + MESSAGE_WINDOW_MS)
         (checkRun ts l).1.
Proof.
  induction ts as [|t ts IH]; intros t0 l Hs Hm; simpl.
  - constructor.
  - destruct Hm as [Ht Hm].
    destruct (rateLimitCheck_cases t l) as [[Hw Hc]|[[Hw [Hx Hc]]|[Hw [Hx Hc]]]];
      rewrite Hc; clear Hc.
    + specialize (IH t {| sent := 1; start := t |} ltac:(simpl; lia) Hm).
      destruct (checkRun ts {| sent := 1; start := t |}) as [r l2].
      simpl in *. unfold MESSAGE_WINDOW_MS in *. constructor.
      * unfold windowOf, instantOf; simpl. lia.
      * eapply Forall_impl; [exact IH|]. intros c [H1 H2]. simpl in *. lia.
    + specialize (IH t l ltac:(lia) Hm).
      destruct (checkRun ts l) as [r l2].
      simpl in *. unfold MESSAGE_WINDOW_MS in *. constructor.
      * unfold windowOf, instantOf; simpl. lia.
      * exact IH.
    + specialize (IH t {| sent := sent l + 1; start := start l |} ltac:(simpl; lia) Hm).
      destruct (checkRun ts {| sent := sent l + 1; start := start l |}) as [r l2].
      simpl in *. unfold MESSAGE_WINDOW_MS in *. constructor.
      * unfold windowOf, instantOf; simpl. lia.
      * exact IH.
Qed.

(** Two checks of a run fall in the same window or in windows that do
    not overlap. *)
Lemma windows_apart ts : forall t0 l c1 c2,
  start l <= t0 -> nondecreasingFrom t0 ts ->
  In c1 (checkRun ts l).1 -> In c2 (checkRun ts l).1 ->
  windowOf c1 = windowOf c2 \/
  windowOf c1 + MESSAGE_WINDOW_MS < windowOf c2 \/
  windowOf c2 + MESSAGE_WINDOW_MS < windowOf c1.
Proof.
  induction ts as [|t ts IH]; intros t0 l c1 c2 Hs Hm H1 H2; simpl in *.
  - contradiction.
  - destruct Hm as [Ht Hm].
    destruct (rateLimitCheck t l) as [g l1] eqn:Hc.
    assert (Hl1 : start l1 <= t).
    { destruct (rateLimitCheck_cases t l) as [[Hw Hc']|[[Hw [Hx Hc']]|[Hw [Hx Hc']]]];
        rewrite Hc' in Hc; inversion Hc; subst; simpl; lia. }
    pose proof (checks_in_window ts t l1 Hl1 Hm) as Hall.
    specialize (IH t l1).
    destruct (checkRun ts l1) as [r l2]. simpl in *.
    rewrite List.Forall_forall in Hall.
    destruct H1 as [<-|H1]; destruct H2 as [<-|H2].
    + left; reflexivity.
    + destruct (Hall _ H2) as [[He|Hg] _]; unfold windowOf in *; simpl in *; lia.
    + destruct (Hall _ H1) as [[He|Hg] _]; unfold windowOf in *; simpl in *; lia.
    + eapply IH; eauto.
Qed.

(** With a full budget, nothing is let through before the window has
    lapsed. *)
Lemma late_grants ts : forall t0 l bound,
  nondecreasingFrom t0 ts ->
  (MAX_MESSAGES_PER_WINDOW <= sent l /\ start l + MESSAGE_WINDOW_MS = bound) \/ bound < t0 ->
  Forall (fun c => isGrant c = true -> bound < instantOf c) (checkRun ts l).1.
Proof.
  induction ts as [|t ts IH]; intros t0 l bound Hm Hinv; simpl.
  - constructor.
  - destruct Hm as [Ht Hm].
    destruct (rateLimitCheck_cases t l) as [[Hw Hc]|[[Hw [Hx Hc]]|[Hw [Hx Hc]]]];
      rewrite Hc; clear Hc.
    + assert (Hb : bound < t) by (unfold MESSAGE_WINDOW_MS in *; lia).
      specialize (IH t {| sent := 1; start := t |} bound Hm (or_intror Hb)).
      destruct (checkRun ts {| sent := 1; start := t |}) as [r l2].
      constructor; [intros _; exact Hb | exact IH].
    + assert (Hinv' : (MAX_MESSAGES_PER_WINDOW <= sent l /\
                       start l + MESSAGE_WINDOW_MS = bound) \/ bound < t)
        by (destruct Hinv; [left; assumption | right; lia]).
      specialize (IH t l bound Hm Hinv').
      destruct (checkRun ts l) as [r l2].
      constructor; [simpl; discriminate | exact IH].
    + assert (Hb : bound < t) by (destruct Hinv as [[? ?]|?]; lia).
      specialize (IH t {| sent := sent l + 1; start := start l |} bound Hm (or_intror Hb)).
      destruct (checkRun ts {| sent := sent l + 1; start := start l |}) as [r l2].
      constructor; [intros _; exact Hb | exact IH].
Qed.

Lemma filter_length_le {A} (f g : A -> bool) (l : list A) :
  (forall x, In x l -> f x = true -> g x = true) ->
  (length (List.filter f l) <= length (List.filter g l))%nat.
Proof.
  induction l as [|a l IH]; intros H; simpl; [lia|].
  assert (IH' := IH (fun x Hx => H x (or_intror Hx))).
  destruct (f a) eqn:Hf.
  - rewrite (H a (or_introl eq_refl) Hf). simpl. lia.
  - destruct (g a); simpl; lia.
Qed.

(** At most [MAX_MESSAGES_PER_WINDOW] sends are let through at instants
    of one window of the run. *)
Lemma grants_within_window ts t0 l window :
  0 <= sent l -> start l <= t0 -> nondecreasingFrom t0 ts ->
  In window (map windowOf (checkRun ts l).1) ->
  Z.of_nat (length (List.filter (isGrantWithin window) (checkRun ts l).1))
    <= MAX_MESSAGES_PER_WINDOW.
Proof.
  intros Hs Ht0 Hm Hin.
  apply in_map_iff in Hin as [cw [Hcw Hin]].
  pose proof (grants_bounded ts l window Hs) as Hb.
  pose proof (checks_in_window ts t0 l Ht0 Hm) as Hall.
  rewrite List.Forall_forall in Hall.
  assert (Hle : (length (List.filter (isGrantWithin window) (checkRun ts l).1)
                 <= length (grantsIn window (checkRun ts l).1))%nat).
  { apply filter_length_le. intros [[t s] g] Hc Hg.
    destruct g; simpl in Hg; [|discriminate].
    apply andb_true_iff in Hg as [Hg1 Hg2].
    apply Z.leb_le in Hg1, Hg2.
    destruct (Hall _ Hc) as [_ Hr].
    pose proof (windows_apart ts t0 l (t, s, Proceed) cw Ht0 Hm Hc Hin) as Hap.
    destruct (Hall _ Hin) as [_ Hrw].
    unfold windowOf, instantOf in *. simpl in *.
    apply Z.eqb_eq. lia. }
  assert (budgetLeft window l <= MAX_MESSAGES_PER_WINDOW).
  { unfold budgetLeft, MAX_MESSAGES_PER_WINDOW. repeat case_match; lia. }
  lia.
Qed.

Lemma rateLimitCheck_rolled t l :
  rateLimitCheck t l = rateLimitCheck t (rolled t l).
Proof.
  unfold rateLimitCheck, rolled, MESSAGE_WINDOW_MS.
  destruct (Z.gtb_spec (t - start l) 1000) as [H|H]; simpl.
  - destruct (Z.gtb_spec (t - t) 1000); [lia|reflexivity].
  - destruct (Z.gtb_spec (t - start l) 1000); [lia|reflexivity].
Qed.

Lemma rolled_in_window t l :
  t - start (rolled t l) <= MESSAGE_WINDOW_MS.
Proof.
  unfold rolled, MESSAGE_WINDOW_MS.
  destruct (Z.gtb_spec (t - start l) 1000); simpl; lia.
Qed.

Lemma rolled_sent t l :
  0 <= sent l <= MAX_MESSAGES_PER_WINDOW ->
  0 <= sent (rolled t l) <= MAX_MESSAGES_PER_WINDOW.
Proof.
  unfold rolled, MAX_MESSAGES_PER_WINDOW. case_match; simpl; lia.
Qed.

(** [n] checks made at one instant of the current window. *)
Lemma burst n : forall l t,
  t - start l <= MESSAGE_WINDOW_MS ->
  0 <= sent l <= MAX_MESSAGES_PER_WINDOW ->
  start (checkRun (repeat t n) l).2 = start l /\
  sent (checkRun (repeat t n) l).2 =
    Z.min MAX_MESSAGES_PER_WINDOW (sent l + Z.of_nat n) /\
  (MAX_MESSAGES_PER_WINDOW < sent l + Z.of_nat n ->
   last (checkRun (repeat t n) l).1 =
     Some (t, start l, Wait (MESSAGE_WINDOW_MS - (t - start l)))).
Proof.
  induction n as [|n IH]; intros l t Hw Hs.
  - simpl. unfold MAX_MESSAGES_PER_WINDOW in *. repeat split; lia.
  - cbn [repeat checkRun].
    destruct (rateLimitCheck_cases t l) as [[Hw' Hc]|[[_ [Hx Hc]]|[_ [Hx Hc]]]];
      [lia| |]; rewrite Hc; clear Hc.
    + specialize (IH l t Hw Hs).
      destruct n as [|n].
      * simpl. unfold MAX_MESSAGES_PER_WINDOW in *. repeat split; lia.
      * destruct (checkRun (repeat t (S n)) l) as [r l2]. simpl in *.
        destruct IH as [IH1 [IH2 IH3]].
        unfold MAX_MESSAGES_PER_WINDOW in *.
        repeat split; [assumption|lia|].
        intros _. rewrite last_cons. rewrite IH3 by lia. reflexivity.
    + specialize (IH {| sent := sent l + 1; start := start l |} t Hw
                     ltac:(unfold MAX_MESSAGES_PER_WINDOW in *; simpl; lia)).
      destruct (checkRun (repeat t n) {| sent := sent l + 1; start := start l |}) as [r l2].
      simpl in *. destruct IH as [IH1 [IH2 IH3]].
      unfold MAX_MESSAGES_PER_WINDOW in *.
      repeat split; [assumption|lia|].
      intros Hn. rewrite last_cons. rewrite IH3 by lia. reflexivity.
Qed.

End RateLimiter.

(** ** Reading the trace *)

Lemma posts_app t1 t2 : posts (t1 ++ t2) = (posts t1 ++ posts t2)%list.
Proof. apply flat_map_app. Qed.

Lemma backoffDelays_app t1 t2 :
  backoffDelays (t1 ++ t2) = (backoffDelays t1 ++ backoffDelays t2)%list.
Proof. apply flat_map_app. Qed.

Lemma prompts_app t1 t2 : prompts (t1 ++ t2) = (prompts t1 ++ prompts t2)%list.
Proof. apply flat_map_app. Qed.

Lemma logged_app t1 t2 : logged (t1 ++ t2) = (logged t1 ++ logged t2)%list.
Proof. apply flat_map_app. Qed.

Ltac trace_simpl :=
  rewrite ?posts_app, ?backoffDelays_app, ?prompts_app, ?logged_app, ?map_app;
  simpl; rewrite ?app_nil_r.

(** ** Delivery: [sendWhatsAppMessage] *)

Section Delivery.

Variable E : Env.

Lemma stretch_refl w : windowStart w <= now w -> stretch w w [] [].
Proof. intros H. split; rewrite ?app_nil_r; auto. Qed.

Lemma stretch_trans w1 w2 w3 a1 a2 d1 d2 :
  stretch w1 w2 a1 d1 -> stretch w2 w3 a2 d2 ->
  stretch w1 w3 (a1 ++ a2) (d1 ++ d2).
Proof.
  intros [P1 D1 R1 C1] [P2 D2 R2 C2]. split.
  - rewrite P2, P1, app_assoc. reflexivity.
  - rewrite D2, D1, app_assoc. reflexivity.
  - congruence.
  - assumption.
Qed.

(** The budget is used up: the caller is suspended until the window
    has lapsed, or for 1 ms when that is now, and checks again. *)
Lemma sendOnce_closed w :
  windowStart w <= now w ->
  now w - windowStart w <= MESSAGE_WINDOW_MS ->
  MAX_MESSAGES_PER_WINDOW <= messagesSentInWindow w ->
  exists w',
    stretch w w' [] [] /\
    windowStart w' = windowStart w /\
    messagesSentInWindow w' = messagesSentInWindow w /\
    now w + Z.max 1 (MESSAGE_WINDOW_MS - (now w - windowStart w)) <= now w' /\
    trace w' = (trace w ++
      [EvTimer RateLimitWait (MESSAGE_WINDOW_MS - (now w - windowStart w))])%list /\
    forall self to m rc, sendOnce E self to m rc w = self to m rc w'.
Proof.
  intros Hc Hw Hs.
  exists (setTimeout_await E RateLimitWait
            (MESSAGE_WINDOW_MS - (now w - windowStart w)) w).2.
  assert (Hd : forall d, d <= 1000 -> ((d <? 1) || (2147483647 <? d)) = (d <? 1)).
  { intros d Hd. destruct (Z.ltb_spec 2147483647 d); [lia|]. apply orb_false_r. }
  split; [|split; [|split; [|split; [|split]]]].
  6: { intros. unfold sendOnce, bind at 1, rate_limit_check.
       rewrite (rateLimitCheck_exhausted (now w) (limiter_of w) Hw Hs).
       destruct w; reflexivity. }
  all: destruct w as [t sn st rd ro fr bc hp aw tr]; simpl in *;
    unfold MESSAGE_WINDOW_MS in *; try split; simpl; trace_simpl; auto;
    rewrite Hd by lia; destruct (Z.ltb_spec (1000 - (t - st)) 1); lia.
Qed.

(** The limiter lets the call through and the channel answers with a
    failure that is retried. *)
Lemma sendOnce_open_fail to m rc w r :
  windowStart w <= now w ->
  now w - windowStart w > MESSAGE_WINDOW_MS \/
    messagesSentInWindow w < MAX_MESSAGES_PER_WINDOW ->
  post_result E (httpPosts w) = HttpFail (Some r) ->
  500 <= status r -> error_code r <> Some 131030 ->
  exists w', stretch w w' [(to, m)]
               (if (rc <? 3)%nat then [2 ^ Z.of_nat rc * 1000] else []) /\
    forall self, sendOnce E self to m rc w =
      if (rc <? 3)%nat then self to m (S rc) w'
      else (Throw (AxiosError (Some r)), w').
Proof.
  intros Hc Hopen Hpost Hst Hcode.
  assert (Hge : status_ge_500 (AxiosError (Some r)) = true).
  { unfold status_ge_500. simpl. destruct (Z.geb_spec (status r) 500); [reflexivity|lia]. }
  destruct w as [t sn st rd ro fr bc hp aw tr]; simpl in *.
  destruct (rateLimitCheck_cases t {| sent := sn; start := st |})
    as [[Hw Hg]|[[Hw [Hx Hg]]|[Hw [Hx Hg]]]];
    [ | simpl in *; lia | ];
    destruct (rc <? 3)%nat eqn:Hrc;
    (eexists; split; cycle 1;
     [ intros self; unfold sendOnce, bind at 1, rate_limit_check, limiter_of; simpl;
       rewrite Hg; simpl;
       unfold try_catch, bind, axios_post; simpl; rewrite Hpost; simpl;
       rewrite decide_False by assumption;
       rewrite Hrc, Hge; simpl; reflexivity
     | split; simpl; trace_simpl; rewrite <- ?app_assoc; simpl; auto; try lia;
       match goal with
       | |- context [if ?b then 1 else _] =>
           let Hb := fresh "Hb" in
           destruct b eqn:Hb;
           [|apply orb_false_elim in Hb as [Hb _]; apply Z.ltb_ge in Hb]
       end; lia ]).
Qed.

(** A call gets past the limiter after two waits at most: the first
    ends when the window has lasted [MESSAGE_WINDOW_MS], the second one
    millisecond later, when it has lapsed. *)
Lemma through_limiter w :
  windowStart w <= now w ->
  exists j w1, (j <= 2)%nat /\ stretch w w1 [] [] /\
    (now w1 - windowStart w1 > MESSAGE_WINDOW_MS \/
     messagesSentInWindow w1 < MAX_MESSAGES_PER_WINDOW) /\
    forall n to m rc,
      sendWhatsAppMessage E (j + S n) to m rc w =
      sendOnce E (sendWhatsAppMessage E n) to m rc w1.
Proof.
  intros Hc.
  destruct (Z_gt_le_dec (now w - windowStart w) MESSAGE_WINDOW_MS) as [Ho|Hw].
  { exists 0%nat, w. split; [lia|]. split; [apply stretch_refl; assumption|].
    split; [left; assumption | intros; reflexivity]. }
  destruct (Z_lt_le_dec (messagesSentInWindow w) MAX_MESSAGES_PER_WINDOW) as [Ho|Hs].
  { exists 0%nat, w. split; [lia|]. split; [apply stretch_refl; assumption|].
    split; [right; assumption | intros; reflexivity]. }
  destruct (sendOnce_closed w Hc Hw Hs) as (w1 & St1 & Hws1 & Hsn1 & Hn1 & _ & Heq1).
  pose proof (st_clock _ _ _ _ St1) as Hc1.
  destruct (Z_gt_le_dec (now w1 - windowStart w1) MESSAGE_WINDOW_MS) as [Ho1|Hw1].
  { exists 1%nat, w1. split; [lia|]. split; [assumption|].
    split; [left; assumption | intros; simpl; apply Heq1]. }
  assert (Hs1 : MAX_MESSAGES_PER_WINDOW <= messagesSentInWindow w1) by lia.
  destruct (sendOnce_closed w1 Hc1 Hw1 Hs1) as (w2 & St2 & Hws2 & Hsn2 & Hn2 & _ & Heq2).
  exists 2%nat, w2. split; [lia|]. split; [|split].
  - apply (stretch_trans _ _ _ [] [] [] [] St1 St2).
  - left. unfold MESSAGE_WINDOW_MS in *. lia.
  - intros. simpl. rewrite Heq1. simpl. apply Heq2.
Qed.

(** One attempt against a channel that fails with a retryable error. *)
Lemma failing_round to m rc w :
  windowStart w <= now w ->
  (forall k, retryable (post_result E k)) ->
  exists j w' r, (j <= 2)%nat /\ 500 <= status r /\
    stretch w w' [(to, m)] (if (rc <? 3)%nat then [2 ^ Z.of_nat rc * 1000] else []) /\
    forall n,
      sendWhatsAppMessage E (j + S n) to m rc w =
      if (rc <? 3)%nat then sendWhatsAppMessage E n to m (S rc) w'
      else (Throw (AxiosError (Some r)), w').
Proof.
  intros Hc Hfail.
  destruct (through_limiter w Hc) as (j & w1 & Hj & St1 & Hopen & Heq).
  destruct (Hfail (httpPosts w1)) as (r & Hpost & Hst & Hcode).
  destruct (sendOnce_open_fail to m rc w1 r (st_clock _ _ _ _ St1) Hopen Hpost Hst Hcode)
    as (w' & St2 & Heq2).
  exists j, w', r. split; [assumption|]. split; [assumption|]. split.
  - apply (stretch_trans _ _ _ [] _ [] _ St1 St2).
  - intros n. rewrite Heq, Heq2. reflexivity.
Qed.

(** A larger budget does not change a result that was reached. *)
Lemma sendOnce_mono self1 self2 to m rc w :
  (forall to m rc w, (self1 to m rc w).1 <> Pending ->
                     self2 to m rc w = self1 to m rc w) ->
  (sendOnce E self1 to m rc w).1 <> Pending ->
  sendOnce E self2 to m rc w = sendOnce E self1 to m rc w.
Proof.
  intros Hself. unfold sendOnce, bind, try_catch, rate_limit_check.
  destruct (rateLimitCheck (now w) (limiter_of w)) as [g l].
  destruct g as [|d]; simpl;
    repeat (match goal with
            | |- context [match ?x with _ => _ end] =>
                match type of x with
                | (Outcome _ * World)%type => destruct x as [[?|?|] ?]
                | sumbool _ _ => destruct x
                | bool => destruct x
                end
            end; simpl);
    auto; intros Hp; apply Hself; exact Hp.
Qed.

Lemma send_budget_mono n : forall k to m rc w,
  (sendWhatsAppMessage E n to m rc w).1 <> Pending ->
  sendWhatsAppMessage E (n + k) to m rc w = sendWhatsAppMessage E n to m rc w.
Proof.
  induction n as [|n IH]; intros k to m rc w Hp.
  - simpl in Hp. contradiction.
  - simpl in *. apply sendOnce_mono; [|exact Hp].
    intros. apply IH. assumption.
Qed.

(** A full budget suspends the call for the rest of the window and
    then runs the check again. *)
Lemma send_suspended budget to m rc w :
  now w - windowStart w <= MESSAGE_WINDOW_MS ->
  MAX_MESSAGES_PER_WINDOW <= messagesSentInWindow w ->
  sendWhatsAppMessage E (S budget) to m rc w =
  (do* setTimeout_await E RateLimitWait
         (MESSAGE_WINDOW_MS - (now w - windowStart w)) in
   sendWhatsAppMessage E budget to m rc) w.
Proof.
  intros Hw Hs. simpl. unfold sendOnce, bind at 1, rate_limit_check.
  rewrite (rateLimitCheck_exhausted (now w) (limiter_of w) Hw Hs).
  destruct w; reflexivity.
Qed.

End Delivery.

(** C1, as the code has it. Against a channel that answers every call
    with a retryable failure, [sendWhatsAppMessage] makes four calls
    (the first and three retries), waits 1000, 2000 and 4000 ms between
    them, and then rejects with the failure of the fourth call, having
    recorded no last message. *)
Theorem send_gives_up_after_three_retries (E : Env) (to : string)
    (m : option string) (w : World) (budget : nat)
    (Hclock : windowStart w <= now w)
    (Hfail : forall k, retryable (post_result E k))
    (Hbudget : (12 <= budget)%nat) :
  exists r w',
    sendWhatsAppMessage E budget to m 0 w = (Throw (AxiosError (Some r)), w') /\
    500 <= status r /\
    map (fun p => (p.1.2, p.2)) (posts (trace w')) =
      (map (fun p => (p.1.2, p.2)) (posts (trace w)) ++
       [(to, m); (to, m); (to, m); (to, m)])%list /\
    backoffDelays (trace w') = (backoffDelays (trace w) ++ [1000; 2000; 4000])%list /\
    redis w' = redis w.
Proof.
  destruct (failing_round E to m 0 w Hclock Hfail)
    as (j0 & w1 & r0 & Hj0 & _ & S0 & E0).
  destruct (failing_round E to m 1 w1 (st_clock _ _ _ _ S0) Hfail)
    as (j1 & w2 & r1 & Hj1 & _ & S1 & E1).
  destruct (failing_round E to m 2 w2 (st_clock _ _ _ _ S1) Hfail)
    as (j2 & w3 & r2 & Hj2 & _ & S2 & E2).
  destruct (failing_round E to m 3 w3 (st_clock _ _ _ _ S2) Hfail)
    as (j3 & w4 & r3 & Hj3 & Hr3 & S3 & E3).
  simpl in *.
  pose proof (stretch_trans _ _ _ _ _ _ _ (stretch_trans _ _ _ _ _ _ _
               (stretch_trans _ _ _ _ _ _ _ S0 S1) S2) S3) as [HP HD HR _].
  set (n0 := (j0 + S (j1 + S (j2 + S (j3 + 1))))%nat).
  assert (Hrun : sendWhatsAppMessage E n0 to m 0 w = (Throw (AxiosError (Some r3)), w4)).
  { unfold n0. rewrite E0, E1, E2, E3. reflexivity. }
  exists r3, w4. split; [|split; [assumption|auto]].
  replace budget with (n0 + (budget - n0))%nat by (unfold n0; lia).
  rewrite send_budget_mono; [exact Hrun|]. rewrite Hrun. discriminate.
Qed.

(** C1 at a fresh process whose channel answers 503 to every call. *)
Lemma send_gives_up_after_three_retries_witness :
  windowStart freshWorld <= now freshWorld /\
  (forall k, retryable (post_result serverDown k)) /\
  (12 <= 12)%nat /\
  exists r w',
    sendWhatsAppMessage serverDown 12 "27821234567" (Some "hello") 0 freshWorld =
      (Throw (AxiosError (Some r)), w') /\
    500 <= status r /\
    map (fun p => (p.1.2, p.2)) (posts (trace w')) =
      (map (fun p => (p.1.2, p.2)) (posts (trace freshWorld)) ++
       [("27821234567", Some "hello"); ("27821234567", Some "hello");
        ("27821234567", Some "hello"); ("27821234567", Some "hello")])%list /\
    backoffDelays (trace w') =
      (backoffDelays (trace freshWorld) ++ [1000; 2000; 4000])%list /\
    redis w' = redis freshWorld.
Proof.
  assert (H1 : windowStart freshWorld <= now freshWorld) by (simpl; lia).
  assert (H2 : forall k, retryable (post_result serverDown k)).
  { intros k. eexists. split; [reflexivity|]. simpl. split; [lia|discriminate]. }
  assert (H3 : (12 <= 12)%nat) by lia.
  split; [exact H1|]. split; [exact H2|]. split; [exact H3|].
  exact (send_gives_up_after_three_retries serverDown "27821234567" (Some "hello")
           freshWorld 12 H1 H2 H3).
Defined.

(** C1, as the claim has it, fails: the channel is called four times,
    not three. *)
Lemma three_attempts_refuted :
  let r := sendWhatsAppMessage serverDown 12 "27821234567" (Some "hello") 0 freshWorld in
  (forall k, retryable (post_result serverDown k)) /\
  r.1 = Throw (AxiosError (Some {| status := 503; error_code := None |})) /\
  length (posts (trace r.2)) = 4%nat /\
  length (posts (trace r.2)) <> 3%nat.
Proof.
  split.
  - intros k. eexists. split; [reflexivity|]. simpl. split; [lia|discriminate].
  - vm_compute. repeat split; discriminate.
Qed.

(** ** The conversation store and [getAIResponse] *)

Section Conversation.

Variable E : Env.

Lemma bind_Ok_inv {A B} (m : M A) (k : A -> M B) w b w' :
  bind m k w = (Ok b, w') ->
  exists a w1, m w = (Ok a, w1) /\ k a w1 = (Ok b, w').
Proof.
  unfold bind. destruct (m w) as [[a|e|] w1]; intros H; try discriminate.
  exists a, w1. split; [reflexivity|assumption].
Qed.

Lemma try_catch_Ok_inv {A} (m : M A) (h : JSError -> M A) w a w' :
  try_catch m h w = (Ok a, w') ->
  m w = (Ok a, w') \/ exists e w1, m w = (Throw e, w1) /\ h e w1 = (Ok a, w').
Proof.
  unfold try_catch. destruct (m w) as [[a1|e|] w1]; intros H; try discriminate.
  - left. assumption.
  - right. exists e, w1. split; [reflexivity|assumption].
Qed.

Lemma redis_get_fault key w :
  redis_fault E (redisOps w) = true ->
  redis_get E key w = (Throw RedisError, served E (redis w) w).
Proof. intros H. unfold redis_get, redis_command. rewrite H. reflexivity. Qed.

Lemma redis_get_ok key w :
  redis_fault E (redisOps w) = false ->
  redis_get E key w = (Ok (lookup_live (now w) key (redis w)), served E (redis w) w).
Proof. intros H. unfold redis_get, redis_command. rewrite H. reflexivity. Qed.

Lemma redis_set_fault key v ex w :
  redis_fault E (redisOps w) = true ->
  redis_set E key v ex w = (Throw RedisError, served E (redis w) w).
Proof. intros H. unfold redis_set, redis_command. rewrite H. reflexivity. Qed.

Lemma redis_set_ok key v ex w :
  redis_fault E (redisOps w) = false ->
  redis_set E key v ex w =
    (Ok tt, served E (<[key := (v, match ex with
                                   | Some seconds => Some (now w + seconds * 1000)
                                   | None => None
                                   end)]> (redis w)) w).
Proof. intros H. unfold redis_set, redis_command. rewrite H. reflexivity. Qed.

Lemma redis_set_Ok_inv key v ex w w' :
  redis_set E key v ex w = (Ok tt, w') ->
  redis_fault E (redisOps w) = false /\
  w' = served E (<[key := (v, match ex with
                              | Some seconds => Some (now w + seconds * 1000)
                              | None => None
                              end)]> (redis w)) w.
Proof.
  destruct (redis_fault E (redisOps w)) eqn:Hf.
  - rewrite redis_set_fault by assumption. discriminate.
  - rewrite redis_set_ok by assumption. intros H. inversion H. auto.
Qed.

Lemma calm_refl w : calm w w.
Proof. split; auto; lia. Qed.

Lemma calm_trans w1 w2 w3 : calm w1 w2 -> calm w2 w3 -> calm w1 w3.
Proof. intros [] []. split; try congruence; lia. Qed.

Lemma calm_served w : calm w (served E (redis w) w).
Proof. split; simpl; auto; lia. Qed.

Lemma calm_record_console l w : calm w (record (EvConsole l) w).
Proof. split; simpl; trace_simpl; auto; lia. Qed.

(** [getConversationHistory], case by case. *)
Lemma getConversationHistory_fault1 userId w :
  redis_fault E (redisOps w) = true ->
  getConversationHistory E userId w =
    (Ok emptyHistory, record (EvConsole ErrGettingHistory) (served E (redis w) w)).
Proof.
  intros H. unfold getConversationHistory, try_catch, bind at 1.
  rewrite redis_get_fault by assumption. reflexivity.
Qed.

Lemma getConversationHistory_fault2 userId w :
  redis_fault E (redisOps w) = false ->
  redis_fault E (S (redisOps w)) = true ->
  getConversationHistory E userId w =
    (Ok emptyHistory,
     record (EvConsole ErrGettingHistory)
            (served E (redis w) (served E (redis w) w))).
Proof.
  intros H1 H2. unfold getConversationHistory, try_catch, bind at 1.
  rewrite redis_get_ok by assumption. unfold bind at 1.
  rewrite redis_get_fault by assumption. reflexivity.
Qed.

Lemma getConversationHistory_reads userId w :
  redis_fault E (redisOps w) = false ->
  redis_fault E (S (redisOps w)) = false ->
  getConversationHistory E userId w =
    let w1 := served E (redis w) w in
    let w2 := served E (redis w) w1 in
    match parsedHistory E (lookup_live (now w) (historyKeyOf userId) (redis w)) with
    | Some v =>
        (Ok {| messages := v;
               tokenCount := parsedCount E
                 (lookup_live (now w1) (tokenCountKeyOf userId) (redis w)) |}, w2)
    | None => (Ok emptyHistory, record (EvConsole ErrGettingHistory) w2)
    end.
Proof.
  intros H1 H2. unfold getConversationHistory, try_catch, bind at 1.
  rewrite redis_get_ok by assumption. unfold bind at 1.
  rewrite redis_get_ok by assumption.
  unfold parsedHistory, parsedCount.
  destruct (lookup_live (now w) (historyKeyOf userId) (redis w)) as [h|]; [|reflexivity].
  destruct (truthy h); [|reflexivity].
  destruct h as [v|t]; [reflexivity|]. unfold bind, JSON_parse.
  destruct (JSON_parse_text E t); reflexivity.
Qed.

(** [getConversationHistory] is total and only reads. *)
Lemma getConversationHistory_total userId w :
  exists h w', getConversationHistory E userId w = (Ok h, w') /\ calm w w' /\
               (redisOps w < redisOps w')%nat.
Proof.
  destruct (redis_fault E (redisOps w)) eqn:H1.
  { rewrite getConversationHistory_fault1 by assumption.
    eexists _, _. split; [reflexivity|]. split; [|simpl; lia].
    eapply calm_trans; [apply calm_served|apply calm_record_console]. }
  destruct (redis_fault E (S (redisOps w))) eqn:H2.
  { rewrite getConversationHistory_fault2 by assumption.
    eexists _, _. split; [reflexivity|]. split; [|simpl; lia].
    eapply calm_trans; [apply calm_served|].
    eapply calm_trans; [apply (calm_served (served E (redis w) w))|].
    apply calm_record_console. }
  rewrite getConversationHistory_reads by assumption. cbv zeta.
  destruct (parsedHistory E _);
    (eexists _, _; split; [reflexivity|]; split; [|simpl; lia]).
  - eapply calm_trans; [apply calm_served|apply (calm_served (served E (redis w) w))].
  - eapply calm_trans; [apply calm_served|].
    eapply calm_trans; [apply (calm_served (served E (redis w) w))|].
    apply calm_record_console.
Qed.

Lemma loadSupportScript_cases w :
  loadSupportScript E w =
    match readFile_result E (fsReads w) with
    | Some scriptContent => (Ok (personaOf scriptContent), fileRead E w)
    | None => (Throw FsError, record (EvConsole ErrLoadingSupportScript) (fileRead E w))
    end.
Proof.
  unfold loadSupportScript, try_catch, bind, fs_readFile.
  destruct (readFile_result E (fsReads w)); reflexivity.
Qed.

Lemma openai_create_cases msgs w :
  openai_create E msgs w =
    match create_result E (backendCalls w) msgs with
    | Some c => (Ok c, asked E msgs w)
    | None => (Throw BackendError, asked E msgs w)
    end.
Proof.
  unfold openai_create. destruct (create_result E (backendCalls w) msgs); reflexivity.
Qed.

Ltac redis_set_step :=
  match goal with
  | |- context [redis_set E ?k ?v ?ex ?w] =>
      let H := fresh "Hset" in
      destruct (redis_fault E (redisOps w)) eqn:H;
      [rewrite (redis_set_fault k v ex w H) | rewrite (redis_set_ok k v ex w H)]
  end.

(** [updateConversationHistory] asks nothing of the backend. *)
Lemma updateConversationHistory_prompts userId newMessages tokenUsage w :
  prompts (trace (updateConversationHistory E userId newMessages tokenUsage w).2) =
  prompts (trace w).
Proof.
  unfold updateConversationHistory, try_catch, bind at 1.
  destruct (getConversationHistory_total userId w) as (h & w1 & -> & Hc & _).
  pose proof (calm_prompts _ _ Hc) as Hp.
  unfold bind at 1. destruct (messages h); simpl; trace_simpl; auto.
  unfold bind at 1. redis_set_step; simpl; trace_simpl; auto.
  unfold bind at 1. redis_set_step; simpl; trace_simpl; auto.
Qed.

(** The prompt of a generated reply: the persona, the whole history
    that was read, the new message. *)
Lemma generateReply_prompt userMessage userId w h w1 hm scriptContent :
  getConversationHistory E userId w = (Ok h, w1) ->
  calm w w1 ->
  messages h = VMessages hm ->
  readFile_result E (fsReads w) = Some scriptContent ->
  prompts (trace (generateReply E userMessage userId w).2) =
    (prompts (trace w) ++
     [personaOf scriptContent :: hm ++ [userMessageOf userMessage]])%list.
Proof.
  intros Hh Hc Hm Hfile.
  unfold generateReply, bind at 1. rewrite Hh.
  unfold bind at 1. rewrite loadSupportScript_cases.
  rewrite (calm_files _ _ Hc), Hfile.
  unfold bind at 1. rewrite Hm. simpl spread. unfold ret at 1. cbv iota beta.
  unfold bind at 1. rewrite openai_create_cases.
  change {| role := user; content := userMessage |} with (userMessageOf userMessage).
  destruct (create_result E _ _) as [c|].
  2: { simpl. trace_simpl. rewrite (calm_prompts _ _ Hc). reflexivity. }
  unfold bind at 1.
  match goal with |- context [updateConversationHistory E ?u ?n ?k ?w0] =>
    pose proof (updateConversationHistory_prompts u n k w0) as Hup;
    destruct (updateConversationHistory E u n k w0) as [[h'|e|] w3] end;
    simpl in Hup; revert Hup; trace_simpl; rewrite (calm_prompts _ _ Hc);
    intros Hup; simpl; auto.
  unfold bind at 1. redis_set_step; simpl; trace_simpl; auto.
Qed.


(** Nothing in the reply generation recurses. *)
Lemma settles_ret {A} (a : A) : settles (ret a).
Proof. intros w. discriminate. Qed.

Lemma settles_throw {A} e : settles (@throw A e).
Proof. intros w. discriminate. Qed.

Lemma settles_bind {A B} (m : M A) (k : A -> M B) :
  settles m -> (forall a, settles (k a)) -> settles (bind m k).
Proof.
  intros Hm Hk w. unfold bind. specialize (Hm w).
  destruct (m w) as [[a|e|] w1]; simpl in *; [apply Hk|discriminate|contradiction].
Qed.

Lemma settles_try_catch {A} (m : M A) (h : JSError -> M A) :
  settles m -> (forall e, settles (h e)) -> settles (try_catch m h).
Proof.
  intros Hm Hh w. unfold try_catch. specialize (Hm w).
  destruct (m w) as [[a|e|] w1]; simpl in *; [discriminate|apply Hh|contradiction].
Qed.

Lemma settles_console l : settles (console l).
Proof. intros w. discriminate. Qed.

Lemma settles_redis_command {A} run : settles (@redis_command E A run).
Proof.
  intros w. unfold redis_command.
  destruct (redis_fault E (redisOps w)); [discriminate|].
  destruct (run (now w) (redis w)). discriminate.
Qed.

Lemma settles_fs_readFile : settles (fs_readFile E).
Proof. intros w. unfold fs_readFile. destruct (readFile_result E _); discriminate. Qed.

Lemma settles_openai_create msgs : settles (openai_create E msgs).
Proof. intros w. rewrite openai_create_cases. destruct (create_result E _ _); discriminate. Qed.

Lemma settles_JSON_parse c : settles (JSON_parse E c).
Proof.
  intros w. unfold JSON_parse. destruct c as [v|t]; [discriminate|].
  destruct (JSON_parse_text E t); discriminate.
Qed.

Lemma settles_spread v : settles (spread v).
Proof. intros w. destruct v; discriminate. Qed.

Ltac settle :=
  repeat first
    [ apply settles_ret | apply settles_throw | apply settles_console
    | apply settles_redis_command | apply settles_fs_readFile
    | apply settles_openai_create | apply settles_JSON_parse | apply settles_spread
    | apply settles_bind; [|intros ?] | apply settles_try_catch; [|intros ?]
    | match goal with
      | |- settles (match ?x with _ => _ end) => destruct x
      end ].

Lemma settles_getConversationHistory userId :
  settles (getConversationHistory E userId).
Proof. unfold getConversationHistory, redis_get. settle. Qed.

Lemma settles_updateConversationHistory userId newMessages tokenUsage :
  settles (updateConversationHistory E userId newMessages tokenUsage).
Proof.
  unfold updateConversationHistory, redis_set.
  apply settles_try_catch; [|intros ?; settle].
  apply settles_bind; [apply settles_getConversationHistory|intros ?]. settle.
Qed.

Lemma settles_getAIResponse_try userMessage userId :
  settles (getAIResponse_try E userMessage userId).
Proof.
  unfold getAIResponse_try, lookupCachedResponse, generateReply, loadSupportScript,
    redis_get, redis_set.
  apply settles_bind; [settle|intros [parsed|]; [settle|]].
  apply settles_bind; [apply settles_getConversationHistory|intros ?].
  apply settles_bind; [settle|intros ?].
  apply settles_bind; [settle|intros ?].
  apply settles_bind; [settle|intros ?].
  apply settles_bind; [apply settles_updateConversationHistory|intros ?]. settle.
Qed.

(** The [catch] of [getAIResponse]. *)
Lemma getAIResponse_caught userMessage userId w e w1 :
  getAIResponse_try E userMessage userId w = (Throw e, w1) ->
  getAIResponse E userMessage userId w =
    (Ok (VResponse fallbackResponse), record (EvConsole ErrGettingAIResponse) w1).
Proof. intros H. unfold getAIResponse, try_catch. rewrite H. reflexivity. Qed.

Lemma getAIResponse_passed userMessage userId w v w1 :
  getAIResponse_try E userMessage userId w = (Ok v, w1) ->
  getAIResponse E userMessage userId w = (Ok v, w1).
Proof. intros H. unfold getAIResponse, try_catch. rewrite H. reflexivity. Qed.


(** The rest of the reply generation once the backend is reached. *)
Lemma getAIResponse_try_at_backend userMessage userId w prompt wc :
  reachesBackend E userMessage userId w prompt wc ->
  getAIResponse_try E userMessage userId w =
    (let* completion := openai_create E prompt in
     do* updateConversationHistory E userId (turnMessages userMessage completion)
           (total_tokens (reply_usage completion)) in
     do* redis_set E (cacheKeyOf userMessage)
           (Json (VResponse (responseOf completion))) (Some 3600) in
     ret (VResponse (responseOf completion))) wc.
Proof.
  intros (wa & h & wb & scriptContent & hm & H1 & H2 & H3 & H4 & -> & ->).
  unfold getAIResponse_try, bind at 1. rewrite H1.
  unfold generateReply, bind at 1. rewrite H2.
  unfold bind at 1. rewrite loadSupportScript_cases, H3.
  unfold bind at 1. rewrite H4. reflexivity.
Qed.

Lemma getAIResponse_try_at_update userMessage userId w c wd :
  reachesUpdate E userMessage userId w c wd ->
  getAIResponse_try E userMessage userId w =
    (do* updateConversationHistory E userId (turnMessages userMessage c)
           (total_tokens (reply_usage c)) in
     do* redis_set E (cacheKeyOf userMessage)
           (Json (VResponse (responseOf c))) (Some 3600) in
     ret (VResponse (responseOf c))) wd.
Proof.
  intros (prompt & wc & Hb & Hc & ->).
  rewrite (getAIResponse_try_at_backend _ _ _ _ _ Hb).
  unfold bind at 1. rewrite openai_create_cases, Hc. reflexivity.
Qed.

(** A write that rejects makes [updateConversationHistory] log the
    error and reject with it. *)
Lemma updateConversationHistory_write_fault userId newMessages tokenUsage w h w1 old :
  getConversationHistory E userId w = (Ok h, w1) ->
  messages h = VMessages old ->
  redis_fault E (redisOps w1) = true \/
    redis_fault E (S (redisOps w1)) = true ->
  exists we,
    updateConversationHistory E userId newMessages tokenUsage w =
      (Throw RedisError, we) /\
    exists earlier, logged (trace we) = (earlier ++ [ErrUpdatingHistory])%list.
Proof.
  intros Hh Hm Hf.
  unfold updateConversationHistory, try_catch, bind at 1. rewrite Hh.
  unfold bind at 1. rewrite Hm. simpl spread. unfold ret at 1. cbv iota beta.
  unfold bind at 1.
  destruct (redis_fault E (redisOps w1)) eqn:H1.
  - rewrite redis_set_fault by assumption. simpl.
    eexists. split; [reflexivity|]. simpl. trace_simpl. eauto.
  - destruct Hf as [Hf|Hf]; [discriminate|].
    rewrite redis_set_ok by assumption. unfold bind at 1.
    rewrite redis_set_fault by exact Hf. simpl.
    eexists. split; [reflexivity|]. simpl. trace_simpl. eauto.
Qed.

(** C2, as the code has it. When [updateConversationHistory] rejects
    inside [getAIResponse], as it does when one of its writes rejects,
    the [catch] of [getAIResponse] takes the error: [getAIResponse]
    fulfils with the fixed apology, and the worker goes on to deliver
    that text. The job fails only if that delivery fails. *)
Theorem update_failure_is_absorbed (from messageText : string) (w0 : World)
    (c : Completion) (wd : World) (e : JSError) (we : World) (budget : nat)
    (Hreach : reachesUpdate E messageText from
                (record (EvConsole LogProcessingMessage) w0) c wd)
    (Hfail : updateConversationHistory E from (turnMessages messageText c)
               (total_tokens (reply_usage c)) wd = (Throw e, we)) :
  getAIResponse E messageText from (record (EvConsole LogProcessingMessage) w0) =
    (Ok (VResponse fallbackResponse), record (EvConsole ErrGettingAIResponse) we) /\
  processMessage E budget from messageText w0 =
    match sendWhatsAppMessage E budget from (Some fallbackText) 0
            (record (EvConsole LogGotAIResponse)
                    (record (EvConsole ErrGettingAIResponse) we)) with
    | (Ok _, w3) =>
        (Ok {| job_from := from; job_messageText := messageText;
               job_aiResponse := Some fallbackText;
               job_tokenUsage := Some (resp_usage fallbackResponse) |},
         record (EvConsole LogTokenUsage) (record (EvConsole LogResponseSent) w3))
    | (Throw e', w3) => (Throw e', record (EvConsole ErrProcessingMessage) w3)
    | (Pending, w3) => (Pending, w3)
    end.
Proof.
  assert (Hai : getAIResponse E messageText from
                  (record (EvConsole LogProcessingMessage) w0) =
                (Ok (VResponse fallbackResponse),
                 record (EvConsole ErrGettingAIResponse) we)).
  { apply getAIResponse_caught with (e := e).
    rewrite (getAIResponse_try_at_update _ _ _ _ _ Hreach).
    unfold bind at 1. rewrite Hfail. reflexivity. }
  split; [exact Hai|].
  unfold processMessage, try_catch, bind at 1. unfold console at 1, modify.
  unfold bind at 1. rewrite Hai.
  unfold bind at 1. unfold console at 1, modify.
  unfold bind at 1. simpl prop_content. unfold ret at 1.
  unfold bind at 1.
  destruct (sendWhatsAppMessage E budget from (Some fallbackText) 0 _) as [[a|e'|] w3];
    reflexivity.
Qed.

(** [lookupCachedResponse], case by case. *)
Lemma lookupCachedResponse_cases key w :
  lookupCachedResponse E key w =
    if redis_fault E (redisOps w) then (Throw RedisError, served E (redis w) w)
    else
      match lookup_live (now w) key (redis w) with
      | Some c =>
          if truthy c then
            match c with
            | Json v => (Ok (Some v), served E (redis w) w)
            | Raw t =>
                match JSON_parse_text E t with
                | Some v => (Ok (Some v), served E (redis w) w)
                | None => (Ok None, record (EvConsole WarnParsingCached)
                                           (served E (redis w) w))
                end
            end
          else (Ok None, served E (redis w) w)
      | None => (Ok None, served E (redis w) w)
      end.
Proof.
  unfold lookupCachedResponse, bind at 1.
  destruct (redis_fault E (redisOps w)) eqn:Hf.
  - rewrite redis_get_fault by assumption. reflexivity.
  - rewrite redis_get_ok by assumption.
    destruct (lookup_live (now w) key (redis w)) as [c|]; [|reflexivity].
    destruct (truthy c); [|reflexivity].
    destruct c as [v|t]; [reflexivity|].
    unfold try_catch, bind, JSON_parse.
    destruct (JSON_parse_text E t); reflexivity.
Qed.

Lemma calm_lookupCachedResponse key w :
  calm w (lookupCachedResponse E key w).2.
Proof.
  rewrite lookupCachedResponse_cases.
  repeat case_match; simpl;
    first [ apply calm_served
          | eapply calm_trans; [apply calm_served|apply calm_record_console] ].
Qed.

(** What a fulfilled [updateConversationHistory] has read and
    written. *)
Lemma updateConversationHistory_Ok_inv userId newMessages tokenUsage w h' w' :
  updateConversationHistory E userId newMessages tokenUsage w = (Ok h', w') ->
  exists h w1 old,
    getConversationHistory E userId w = (Ok h, w1) /\
    messages h = VMessages old /\
    redis_fault E (redisOps w1) = false /\
    redis_fault E (S (redisOps w1)) = false /\
    let stored1 := <[historyKeyOf userId :=
                      (Json (VMessages (old ++ newMessages)),
                       Some (now w1 + CONVERSATION_TTL * 1000))]> (redis w1) in
    let w2 := served E stored1 w1 in
    w' = served E
           (<[tokenCountKeyOf userId :=
               (String_of_jsnum (jsnum_add (tokenCount h) (Int tokenUsage)),
                Some (now w2 + CONVERSATION_TTL * 1000))]> stored1) w2.
Proof.
  unfold updateConversationHistory, try_catch, bind at 1.
  destruct (getConversationHistory_total userId w) as (h & w1 & Hh & _ & _).
  rewrite Hh. unfold bind at 1.
  destruct (messages h) as [| |old|] eqn:Hm; simpl; try discriminate.
  unfold bind at 1. redis_set_step; simpl; [discriminate|].
  unfold bind at 1. redis_set_step; simpl; [discriminate|].
  intros Heq. inversion Heq.
  exists h, w1, old. repeat split; auto.
Qed.

(** What a fulfilled reply generation has gone through. *)
Lemma generateReply_Ok_inv userMessage userId w v w' :
  generateReply E userMessage userId w = (Ok v, w') ->
  exists h wb scriptContent hm c h' we,
    getConversationHistory E userId w = (Ok h, wb) /\
    readFile_result E (fsReads wb) = Some scriptContent /\
    messages h = VMessages hm /\
    create_result E (backendCalls (fileRead E wb))
      (personaOf scriptContent :: hm ++ [userMessageOf userMessage]) = Some c /\
    updateConversationHistory E userId (turnMessages userMessage c)
      (total_tokens (reply_usage c))
      (asked E (personaOf scriptContent :: hm ++ [userMessageOf userMessage])
             (fileRead E wb)) = (Ok h', we) /\
    redis_fault E (redisOps we) = false /\
    v = VResponse (responseOf c) /\
    w' = served E (<[cacheKeyOf userMessage :=
                      (Json (VResponse (responseOf c)),
                       Some (now we + 3600 * 1000))]> (redis we)) we.
Proof.
  unfold generateReply, bind at 1.
  destruct (getConversationHistory_total userId w) as (h & wb & Hh & _ & _).
  rewrite Hh. unfold bind at 1. rewrite loadSupportScript_cases.
  destruct (readFile_result E (fsReads wb)) as [scriptContent|] eqn:Hfile;
    [|discriminate].
  unfold bind at 1.
  destruct (messages h) as [| |hm|] eqn:Hm; simpl spread;
    try (unfold throw; discriminate).
  unfold ret at 1. cbv iota beta.
  unfold bind at 1. rewrite openai_create_cases.
  change {| role := user; content := userMessage |} with (userMessageOf userMessage).
  destruct (create_result E _ _) as [c|] eqn:Hc; [|discriminate].
  unfold bind at 1.
  change [userMessageOf userMessage; {| role := assistant; content := reply c |}]
    with (turnMessages userMessage c).
  destruct (updateConversationHistory E userId _ _ _) as [[h'|e|] we] eqn:Hu;
    try discriminate.
  unfold bind at 1. redis_set_step; simpl; [discriminate|].
  intros Heq. inversion Heq.
  exists h, wb, scriptContent, hm, c, h', we. repeat split; auto.
Qed.

Lemma truthy_Raw t : t <> "" -> truthy (Raw t) = true.
Proof. destruct t; [contradiction|reflexivity]. Qed.

(** A fulfilled reply generation leaves its reply in the cache. *)
Lemma generateReply_caches userMessage userId w v w' :
  generateReply E userMessage userId w = (Ok v, w') ->
  exists r written,
    v = VResponse r /\ written <= now w' /\
    redis w' !! cacheKeyOf userMessage =
      Some (Json (VResponse r), Some (written + 3600 * 1000)) /\
    backendCalls w' <> backendCalls w.
Proof.
  intros H.
  destruct (generateReply_Ok_inv _ _ _ _ _ H)
    as (h & wb & sc & hm & c & h' & we & Hh & _ & _ & _ & Hu & _ & -> & ->).
  exists (responseOf c), (now we). split; [reflexivity|]. split; [simpl; lia|].
  split; [simpl; apply lookup_insert_eq|].
  destruct (getConversationHistory_total userId w) as (h0 & wb0 & Hh0 & Hc & _).
  rewrite Hh in Hh0. inversion Hh0; subst h0 wb0.
  destruct (updateConversationHistory_Ok_inv _ _ _ _ _ _ Hu)
    as (h2 & w1 & old & Hh2 & _ & _ & _ & ->).
  destruct (getConversationHistory_total userId
              (asked E (personaOf sc :: hm ++ [userMessageOf userMessage])%list
                     (fileRead E wb))) as (h3 & w3 & Hh3 & Hc3 & _).
  rewrite Hh2 in Hh3. inversion Hh3; subst h3 w3.
  simpl. rewrite (calm_backend _ _ Hc3). simpl. rewrite (calm_backend _ _ Hc). lia.
Qed.


(** C10, as the code has it. A cached entry that is a text
    [JSON.parse] rejects is taken for a miss: [getAIResponse] goes on
    as it does when nothing is cached, and when that reply generation
    fulfils, its reply is returned and replaces the entry. The warning
    is logged when the text is not empty; an empty text fails the
    truthiness test before any parse and is skipped without a word. *)
Theorem corrupt_cache_entry_is_a_miss (userMessage userId : string) (w : World)
    (t : string)
    (Hread : redis_fault E (redisOps w) = false)
    (Hentry : lookup_live (now w) (cacheKeyOf userMessage) (redis w) = Some (Raw t))
    (Hcorrupt : JSON_parse_text E t = None) :
  let w1 := if decide (t = "") then served E (redis w) w
            else record (EvConsole WarnParsingCached) (served E (redis w) w) in
  logged (trace w1) =
    (logged (trace w) ++ if decide (t = "") then [] else [WarnParsingCached])%list /\
  getAIResponse E userMessage userId w =
    try_catch (generateReply E userMessage userId)
      (fun error =>
         do* console ErrGettingAIResponse in
         ret (VResponse fallbackResponse)) w1 /\
  (forall v w',
     generateReply E userMessage userId w1 = (Ok v, w') ->
     getAIResponse E userMessage userId w = (Ok v, w') /\
     exists r expiry,
       v = VResponse r /\
       redis w' !! cacheKeyOf userMessage = Some (Json (VResponse r), Some expiry)).
Proof.
  intros w1.
  assert (Htry : getAIResponse_try E userMessage userId w =
                 generateReply E userMessage userId w1).
  { unfold getAIResponse_try, bind at 1.
    rewrite lookupCachedResponse_cases, Hread, Hentry. unfold w1.
    destruct (decide (t = "")) as [->|Hne]; [reflexivity|].
    rewrite truthy_Raw by assumption. rewrite Hcorrupt. reflexivity. }
  split; [|split].
  - unfold w1. destruct (decide (t = "")); simpl; trace_simpl; reflexivity.
  - unfold getAIResponse, try_catch. rewrite Htry. reflexivity.
  - intros v w' Hgen. split.
    + apply getAIResponse_passed. rewrite Htry. exact Hgen.
    + destruct (generateReply_caches _ _ _ _ _ Hgen) as (r & written & -> & _ & Hc & _).
      eauto.
Qed.

(** C5. A call that went through the backend and fulfilled has left
    its reply in the cache for 3600 s. While that entry is there and
    has not expired, a call with the same text, for whichever user,
    whose cache read succeeds returns that same value; it asks nothing
    of the backend, writes nothing to the keyspace and logs nothing. *)
Theorem cache_hit_returns_cached_reply (userMessage user1 user2 : string)
    (w w1 w2 : World) (v : JSValue)
    (Hfirst : getAIResponse_try E userMessage user1 w = (Ok v, w1))
    (Hbackend : backendCalls w1 <> backendCalls w)
    (Hkept : redis w2 !! cacheKeyOf userMessage = redis w1 !! cacheKeyOf userMessage)
    (Hfresh : forall c expiry,
        redis w1 !! cacheKeyOf userMessage = Some (c, Some expiry) -> now w2 < expiry)
    (Hread : redis_fault E (redisOps w2) = false) :
  getAIResponse E userMessage user1 w = (Ok v, w1) /\
  (exists written, written <= now w1 /\
     redis w1 !! cacheKeyOf userMessage = Some (Json v, Some (written + 3600 * 1000))) /\
  exists w3,
    getAIResponse E userMessage user2 w2 = (Ok v, w3) /\
    redis w3 = redis w2 /\
    backendCalls w3 = backendCalls w2 /\
    trace w3 = trace w2.
Proof.
  split; [apply getAIResponse_passed; exact Hfirst|].
  assert (Hstored : exists written, written <= now w1 /\
            redis w1 !! cacheKeyOf userMessage =
              Some (Json v, Some (written + 3600 * 1000))).
  { revert Hfirst. unfold getAIResponse_try, bind at 1.
    pose proof (calm_lookupCachedResponse (cacheKeyOf userMessage) w) as Hc.
    destruct (lookupCachedResponse E (cacheKeyOf userMessage) w) as [[[parsed|]|e|] wa];
      try discriminate.
    - intros Heq. inversion Heq; subst. exfalso. apply Hbackend.
      apply (calm_backend _ _ Hc).
    - intros Hgen.
      destruct (generateReply_caches _ _ _ _ _ Hgen) as (r & written & -> & Hw & Hl & _).
      eauto. }
  split; [exact Hstored|].
  destruct Hstored as (written & _ & Hl).
  exists (served E (redis w2) w2).
  split; [|repeat split].
  apply getAIResponse_passed.
  unfold getAIResponse_try, bind at 1.
  rewrite lookupCachedResponse_cases, Hread.
  unfold lookup_live. rewrite Hkept, Hl. unfold live. simpl.
  destruct (Z.ltb_spec (now w2) (written + 3600 * 1000)) as [_|Hge];
    [reflexivity|].
  specialize (Hfresh _ _ Hl). lia.
Qed.

Lemma history_key_not_count userId userId' :
  historyKeyOf userId <> tokenCountKeyOf userId'.
Proof. unfold historyKeyOf, tokenCountKeyOf. simpl. discriminate. Qed.

Lemma history_key_not_cache userId userMessage :
  historyKeyOf userId <> cacheKeyOf userMessage.
Proof. unfold historyKeyOf, cacheKeyOf. simpl. discriminate. Qed.

Lemma count_key_not_cache userId userMessage :
  tokenCountKeyOf userId <> cacheKeyOf userMessage.
Proof. unfold tokenCountKeyOf, cacheKeyOf. simpl. discriminate. Qed.

(** What a read finds of a stored conversation that is still alive. *)
Lemma conversation_read userId w l n t1 t2 bound :
  conversation userId w l n ->
  (forall key c expiry,
     key = historyKeyOf userId \/ key = tokenCountKeyOf userId ->
     redis w !! key = Some (c, Some expiry) -> bound < expiry) ->
  t1 <= bound -> t2 <= bound ->
  parsedHistory E (lookup_live t1 (historyKeyOf userId) (redis w)) = Some (VMessages l) /\
  parsedCount E (lookup_live t2 (tokenCountKeyOf userId) (redis w)) = Int n.
Proof.
  intros [(Hh & Ht & -> & ->)|(x1 & x2 & Hh & Ht)] Hlive H1 H2;
    unfold lookup_live; rewrite Hh, Ht; [split; reflexivity|].
  pose proof (Hlive _ _ _ (or_introl eq_refl) Hh).
  pose proof (Hlive _ _ _ (or_intror eq_refl) Ht).
  unfold live. simpl.
  destruct (Z.ltb_spec t1 x1); [|lia].
  destruct (Z.ltb_spec t2 x2); [|lia].
  split; reflexivity.
Qed.

(** A completed turn appends its two messages and adds its usage. *)
Lemma completedTurn_appends userMessage userId w r w' l n :
  completedTurn E userMessage userId w r w' ->
  conversation userId w l n ->
  conversation userId w' (l ++ exchangeOf (userMessage, r))
               (n + total_tokens (resp_usage r)).
Proof.
  intros (Htry & Hb & Hff & Hlive) Hconv.
  revert Htry. unfold getAIResponse_try, bind at 1.
  pose proof (calm_lookupCachedResponse (cacheKeyOf userMessage) w) as Hca.
  destruct (lookupCachedResponse E (cacheKeyOf userMessage) w) as [[[parsed|]|e|] wa];
    try discriminate.
  { intros Heq. inversion Heq; subst. exfalso. apply Hb. apply (calm_backend _ _ Hca). }
  intros Hgen. simpl in Hca.
  destruct (generateReply_Ok_inv _ _ _ _ _ Hgen)
    as (h & wb & sc & hm & c & h' & we & Hh & _ & _ & _ & Hu & _ & Hv & Hw').
  inversion Hv; subst r. clear Hv.
  destruct (getConversationHistory_total userId wa) as (h0 & wb0 & Hh0 & Hcb & _).
  rewrite Hh in Hh0. inversion Hh0; subst h0 wb0. clear Hh0.
  remember (asked E (personaOf sc :: hm ++ [userMessageOf userMessage])%list
                  (fileRead E wb)) as wd eqn:Hwd.
  assert (Hrd : redis wd = redis w).
  { subst wd. simpl. rewrite (calm_redis _ _ Hcb), (calm_redis _ _ Hca). reflexivity. }
  assert (Hops : (redisOps w <= redisOps wd)%nat).
  { subst wd. simpl. pose proof (calm_ops _ _ Hcb). pose proof (calm_ops _ _ Hca). lia. }
  clear Hwd Hh Hgen Hca Hcb.
  destruct (updateConversationHistory_Ok_inv _ _ _ _ _ _ Hu)
    as (h2 & w1 & old & Hh2 & Hm2 & _ & _ & Hwe). cbv zeta in Hwe.
  destruct (getConversationHistory_total userId wd) as (h3 & w3 & Hh3 & _ & Hlt3).
  rewrite Hh2 in Hh3. inversion Hh3; subst h3 w3. clear Hh3.
  assert (Hops' : redisOps w' = S (S (S (redisOps w1)))) by (subst w' we; reflexivity).
  assert (Hfa : redis_fault E (redisOps wd) = false) by (apply Hff; lia).
  assert (Hfb : redis_fault E (S (redisOps wd)) = false) by (apply Hff; lia).
  rewrite (getConversationHistory_reads userId wd Hfa Hfb) in Hh2. cbv zeta in Hh2.
  rewrite Hrd in Hh2.
  assert (Hw1 : now w1 = now (served E (redis w) (served E (redis w) wd))).
  { destruct (parsedHistory E _) in Hh2; inversion Hh2; reflexivity. }
  assert (Hnow' : now w1 <= now w').
  { subst w' we. simpl. lia. }
  destruct (conversation_read userId w l n (now wd) (now (served E (redis w) wd))
              (now w') Hconv Hlive) as [Hph Hpc].
  { rewrite Hw1 in Hnow'. simpl in Hnow'. lia. }
  { rewrite Hw1 in Hnow'. simpl in *. lia. }
  rewrite Hph, Hpc in Hh2. inversion Hh2; subst h2. clear Hh2.
  simpl in Hm2. inversion Hm2; subst old. clear Hm2.
  right. subst w' we. simpl.
  eexists _, _. split.
  - rewrite lookup_insert_ne by (apply not_eq_sym, history_key_not_cache).
    rewrite lookup_insert_ne by (apply not_eq_sym, history_key_not_count).
    rewrite lookup_insert_eq. reflexivity.
  - rewrite lookup_insert_ne by (apply not_eq_sym, count_key_not_cache).
    rewrite lookup_insert_eq. reflexivity.
Qed.

Lemma untouched_conversation userId w w' l n :
  untouched userId w w' -> conversation userId w l n -> conversation userId w' l n.
Proof.
  intros [Hh Ht] [(H1 & H2 & -> & ->)|(x1 & x2 & H1 & H2)].
  - left. rewrite Hh, Ht. auto.
  - right. exists x1, x2. rewrite Hh, Ht. auto.
Qed.

Lemma length_exchangesOf turns :
  length (exchangesOf turns) = (2 * length turns)%nat.
Proof.
  unfold exchangesOf.
  induction turns as [|turn turns IH]; [reflexivity|].
  cbn [flat_map exchangeOf app length]. rewrite IH. lia.
Qed.

Lemma totalUsage_snoc turns turn :
  totalUsage (turns ++ [turn]) = totalUsage turns + total_tokens (resp_usage turn.2).
Proof.
  unfold totalUsage. induction turns as [|t0 turns IH]; simpl; [lia|].
  rewrite IH. lia.
Qed.

Lemma dialogue_conversation userId w turns w' :
  Dialogue E userId w turns w' ->
  conversation userId w [] 0 ->
  conversation userId w' (exchangesOf turns) (totalUsage turns).
Proof.
  induction 1 as [w|w w1 w2 w3 turns userMessage r _ IH Hun Hturn]; intros Hstart.
  - exact Hstart.
  - unfold exchangesOf. rewrite flat_map_app, totalUsage_snoc.
    cbn [flat_map]. rewrite ?app_nil_r.
    apply (completedTurn_appends _ _ _ _ _ _ _ Hturn).
    apply (untouched_conversation _ _ _ _ _ Hun). apply IH, Hstart.
Qed.

(** C6, as the code has it. For a user with nothing stored at the
    start, after any number of completed turns (each asked of the
    backend, none with a Redis command that rejects, none overtaken by
    the expiry of what is stored), with the user's two keys left alone
    in between, the stored history is the turns' messages in order, a
    user message and its reply for each turn, twice as many messages as
    turns, and the stored count is the sum of the turns' usage. *)
Theorem dialogue_history_and_tokens (userId : string) (w w' : World)
    (turns : list (string * ResponseData))
    (Habsent : redis w !! historyKeyOf userId = None /\
               redis w !! tokenCountKeyOf userId = None)
    (Hrun : Dialogue E userId w turns w') :
  storedMessages userId w' = exchangesOf turns /\
  length (storedMessages userId w') = (2 * length turns)%nat /\
  storedTokenCount userId w' = totalUsage turns.
Proof.
  assert (Hstart : conversation userId w [] 0)
    by (left; destruct Habsent; auto).
  pose proof (dialogue_conversation _ _ _ _ Hrun Hstart) as Hend.
  assert (Hm : storedMessages userId w' = exchangesOf turns).
  { unfold storedMessages.
    destruct Hend as [(H1 & _ & H3 & _)|(x1 & x2 & H1 & _)]; rewrite H1; auto. }
  split; [exact Hm|]. split.
  - rewrite Hm. apply length_exchangesOf.
  - unfold storedTokenCount.
    destruct Hend as [(_ & H2 & _ & H4)|(x1 & x2 & _ & H2)]; rewrite H2; auto.
Qed.

End Conversation.

(** ** The statements at concrete worlds *)

(** C2 at a first job for the customer whose history write, the sixth
    Redis command of the job, rejects. *)
Lemma update_failure_is_absorbed_witness :
  reachesUpdate (faultAt 5) "hello" customer
    (record (EvConsole LogProcessingMessage) freshWorld)
    sampleCompletion (atUpdate (faultAt 5)) /\
  updateConversationHistory (faultAt 5) customer (turnMessages "hello" sampleCompletion)
    (total_tokens (reply_usage sampleCompletion)) (atUpdate (faultAt 5)) =
    (Throw RedisError, afterUpdate (faultAt 5)) /\
  getAIResponse (faultAt 5) "hello" customer
    (record (EvConsole LogProcessingMessage) freshWorld) =
    (Ok (VResponse fallbackResponse),
     record (EvConsole ErrGettingAIResponse) (afterUpdate (faultAt 5))) /\
  processMessage (faultAt 5) 4 customer "hello" freshWorld =
    match sendWhatsAppMessage (faultAt 5) 4 customer (Some fallbackText) 0
            (record (EvConsole LogGotAIResponse)
                    (record (EvConsole ErrGettingAIResponse) (afterUpdate (faultAt 5)))) with
    | (Ok _, w3) =>
        (Ok {| job_from := customer; job_messageText := "hello";
               job_aiResponse := Some fallbackText;
               job_tokenUsage := Some (resp_usage fallbackResponse) |},
         record (EvConsole LogTokenUsage) (record (EvConsole LogResponseSent) w3))
    | (Throw e', w3) => (Throw e', record (EvConsole ErrProcessingMessage) w3)
    | (Pending, w3) => (Pending, w3)
    end.
Proof.
  assert (H1 : reachesUpdate (faultAt 5) "hello" customer
                 (record (EvConsole LogProcessingMessage) freshWorld)
                 sampleCompletion (atUpdate (faultAt 5))).
  { exists [personaOf "You are a support agent."; userMessageOf "hello"],
      (fileRead (faultAt 5)
         (getConversationHistory (faultAt 5) customer
            (lookupCachedResponse (faultAt 5) (cacheKeyOf "hello") jobStart).2).2).
    split; [|split; reflexivity].
    exists (lookupCachedResponse (faultAt 5) (cacheKeyOf "hello") jobStart).2,
      emptyHistory,
      (getConversationHistory (faultAt 5) customer
         (lookupCachedResponse (faultAt 5) (cacheKeyOf "hello") jobStart).2).2,
      "You are a support agent.", [].
    repeat split; vm_compute; reflexivity. }
  assert (H2 : updateConversationHistory (faultAt 5) customer
                 (turnMessages "hello" sampleCompletion)
                 (total_tokens (reply_usage sampleCompletion)) (atUpdate (faultAt 5)) =
               (Throw RedisError, afterUpdate (faultAt 5))).
  { vm_compute. reflexivity. }
  split; [exact H1|]. split; [exact H2|].
  exact (update_failure_is_absorbed (faultAt 5) customer "hello" freshWorld
           sampleCompletion (atUpdate (faultAt 5)) RedisError (afterUpdate (faultAt 5))
           4 H1 H2).
Defined.

(** C2, as the claim has it, fails: the history write rejects, the
    error is logged by [updateConversationHistory], and the job still
    completes, having delivered the apology. *)
Lemma write_failure_still_delivers :
  let r := processMessage (faultAt 5) 4 customer "hello" freshWorld in
  logged (trace r.2) =
    [LogProcessingMessage; ErrUpdatingHistory; ErrGettingAIResponse;
     LogGotAIResponse; LogMessageSent; LogResponseSent; LogTokenUsage] /\
  r.1 = Ok {| job_from := customer; job_messageText := "hello";
              job_aiResponse := Some fallbackText;
              job_tokenUsage := Some (resp_usage fallbackResponse) |} /\
  map (fun p => (p.1.2, p.2)) (posts (trace r.2)) = [(customer, Some fallbackText)] /\
  storedMessages customer r.2 = [].
Proof. vm_compute. repeat split. Qed.


(** C10 at a cache entry holding a broken JSON text. *)
Lemma corrupt_cache_entry_is_a_miss_witness :
  let w := worldWith {[ cacheKeyOf "hello" := (Raw "{broken", None) ]} in
  redis_fault quietEnv (redisOps w) = false /\
  lookup_live (now w) (cacheKeyOf "hello") (redis w) = Some (Raw "{broken") /\
  JSON_parse_text quietEnv "{broken" = None /\
  logged (trace (record (EvConsole WarnParsingCached) (served quietEnv (redis w) w))) =
    (logged (trace w) ++ [WarnParsingCached])%list /\
  forall v w',
    generateReply quietEnv "hello" customer
      (record (EvConsole WarnParsingCached) (served quietEnv (redis w) w)) = (Ok v, w') ->
    getAIResponse quietEnv "hello" customer w = (Ok v, w') /\
    exists r expiry,
      v = VResponse r /\
      redis w' !! cacheKeyOf "hello" = Some (Json (VResponse r), Some expiry).
Proof.
  intros w.
  assert (H1 : redis_fault quietEnv (redisOps w) = false) by reflexivity.
  assert (H2 : lookup_live (now w) (cacheKeyOf "hello") (redis w) = Some (Raw "{broken"))
    by (vm_compute; reflexivity).
  assert (H3 : JSON_parse_text quietEnv "{broken" = None) by reflexivity.
  split; [exact H1|]. split; [exact H2|]. split; [exact H3|].
  pose proof (corrupt_cache_entry_is_a_miss quietEnv "hello" customer w "{broken"
                H1 H2 H3) as (Hlog & _ & Hok).
  split; [exact Hlog | exact Hok].
Defined.

(** C10, as the claim has it, fails: an empty cached text cannot be
    parsed either, yet no warning is logged for it. *)
Lemma empty_cache_entry_is_skipped_silently :
  let w := worldWith {[ cacheKeyOf "hello" := (Raw "", None) ]} in
  let r := getAIResponse quietEnv "hello" customer w in
  lookup_live (now w) (cacheKeyOf "hello") (redis w) = Some (Raw "") /\
  (JSON_parse quietEnv (Raw "") w).1 = Throw SyntaxError /\
  logged (trace r.2) = [] /\
  r.1 = Ok (VResponse (responseOf sampleCompletion)) /\
  redis r.2 !! cacheKeyOf "hello" =
    Some (Json (VResponse (responseOf sampleCompletion)), Some 3600000).
Proof. vm_compute. repeat split. Qed.

(** C5 at two customers sending the same text a minute apart. *)
Lemma cache_hit_returns_cached_reply_witness :
  getAIResponse_try quietEnv "hello" customer freshWorld =
    (Ok (VResponse (responseOf sampleCompletion)), afterHello) /\
  backendCalls afterHello <> backendCalls freshWorld /\
  now (aMinuteLater afterHello) < 3600 * 1000 /\
  exists w3,
    getAIResponse quietEnv "hello" otherCustomer (aMinuteLater afterHello) =
      (Ok (VResponse (responseOf sampleCompletion)), w3) /\
    redis w3 = redis (aMinuteLater afterHello) /\
    backendCalls w3 = backendCalls (aMinuteLater afterHello) /\
    trace w3 = trace (aMinuteLater afterHello).
Proof.
  assert (H1 : getAIResponse_try quietEnv "hello" customer freshWorld =
               (Ok (VResponse (responseOf sampleCompletion)), afterHello))
    by (vm_compute; reflexivity).
  assert (H2 : backendCalls afterHello <> backendCalls freshWorld)
    by (vm_compute; discriminate).
  assert (H3 : redis (aMinuteLater afterHello) !! cacheKeyOf "hello" =
               redis afterHello !! cacheKeyOf "hello")
    by (vm_compute; reflexivity).
  assert (H4 : forall c expiry,
             redis afterHello !! cacheKeyOf "hello" = Some (c, Some expiry) ->
             now (aMinuteLater afterHello) < expiry).
  { intros c expiry H. vm_compute in H. inversion H. vm_compute. reflexivity. }
  assert (H5 : redis_fault quietEnv (redisOps (aMinuteLater afterHello)) = false)
    by (vm_compute; reflexivity).
  split; [exact H1|]. split; [exact H2|]. split; [vm_compute; reflexivity|].
  exact (proj2 (proj2 (cache_hit_returns_cached_reply quietEnv "hello" customer
                         otherCustomer freshWorld afterHello (aMinuteLater afterHello)
                         _ H1 H2 H3 H4 H5))).
Defined.

(** C6 at two turns of one customer, a minute apart. *)
Lemma dialogue_history_and_tokens_witness :
  (redis freshWorld !! historyKeyOf customer = None /\
   redis freshWorld !! tokenCountKeyOf customer = None) /\
  Dialogue quietEnv customer freshWorld
    [("hello", responseOf sampleCompletion); ("thanks", responseOf sampleCompletion)]
    afterThanks /\
  storedMessages customer afterThanks =
    [userMessageOf "hello";
     {| role := assistant; content := "Hello! How can I help?" |};
     userMessageOf "thanks";
     {| role := assistant; content := "Hello! How can I help?" |}] /\
  length (storedMessages customer afterThanks) = 4%nat /\
  storedTokenCount customer afterThanks = 84.
Proof.
  assert (H0 : redis freshWorld !! historyKeyOf customer = None /\
               redis freshWorld !! tokenCountKeyOf customer = None)
    by (split; vm_compute; reflexivity).
  assert (H1 : completedTurn quietEnv "hello" customer freshWorld
                 (responseOf sampleCompletion) afterHello).
  { split; [vm_compute; reflexivity|]. split; [vm_compute; discriminate|].
    split; [intros n _; vm_compute; reflexivity|].
    intros key c expiry [->| ->] H; vm_compute in H; discriminate. }
  assert (H2 : untouched customer afterHello (aMinuteLater afterHello))
    by (split; vm_compute; reflexivity).
  assert (H3 : completedTurn quietEnv "thanks" customer (aMinuteLater afterHello)
                 (responseOf sampleCompletion) afterThanks).
  { split; [vm_compute; reflexivity|]. split; [vm_compute; discriminate|].
    split; [intros n _; vm_compute; reflexivity|].
    intros key c expiry [->| ->] H; vm_compute in H; inversion H;
      vm_compute; reflexivity. }
  assert (H4 : Dialogue quietEnv customer freshWorld
                 [("hello", responseOf sampleCompletion);
                  ("thanks", responseOf sampleCompletion)] afterThanks).
  { apply (dialogue_turn quietEnv customer freshWorld afterHello (aMinuteLater afterHello)
             afterThanks [("hello", responseOf sampleCompletion)] "thanks"
             (responseOf sampleCompletion)); [|exact H2|exact H3].
    apply (dialogue_turn quietEnv customer freshWorld freshWorld freshWorld afterHello
             [] "hello" (responseOf sampleCompletion)); [| |exact H1].
    - apply dialogue_start.
    - split; reflexivity. }
  split; [exact H0|]. split; [exact H4|].
  exact (dialogue_history_and_tokens quietEnv customer freshWorld afterThanks _ H0 H4).
Defined.

(** C6, as the claim has it, fails twice over. A second turn with the
    text of the first is answered from the cache and appends nothing;
    and a turn whose history read inside [updateConversationHistory]
    rejects writes its two messages over the history. In both runs two
    turns completed with a generated reply and two messages are
    stored, with the usage of one turn. *)
Lemma two_turns_two_messages :
  let first := getAIResponse quietEnv "hello" customer freshWorld in
  let second := getAIResponse quietEnv "hello" customer first.2 in
  let first' := getAIResponse (faultAt 11) "hello" customer freshWorld in
  let second' := getAIResponse (faultAt 11) "thanks" customer first'.2 in
  (first.1 = Ok (VResponse (responseOf sampleCompletion)) /\
   second.1 = Ok (VResponse (responseOf sampleCompletion)) /\
   length (storedMessages customer second.2) = 2%nat /\
   storedTokenCount customer second.2 = 42) /\
  (first'.1 = Ok (VResponse (responseOf sampleCompletion)) /\
   second'.1 = Ok (VResponse (responseOf sampleCompletion)) /\
   backendCalls second'.2 = 2%nat /\
   length (storedMessages customer second'.2) = 2%nat /\
   storedTokenCount customer second'.2 = 42).
Proof. vm_compute. repeat split. Qed.

(** ** The prompt and the token ceiling *)

Lemma length_manyTurns n : length (manyTurns n) = (2 * n)%nat.
Proof. induction n as [|n IH]; simpl; [reflexivity|]. rewrite IH. lia. Qed.

(** On a cache miss with the history read and the persona loaded, the
    backend is asked once, with the persona, every stored message and
    the new message: nothing is dropped. *)
Lemma getAIResponse_prompt (E : Env) userMessage userId w hist scriptContent :
  redis_fault E (redisOps w) = false ->
  redis_fault E (S (redisOps w)) = false ->
  redis_fault E (S (S (redisOps w))) = false ->
  lookup_live (now w) (cacheKeyOf userMessage) (redis w) = None ->
  lookup_live (now (served E (redis w) w)) (historyKeyOf userId) (redis w) =
    Some (Json (VMessages hist)) ->
  readFile_result E (fsReads w) = Some scriptContent ->
  prompts (trace (getAIResponse E userMessage userId w).2) =
    (prompts (trace w) ++
     [personaOf scriptContent :: hist ++ [userMessageOf userMessage]])%list.
Proof.
  intros H0 H1 H2 Hmiss Hhist Hfile.
  assert (Htry : prompts (trace (getAIResponse_try E userMessage userId w).2) =
                 (prompts (trace w) ++
                  [personaOf scriptContent :: hist ++ [userMessageOf userMessage]])%list).
  { unfold getAIResponse_try, bind at 1.
    rewrite lookupCachedResponse_cases, H0, Hmiss.
    pose proof (getConversationHistory_reads E userId (served E (redis w) w) H1 H2) as Hh.
    cbv zeta in Hh.
    change (redis (served E (redis w) w)) with (redis w) in Hh.
    rewrite Hhist in Hh. simpl parsedHistory in Hh.
    rewrite (generateReply_prompt E userMessage userId _ _ _ hist scriptContent Hh).
    - reflexivity.
    - eapply calm_trans; [apply calm_served|].
      apply (calm_served E (served E (redis w) (served E (redis w) w))).
    - reflexivity.
    - exact Hfile. }
  unfold getAIResponse, try_catch.
  destruct (getAIResponse_try E userMessage userId w) as [[v|e|] w2];
    simpl in *; trace_simpl; exact Htry.
Qed.

Lemma crowded_prompt hist :
  prompts (trace (getAIResponse quietEnv "hello" customer (crowdedWorldOf hist)).2) =
    [(personaOf "You are a support agent." :: hist ++ [userMessageOf "hello"])%list].
Proof.
  apply (getAIResponse_prompt quietEnv "hello" customer (crowdedWorldOf hist)
           hist "You are a support agent."); vm_compute; reflexivity.
Qed.

(** C3 fails on the code. With 120000 messages stored for the
    customer, the request sent to the backend carries all of them
    between the persona and the new message: 120002 messages, which is
    more than [MAX_TOKENS] tokens at one token a message. [MAX_TOKENS]
    is read nowhere in [getAIResponse]. *)
Theorem prompt_exceeds_ceiling :
  let sent := prompts (trace (getAIResponse quietEnv "hello" customer crowdedWorld).2) in
  storedMessages customer crowdedWorld = longHistory /\
  length longHistory = Z.to_nat 120000 /\
  sent = [(personaOf "You are a support agent." :: longHistory ++
           [userMessageOf "hello"])%list] /\
  Forall (fun prompt => MAX_TOKENS < promptTokensAtLeast prompt) sent.
Proof.
  assert (Hlen : length longHistory = Z.to_nat 120000).
  { unfold longHistory. rewrite length_manyTurns. lia. }
  assert (Hsent : prompts (trace (getAIResponse quietEnv "hello" customer crowdedWorld).2) =
                  [(personaOf "You are a support agent." :: longHistory ++
                    [userMessageOf "hello"])%list]).
  { exact (crowded_prompt longHistory). }
  cbv zeta. split; [|split; [exact Hlen|split; [exact Hsent|]]].
  - unfold storedMessages, crowdedWorld, crowdedWorldOf, worldWith. simpl redis.
    rewrite lookup_singleton_eq. reflexivity.
  - rewrite Hsent. constructor; [|constructor].
    unfold promptTokensAtLeast, MAX_TOKENS.
    cbn [length]. rewrite length_app, Hlen. cbn [length]. lia.
Qed.

(** ** The development endpoint *)

(** C4 fails on the code. [POST /dev/clear-redis] is routed to the
    handler whatever [NODE_ENV] is, and the handler empties the
    keyspace whenever its command is served; so it does in a process
    run with [NODE_ENV=production], on the keys a delivered reply has
    left. *)
Theorem clear_redis_ignores_mode :
  (forall E NODE_ENV,
     postRoute E NODE_ENV "/dev/clear-redis" = Some (clearRedisHandler E)) /\
  (forall E w,
     redis_fault E (redisOps w) = false ->
     (clearRedisHandler E w).1 = Ok {| resp_status := 200; resp_ok := true |} /\
     redis (clearRedisHandler E w).2 = ∅) /\
  let w := (processMessage quietEnv 4 customer "hello" freshWorld).2 in
  size (redis w) = 4%nat /\
  exists handler,
    postRoute quietEnv (Some "production") "/dev/clear-redis" = Some handler /\
    (handler w).1 = Ok {| resp_status := 200; resp_ok := true |} /\
    redis (handler w).2 = ∅ /\
    last (trace (handler w).2) = Some EvFlushAll.
Proof.
  split; [|split].
  - intros E NODE_ENV. reflexivity.
  - intros E w Hf. unfold clearRedisHandler, try_catch, bind, redis_flushall, bind,
      modify, redis_command. simpl. rewrite Hf. simpl. split; reflexivity.
  - cbv zeta. split; [vm_compute; reflexivity|].
    exists (clearRedisHandler quietEnv). repeat split; vm_compute; reflexivity.
Qed.

(** ** Frames *)

Lemma confined_refl P K w : confined P K w w.
Proof.
  split; [|reflexivity|lia|auto].
  exists []. rewrite app_nil_r. split; [reflexivity|constructor].
Qed.

Lemma confined_trans P K w1 w2 w3 :
  confined P K w1 w2 -> confined P K w2 w3 -> confined P K w1 w3.
Proof.
  intros [(t1 & E1 & F1) K1 N1 C1] [(t2 & E2 & F2) K2 N2 C2]. split.
  - exists (t1 ++ t2)%list. rewrite E2, E1, app_assoc. split; [reflexivity|].
    apply Forall_app. split; assumption.
  - intros key Hk. rewrite K2, K1 by assumption. reflexivity.
  - lia.
  - auto.
Qed.

Lemma confined_record (P : Event -> Prop) K e w : P e -> confined P K w (record e w).
Proof.
  intros He. split; simpl; [|reflexivity|lia|lia].
  exists [e]. split; [reflexivity|]. constructor; [exact He|constructor].
Qed.

Section Frames.

Variable E : Env.
Variable P : Event -> Prop.
Variable K : string -> Prop.

Lemma within_ret {A} (a : A) : within P K (ret a).
Proof. intros w. apply confined_refl. Qed.

Lemma within_throw {A} e : within P K (@throw A e).
Proof. intros w. apply confined_refl. Qed.

Lemma within_pending {A} : within P K (@pending A).
Proof. intros w. apply confined_refl. Qed.

Lemma within_bind {A B} (m : M A) (k : A -> M B) :
  within P K m -> (forall a, within P K (k a)) -> within P K (bind m k).
Proof.
  intros Hm Hk w. unfold bind. specialize (Hm w).
  destruct (m w) as [[a|e|] w1]; simpl in *; auto.
  eapply confined_trans; [exact Hm|apply Hk].
Qed.

Lemma within_try_catch {A} (m : M A) (h : JSError -> M A) :
  within P K m -> (forall e, within P K (h e)) -> within P K (try_catch m h).
Proof.
  intros Hm Hh w. unfold try_catch. specialize (Hm w).
  destruct (m w) as [[a|e|] w1]; simpl in *; auto.
  eapply confined_trans; [exact Hm|apply Hh].
Qed.

Lemma within_console l : P (EvConsole l) -> within P K (console l).
Proof. intros Hl w. apply confined_record, Hl. Qed.

Lemma within_pause d : 0 <= d -> within P K (pause E d).
Proof.
  intros Hd w. split; simpl; [|reflexivity|lia|lia].
  exists []. rewrite app_nil_r. split; [reflexivity|constructor].
Qed.

Lemma within_setTimeout_await site delay :
  P (EvTimer site delay) -> within P K (setTimeout_await E site delay).
Proof.
  intros Ht. unfold setTimeout_await. apply within_bind.
  - intros w. apply confined_record, Ht.
  - intros _. apply within_pause.
    destruct ((delay <? 1) || (2147483647 <? delay)) eqn:Hb; [lia|].
    apply orb_false_elim in Hb as [Hb _]. apply Z.ltb_ge in Hb. lia.
Qed.

Lemma within_redis_command {A}
    (run : Z -> gmap string (RedisString * option Z) ->
           A * gmap string (RedisString * option Z)) :
  (forall t m key, ~ K key -> (run t m).2 !! key = m !! key) ->
  within P K (redis_command E run).
Proof.
  intros Hrun w. unfold redis_command.
  destruct (redis_fault E (redisOps w)).
  - split; simpl; [|reflexivity|lia|lia].
    exists []. rewrite app_nil_r. split; [reflexivity|constructor].
  - specialize (Hrun (now w) (redis w)).
    destruct (run (now w) (redis w)) as [a m]. split; simpl; [|exact Hrun|lia|lia].
    exists []. rewrite app_nil_r. split; [reflexivity|constructor].
Qed.

Lemma within_redis_get key : within P K (redis_get E key).
Proof. apply within_redis_command. reflexivity. Qed.

Lemma within_redis_set key value ex : K key -> within P K (redis_set E key value ex).
Proof.
  intros Hk. apply within_redis_command. intros t m key' Hk'. simpl.
  apply lookup_insert_ne. intros ->. contradiction.
Qed.

Lemma within_redis_expire key seconds : K key -> within P K (redis_expire E key seconds).
Proof.
  intros Hk. apply within_redis_command. intros t m key' Hk'. simpl.
  destruct (lookup_live t key m); [|reflexivity].
  apply lookup_insert_ne. intros ->. contradiction.
Qed.

Lemma within_fs_readFile : within P K (fs_readFile E).
Proof.
  intros w. unfold fs_readFile.
  destruct (readFile_result E (fsReads w)); (split; simpl; [|reflexivity|lia|lia]);
    exists []; rewrite app_nil_r; (split; [reflexivity|constructor]).
Qed.

Lemma within_openai_create msgs : P (EvCreate msgs) -> within P K (openai_create E msgs).
Proof.
  intros Hc w. unfold openai_create.
  destruct (create_result E (backendCalls w) msgs); (split; simpl; [|reflexivity|lia|lia]);
    exists [EvCreate msgs]; (split; [reflexivity|]); (constructor; [exact Hc|constructor]).
Qed.

Lemma within_axios_post to body :
  (forall t, P (EvPost t to body)) -> within P K (axios_post E to body).
Proof.
  intros Hp w. unfold axios_post.
  destruct (post_result E (httpPosts w)); (split; simpl; [|reflexivity|lia|lia]);
    exists [EvPost (now w) to body]; (split; [reflexivity|]);
    (constructor; [apply Hp|constructor]).
Qed.

Lemma within_rate_limit_check : within P K rate_limit_check.
Proof.
  intros w. unfold rate_limit_check.
  destruct (rateLimitCheck_cases (now w) (limiter_of w))
    as [[Hw Hg]|[[Hw [Hx Hg]]|[Hw [Hx Hg]]]]; rewrite Hg;
    (split; simpl; [|reflexivity|lia|lia]);
    exists []; rewrite app_nil_r; (split; [reflexivity|constructor]).
Qed.

Lemma within_JSON_parse c : within P K (JSON_parse E c).
Proof.
  unfold JSON_parse. destruct c as [v|t]; [apply within_ret|].
  destruct (JSON_parse_text E t); [apply within_ret|apply within_throw].
Qed.

Lemma within_spread v : within P K (spread v).
Proof. destruct v; first [apply within_ret|apply within_throw]. Qed.

Lemma within_prop_content v : within P K (prop_content v).
Proof. destruct v; first [apply within_ret|apply within_throw]. Qed.

Lemma within_prop_usage v : within P K (prop_usage v).
Proof. destruct v; first [apply within_ret|apply within_throw]. Qed.

End Frames.

Ltac confine :=
  repeat first
    [ apply within_ret | apply within_throw | apply within_pending
    | apply within_redis_get | apply within_fs_readFile
    | apply within_rate_limit_check | apply within_JSON_parse
    | apply within_spread | apply within_prop_content | apply within_prop_usage
    | apply within_bind; [|intros ?] | apply within_try_catch; [|intros ?]
    | match goal with
      | |- within _ _ (match ?x with _ => _ end) => destruct x
      end ].

(** A computation that records no call of the channel makes none. *)
Lemma confined_posts (P : Event -> Prop) K w w' :
  (forall t to body, ~ P (EvPost t to body)) ->
  confined P K w w' -> posts (trace w') = posts (trace w).
Proof.
  intros Hno [(t & Et & Ft) _ _ _]. rewrite Et, posts_app. clear Et.
  assert (Hnil : posts t = []).
  { induction Ft as [|e t He _ IH]; [reflexivity|].
    destruct e; simpl; try exact IH. exfalso. exact (Hno _ _ _ He). }
  rewrite Hnil. apply app_nil_r.
Qed.

Lemma postsAtMost_quiet {A} (P : Event -> Prop) K (m : M A) :
  (forall t to body, ~ P (EvPost t to body)) -> within P K m -> postsAtMost 0 m.
Proof.
  intros Hno Hm w. rewrite (confined_posts P K w _ Hno (Hm w)). lia.
Qed.

Lemma postsAtMost_le {A} (n n' : nat) (m : M A) :
  (n <= n')%nat -> postsAtMost n m -> postsAtMost n' m.
Proof. intros Hle Hm w. specialize (Hm w). lia. Qed.

Lemma postsAtMost_bind {A B} (n1 n2 : nat) (m : M A) (k : A -> M B) :
  postsAtMost n1 m -> (forall a, postsAtMost n2 (k a)) ->
  postsAtMost (n1 + n2) (bind m k).
Proof.
  intros Hm Hk w. unfold bind. specialize (Hm w).
  destruct (m w) as [[a|e|] w1]; simpl in *; try lia.
  specialize (Hk a w1). lia.
Qed.

Lemma postsAtMost_try_catch {A} (n1 n2 : nat) (m : M A) (h : JSError -> M A) :
  postsAtMost n1 m -> (forall e, postsAtMost n2 (h e)) ->
  postsAtMost (n1 + n2) (try_catch m h).
Proof.
  intros Hm Hh w. unfold try_catch. specialize (Hm w).
  destruct (m w) as [[a|e|] w1]; simpl in *; try lia.
  specialize (Hh e w1). lia.
Qed.

Lemma noPost_no t to body : ~ noPost (EvPost t to body).
Proof. intros H. exact H. Qed.

Lemma replyEvent_no t to body : ~ replyEvent (EvPost t to body).
Proof. intros H. exact H. Qed.

Lemma history_key_inj userId userId' :
  historyKeyOf userId = historyKeyOf userId' -> userId = userId'.
Proof. unfold historyKeyOf. simpl. intros H. injection H. auto. Qed.

Lemma count_key_inj userId userId' :
  tokenCountKeyOf userId = tokenCountKeyOf userId' -> userId = userId'.
Proof. unfold tokenCountKeyOf. simpl. intros H. injection H. auto. Qed.

Lemma history_key_not_last userId to : historyKeyOf userId <> lastMessageKeyOf to.
Proof. unfold historyKeyOf, lastMessageKeyOf. simpl. discriminate. Qed.

Lemma count_key_not_last userId to : tokenCountKeyOf userId <> lastMessageKeyOf to.
Proof. unfold tokenCountKeyOf, lastMessageKeyOf. simpl. discriminate. Qed.

Section Confinement.

Variable E : Env.

Section Reply.

Variable P : Event -> Prop.
Variable K : string -> Prop.
Hypothesis P_console : forall l, P (EvConsole l).
Hypothesis P_create : forall msgs, P (EvCreate msgs).

Lemma within_getConversationHistory userId : within P K (getConversationHistory E userId).
Proof.
  unfold getConversationHistory.
  apply within_try_catch; [confine|intros ?].
  apply within_bind; [apply within_console, P_console|intros ?; confine].
Qed.

Lemma within_loadSupportScript : within P K (loadSupportScript E).
Proof.
  unfold loadSupportScript.
  apply within_try_catch; [confine|intros ?].
  apply within_bind; [apply within_console, P_console|intros ?; confine].
Qed.

Lemma within_updateConversationHistory userId newMessages tokenUsage :
  K (historyKeyOf userId) -> K (tokenCountKeyOf userId) ->
  within P K (updateConversationHistory E userId newMessages tokenUsage).
Proof.
  intros Kh Kt. unfold updateConversationHistory.
  apply within_try_catch.
  - apply within_bind; [apply within_getConversationHistory|intros ?].
    apply within_bind; [confine|intros ?].
    apply within_bind; [apply within_redis_set, Kh|intros ?].
    apply within_bind; [apply within_redis_set, Kt|intros ?]. confine.
  - intros ?. apply within_bind; [apply within_console, P_console|intros ?; confine].
Qed.

Lemma within_lookupCachedResponse key : within P K (lookupCachedResponse E key).
Proof.
  unfold lookupCachedResponse.
  apply within_bind; [confine|intros [c|]; [|confine]].
  destruct (truthy c); [|confine].
  apply within_try_catch; [confine|intros ?].
  apply within_bind; [apply within_console, P_console|intros ?; confine].
Qed.

Lemma within_generateReply userMessage userId :
  K (historyKeyOf userId) -> K (tokenCountKeyOf userId) -> K (cacheKeyOf userMessage) ->
  within P K (generateReply E userMessage userId).
Proof.
  intros Kh Kt Kc. unfold generateReply.
  apply within_bind; [apply within_getConversationHistory|intros ?].
  apply within_bind; [apply within_loadSupportScript|intros ?].
  apply within_bind; [confine|intros ?].
  apply within_bind; [apply within_openai_create, P_create|intros ?].
  apply within_bind; [apply within_updateConversationHistory; assumption|intros ?].
  apply within_bind; [apply within_redis_set, Kc|intros ?]. confine.
Qed.

Lemma within_getAIResponse userMessage userId :
  K (historyKeyOf userId) -> K (tokenCountKeyOf userId) -> K (cacheKeyOf userMessage) ->
  within P K (getAIResponse E userMessage userId).
Proof.
  intros Kh Kt Kc. unfold getAIResponse, getAIResponse_try.
  apply within_try_catch.
  - apply within_bind; [apply within_lookupCachedResponse|intros [parsed|]; [confine|]].
    apply within_generateReply; assumption.
  - intros ?. apply within_bind; [apply within_console, P_console|intros ?; confine].
Qed.

End Reply.

Section Send.

Variable P : Event -> Prop.
Variable K : string -> Prop.
Variable to : string.
Variable message : option string.
Hypothesis P_console : forall l, P (EvConsole l).
Hypothesis P_timer : forall site delay, P (EvTimer site delay).
Hypothesis P_post : forall t, P (EvPost t to message).
Hypothesis K_last : K (lastMessageKeyOf to).

Lemma within_sendOnce self retryCount :
  (forall rc, within P K (self to message rc)) ->
  within P K (sendOnce E self to message retryCount).
Proof.
  intros Hself. unfold sendOnce.
  apply within_bind; [apply within_rate_limit_check|intros [|delayMs]].
  - apply within_try_catch.
    + apply within_bind; [apply within_axios_post, P_post|intros ?].
      apply within_bind; [apply within_redis_set, K_last|intros ?].
      apply within_bind; [apply within_redis_expire, K_last|intros ?].
      apply within_bind; [apply within_console, P_console|intros ?]. confine.
    + intros error. destruct (decide _).
      * apply within_bind; [apply within_console, P_console|intros ?; confine].
      * apply within_bind; [apply within_console, P_console|intros ?].
        destruct (_ && _); [|confine].
        apply within_bind; [apply within_setTimeout_await, P_timer|intros ?].
        apply Hself.
  - apply within_bind; [apply within_setTimeout_await, P_timer|intros ?].
    apply Hself.
Qed.

Lemma within_sendWhatsAppMessage budget :
  forall retryCount, within P K (sendWhatsAppMessage E budget to message retryCount).
Proof.
  induction budget as [|budget IH]; intros retryCount; simpl.
  - apply within_pending.
  - apply within_sendOnce. exact IH.
Qed.

End Send.

Lemma postsAtMost_sendOnce self to message retryCount :
  (forall rc, postsAtMost (S (3 - rc)) (self to message rc)) ->
  postsAtMost (S (3 - retryCount)) (sendOnce E self to message retryCount).
Proof.
  intros Hself. unfold sendOnce.
  assert (Hquiet : forall A (m : M A), within noPost (fun _ => True) m -> postsAtMost 0 m).
  { intros A m. apply postsAtMost_quiet. exact noPost_no. }
  apply (postsAtMost_bind 0 (S (3 - retryCount))).
  { apply Hquiet, within_rate_limit_check. }
  intros [|delayMs].
  - apply (postsAtMost_try_catch 1 (3 - retryCount)).
    + apply (postsAtMost_bind 1 0).
      * intros w. unfold axios_post.
        destruct (post_result E (httpPosts w)); simpl; rewrite posts_app, length_app;
          simpl; lia.
      * intros ?. apply Hquiet.
        apply within_bind; [apply within_redis_set; exact I|intros ?].
        apply within_bind; [apply within_redis_expire; exact I|intros ?].
        apply within_bind; [apply within_console; exact I|intros ?]. confine.
    + intros error. destruct (decide _).
      * apply (postsAtMost_le 0); [lia|]. apply Hquiet.
        apply within_bind; [apply within_console; exact I|intros ?; confine].
      * apply (postsAtMost_bind 0 (3 - retryCount)).
        { apply Hquiet, within_console. exact I. }
        intros ?. destruct (retryCount <? 3)%nat eqn:Hrc; simpl.
        2: { apply (postsAtMost_le 0); [lia|]. apply Hquiet. confine. }
        apply Nat.ltb_lt in Hrc.
        destruct (status_ge_500 error).
        2: { apply (postsAtMost_le 0); [lia|]. apply Hquiet. confine. }
        apply (postsAtMost_bind 0 (3 - retryCount)).
        { apply Hquiet, within_setTimeout_await. exact I. }
        intros ?. replace (3 - retryCount)%nat with (S (3 - S retryCount)) by lia.
        apply Hself.
  - apply (postsAtMost_bind 0 (S (3 - retryCount))).
    { apply Hquiet, within_setTimeout_await. exact I. }
    intros ?. apply Hself.
Qed.

Lemma postsAtMost_sendWhatsAppMessage budget to message :
  forall retryCount,
    postsAtMost (S (3 - retryCount)) (sendWhatsAppMessage E budget to message retryCount).
Proof.
  induction budget as [|budget IH]; intros retryCount; simpl.
  - intros w. simpl. lia.
  - apply postsAtMost_sendOnce. exact IH.
Qed.

End Confinement.


(** ** Delivery, leg by leg *)

Section Legs.

Variable E : Env.

Lemma leg_refl w : windowStart w <= now w -> leg w w [] [] [].
Proof. intros H. split; rewrite ?app_nil_r; simpl; auto; lia. Qed.

Lemma leg_trans w1 w2 w3 a1 a2 d1 d2 l1 l2 :
  leg w1 w2 a1 d1 l1 -> leg w2 w3 a2 d2 l2 ->
  leg w1 w3 (a1 ++ a2) (d1 ++ d2) (l1 ++ l2).
Proof.
  intros [P1 D1 L1 H1 R1 O1 C1 N1] [P2 D2 L2 H2 R2 O2 C2 N2]. split.
  - rewrite P2, P1, app_assoc. reflexivity.
  - rewrite D2, D1, app_assoc. reflexivity.
  - rewrite L2, L1, app_assoc. reflexivity.
  - rewrite H2, H1, length_app. lia.
  - congruence.
  - congruence.
  - assumption.
  - lia.
Qed.

Lemma timer_delay d :
  1 <= (if (d <? 1) || (2147483647 <? d) then 1 else d).
Proof.
  destruct ((d <? 1) || (2147483647 <? d)) eqn:Hb; [lia|].
  apply orb_false_elim in Hb as [Hb _]. apply Z.ltb_ge in Hb. lia.
Qed.

(** The world in which a call held by the limiter checks again. *)
Lemma sendOnce_waits w :
  windowStart w <= now w ->
  now w - windowStart w <= MESSAGE_WINDOW_MS ->
  MAX_MESSAGES_PER_WINDOW <= messagesSentInWindow w ->
  exists w',
    leg w w' [] [] [] /\
    windowStart w' = windowStart w /\
    messagesSentInWindow w' = messagesSentInWindow w /\
    now w + Z.max 1 (MESSAGE_WINDOW_MS - (now w - windowStart w)) <= now w' /\
    forall self to m rc, sendOnce E self to m rc w = self to m rc w'.
Proof.
  intros Hc Hw Hs.
  exists (setTimeout_await E RateLimitWait
            (MESSAGE_WINDOW_MS - (now w - windowStart w)) w).2.
  assert (Hd : forall d, d <= 1000 -> ((d <? 1) || (2147483647 <? d)) = (d <? 1)).
  { intros d Hd. destruct (Z.ltb_spec 2147483647 d); [lia|]. apply orb_false_r. }
  split; [|split; [|split; [|split]]].
  5: { intros. unfold sendOnce, bind at 1, rate_limit_check.
       rewrite (rateLimitCheck_exhausted (now w) (limiter_of w) Hw Hs).
       destruct w; reflexivity. }
  all: destruct w as [t sn st rd ro fr bc hp aw tr]; simpl in *;
    unfold MESSAGE_WINDOW_MS in *; try reflexivity.
  - pose proof (timer_delay (1000 - (t - st))).
    split; simpl; trace_simpl; auto; lia.
  - rewrite Hd by lia. destruct (Z.ltb_spec (1000 - (t - st)) 1); lia.
Qed.

(** A call gets past the limiter after two waits at most. *)
Lemma past_limiter w :
  windowStart w <= now w ->
  exists j w1, (j <= 2)%nat /\ leg w w1 [] [] [] /\ limiterOpen w1 /\
    forall n to m rc,
      sendWhatsAppMessage E (j + S n) to m rc w =
      sendOnce E (sendWhatsAppMessage E n) to m rc w1.
Proof.
  intros Hc. unfold limiterOpen.
  destruct (Z_gt_le_dec (now w - windowStart w) MESSAGE_WINDOW_MS) as [Ho|Hw].
  { exists 0%nat, w. split; [lia|]. split; [apply leg_refl; assumption|].
    split; [left; assumption | intros; reflexivity]. }
  destruct (Z_lt_le_dec (messagesSentInWindow w) MAX_MESSAGES_PER_WINDOW) as [Ho|Hs].
  { exists 0%nat, w. split; [lia|]. split; [apply leg_refl; assumption|].
    split; [right; assumption | intros; reflexivity]. }
  destruct (sendOnce_waits w Hc Hw Hs) as (w1 & St1 & Hws1 & Hsn1 & Hn1 & Heq1).
  pose proof (leg_clock _ _ _ _ _ St1) as Hc1.
  destruct (Z_gt_le_dec (now w1 - windowStart w1) MESSAGE_WINDOW_MS) as [Ho1|Hw1].
  { exists 1%nat, w1. split; [lia|]. split; [assumption|].
    split; [left; assumption | intros; simpl; apply Heq1]. }
  assert (Hs1 : MAX_MESSAGES_PER_WINDOW <= messagesSentInWindow w1) by lia.
  destruct (sendOnce_waits w1 Hc1 Hw1 Hs1) as (w2 & St2 & Hws2 & Hsn2 & Hn2 & Heq2).
  exists 2%nat, w2. split; [lia|]. split; [|split].
  - apply (leg_trans _ _ _ [] [] [] [] [] [] St1 St2).
  - left. unfold MESSAGE_WINDOW_MS in *. lia.
  - intros. simpl. rewrite Heq1. simpl. apply Heq2.
Qed.

(** Past the limiter, a call is the attempt and its [catch]. *)
Lemma sendOnce_open self to m rc w :
  limiterOpen w ->
  sendOnce E self to m rc w =
    try_catch
      (let* data := axios_post E to m in
       do* redis_set E ("last_message:" +:+ to) (String_of_arg m) None in
       do* redis_expire E ("last_message:" +:+ to) 3600 in
       do* console LogMessageSent in
       ret data)
      (fun error =>
         if decide (error_code_of error = Some 131030) then
           do* console ErrRecipientNotAllowed in
           throw (RecipientNotAuthorized to)
         else
           do* console ErrSendingMessage in
           if (rc <? 3)%nat && status_ge_500 error then
             do* setTimeout_await E RetryBackoff (2 ^ Z.of_nat rc * 1000) in
             self to m (S rc)
           else
             throw error)
      (afterCheck w).
Proof.
  intros Hopen. unfold sendOnce, bind at 1, rate_limit_check, afterCheck.
  destruct (rateLimitCheck_cases (now w) (limiter_of w))
    as [[Hw Hg]|[[Hw [Hx Hg]]|[Hw [Hx Hg]]]]; rewrite Hg; try reflexivity.
  unfold limiterOpen in Hopen. simpl in *. lia.
Qed.

Lemma afterCheck_leg w :
  windowStart w <= now w -> leg w (afterCheck w) [] [] [].
Proof.
  intros Hc. unfold afterCheck.
  destruct (rateLimitCheck_cases (now w) (limiter_of w))
    as [[Hw Hg]|[[Hw [Hx Hg]]|[Hw [Hx Hg]]]]; rewrite Hg;
    split; simpl; rewrite ?app_nil_r; auto; lia.
Qed.

End Legs.


Ltac leg_split :=
  split; simpl in *; trace_simpl; rewrite <- ?app_assoc; simpl; auto; try lia.

Section Attempts.

Variable E : Env.

(** The channel refuses the recipient: the call rejects at once with
    an error of its own. *)
Lemma attempt_refused to m rc w :
  limiterOpen w -> windowStart w <= now w ->
  refused (post_result E (httpPosts w)) ->
  exists w', leg w w' [(to, m)] [] [ErrRecipientNotAllowed] /\
    forall self, sendOnce E self to m rc w = (Throw (RecipientNotAuthorized to), w').
Proof.
  intros Hopen Hc (r & Hpost & Hcode).
  pose proof (afterCheck_leg w Hc) as La. pose proof (leg_clock _ _ _ _ _ La) as Hca.
  eexists. split; cycle 1.
  - intros self. rewrite (sendOnce_open E self to m rc w Hopen).
    unfold try_catch, bind at 1, axios_post. simpl. rewrite Hpost. simpl.
    rewrite decide_True by exact Hcode. reflexivity.
  - apply (leg_trans _ _ _ [] _ [] _ [] _ La). leg_split.
Qed.

(** A failure that is not retried: the call rejects with it. *)
Lemma attempt_rejected to m rc w o :
  limiterOpen w -> windowStart w <= now w ->
  post_result E (httpPosts w) = HttpFail o ->
  error_code_of (AxiosError o) <> Some 131030 ->
  (rc <? 3)%nat && status_ge_500 (AxiosError o) = false ->
  exists w', leg w w' [(to, m)] [] [ErrSendingMessage] /\
    forall self, sendOnce E self to m rc w = (Throw (AxiosError o), w').
Proof.
  intros Hopen Hc Hpost Hcode Hno.
  pose proof (afterCheck_leg w Hc) as La. pose proof (leg_clock _ _ _ _ _ La) as Hca.
  eexists. split; cycle 1.
  - intros self. rewrite (sendOnce_open E self to m rc w Hopen).
    unfold try_catch, bind at 1, axios_post. simpl. rewrite Hpost. simpl.
    rewrite decide_False by exact Hcode.
    unfold bind at 1. simpl. rewrite Hno. reflexivity.
  - apply (leg_trans _ _ _ [] _ [] _ [] _ La). leg_split.
Qed.

(** A failure that is retried: the call waits and starts again with
    one retry more. *)
Lemma attempt_retried to m rc w :
  limiterOpen w -> windowStart w <= now w ->
  retryable (post_result E (httpPosts w)) -> (rc < 3)%nat ->
  exists w', leg w w' [(to, m)] [2 ^ Z.of_nat rc * 1000] [ErrSendingMessage] /\
    forall self, sendOnce E self to m rc w = self to m (S rc) w'.
Proof.
  intros Hopen Hc (r & Hpost & Hst & Hcode) Hrc.
  pose proof (afterCheck_leg w Hc) as La. pose proof (leg_clock _ _ _ _ _ La) as Hca.
  assert (Hge : status_ge_500 (AxiosError (Some r)) = true).
  { unfold status_ge_500. simpl. destruct (Z.geb_spec (status r) 500); [reflexivity|lia]. }
  apply Nat.ltb_lt in Hrc.
  eexists. split; cycle 1.
  - intros self. rewrite (sendOnce_open E self to m rc w Hopen).
    unfold try_catch, bind at 1, axios_post. simpl. rewrite Hpost. simpl.
    rewrite decide_False by exact Hcode.
    unfold bind at 1. simpl. rewrite Hrc, Hge. simpl. reflexivity.
  - apply (leg_trans _ _ _ [] _ [] _ [] _ La).
    pose proof (timer_delay (2 ^ Z.of_nat rc * 1000)). leg_split.
Qed.

(** The channel takes the message and the two commands that record it
    are served. *)
Lemma attempt_delivered to m rc w data :
  limiterOpen w -> windowStart w <= now w ->
  post_result E (httpPosts w) = HttpOk data ->
  redis_fault E (redisOps w) = false ->
  redis_fault E (S (redisOps w)) = false ->
  exists w' t,
    (forall self, sendOnce E self to m rc w = (Ok data, w')) /\
    map (fun p => (p.1.2, p.2)) (posts (trace w')) =
      (map (fun p => (p.1.2, p.2)) (posts (trace w)) ++ [(to, m)])%list /\
    backoffDelays (trace w') = backoffDelays (trace w) /\
    logged (trace w') = (logged (trace w) ++ [LogMessageSent])%list /\
    now w <= t <= now w' /\
    redis w' = <[lastMessageKeyOf to := (String_of_arg m, Some (t + 3600 * 1000))]> (redis w).
Proof.
  intros Hopen Hc Hpost Hf1 Hf2.
  eexists _, (now w + 0 + Z.of_N (latency E (awaits w)) + 0 +
              Z.of_N (latency E (S (awaits w)))).
  split.
  - intros self. rewrite (sendOnce_open E self to m rc w Hopen).
    unfold try_catch, bind at 1, axios_post. simpl. rewrite Hpost. simpl.
    unfold bind at 1, redis_set, redis_command. simpl. rewrite Hf1. simpl.
    unfold bind at 1, redis_expire, redis_command. simpl. rewrite Hf2. simpl.
    unfold lookup_live. rewrite lookup_insert_eq. simpl. reflexivity.
  - simpl. trace_simpl.
    split; [reflexivity|]. split; [reflexivity|]. split; [reflexivity|].
    split; [lia|]. rewrite insert_insert_eq. reflexivity.
Qed.

(** The channel takes the message and a command that records it
    rejects: the call rejects, without a retry. *)
Lemma attempt_unrecorded to m rc w data :
  limiterOpen w -> windowStart w <= now w ->
  post_result E (httpPosts w) = HttpOk data ->
  redis_fault E (redisOps w) = true \/ redis_fault E (S (redisOps w)) = true ->
  exists w',
    (forall self, sendOnce E self to m rc w = (Throw RedisError, w')) /\
    map (fun p => (p.1.2, p.2)) (posts (trace w')) =
      (map (fun p => (p.1.2, p.2)) (posts (trace w)) ++ [(to, m)])%list /\
    backoffDelays (trace w') = backoffDelays (trace w) /\
    logged (trace w') = (logged (trace w) ++ [ErrSendingMessage])%list /\
    redis w' = if redis_fault E (redisOps w) then redis w
               else <[lastMessageKeyOf to := (String_of_arg m, None)]> (redis w).
Proof.
  intros Hopen Hc Hpost Hf.
  destruct (redis_fault E (redisOps w)) eqn:Hf1.
  - eexists. split.
    + intros self. rewrite (sendOnce_open E self to m rc w Hopen).
      unfold try_catch, bind at 1, axios_post. simpl. rewrite Hpost. simpl.
      unfold bind at 1, redis_set, redis_command. simpl. rewrite Hf1. simpl.
      rewrite andb_false_r. reflexivity.
    + simpl. trace_simpl. auto.
  - destruct Hf as [Hf|Hf2]; [discriminate|].
    eexists. split.
    + intros self. rewrite (sendOnce_open E self to m rc w Hopen).
      unfold try_catch, bind at 1, axios_post. simpl. rewrite Hpost. simpl.
      unfold bind at 1, redis_set, redis_command. simpl. rewrite Hf1. simpl.
      unfold bind at 1, redis_expire, redis_command. simpl. rewrite Hf2. simpl.
      rewrite andb_false_r. reflexivity.
    + simpl. trace_simpl. auto.
Qed.

End Attempts.


Section Deliveries.

Variable E : Env.

(** From a world whose clock is not behind the window, a call with a
    budget of three reaches its first attempt. *)
Lemma first_attempt to m rc w budget :
  windowStart w <= now w -> (3 <= budget)%nat ->
  exists w1, leg w w1 [] [] [] /\ limiterOpen w1 /\
    forall r w',
      r <> Pending ->
      (forall self, sendOnce E self to m rc w1 = (r, w')) ->
      sendWhatsAppMessage E budget to m rc w = (r, w').
Proof.
  intros Hc Hb.
  destruct (past_limiter E w Hc) as (j & w1 & Hj & L1 & Hopen & Heq).
  exists w1. split; [exact L1|]. split; [exact Hopen|].
  intros r w' Hr Hrun.
  replace budget with ((j + 1) + (budget - (j + 1)))%nat by lia.
  assert (Hn : sendWhatsAppMessage E (j + 1) to m rc w = (r, w')).
  { rewrite Heq. apply Hrun. }
  rewrite send_budget_mono; [exact Hn|]. rewrite Hn. exact Hr.
Qed.

(** What one attempt past the limiter comes to: a result that does not
    depend on the calls to come, or a retry. *)
Lemma attempt_cases to m rc w :
  limiterOpen w -> windowStart w <= now w ->
  (exists r w',
     (forall self, sendOnce E self to m rc w = (r, w')) /\
     ((exists data, r = Ok data) \/ r = Throw (RecipientNotAuthorized to) \/
      (exists o, r = Throw (AxiosError o)) \/ r = Throw RedisError)) \/
  ((rc < 3)%nat /\
   exists w', windowStart w' <= now w' /\
     forall self, sendOnce E self to m rc w = self to m (S rc) w').
Proof.
  intros Hopen Hc.
  destruct (post_result E (httpPosts w)) as [data|o] eqn:Hpost.
  - left. destruct (redis_fault E (redisOps w)) eqn:Hf1.
    { destruct (attempt_unrecorded E to m rc w data Hopen Hc Hpost (or_introl Hf1))
        as (w' & Hrun & _). exists (Throw RedisError), w'.
      split; [exact Hrun|]. right; right; right; reflexivity. }
    destruct (redis_fault E (S (redisOps w))) eqn:Hf2.
    { destruct (attempt_unrecorded E to m rc w data Hopen Hc Hpost (or_intror Hf2))
        as (w' & Hrun & _). exists (Throw RedisError), w'.
      split; [exact Hrun|]. right; right; right; reflexivity. }
    destruct (attempt_delivered E to m rc w data Hopen Hc Hpost Hf1 Hf2)
      as (w' & t & Hrun & _). exists (Ok data), w'.
    split; [exact Hrun|]. left. exists data. reflexivity.
  - destruct (decide (error_code_of (AxiosError o) = Some 131030)) as [Hcode|Hcode].
    { left. assert (Hr : refused (post_result E (httpPosts w))).
      { rewrite Hpost. destruct o as [r|]; [|discriminate]. exists r. auto. }
      destruct (attempt_refused E to m rc w Hopen Hc Hr) as (w' & _ & Hrun).
      exists (Throw (RecipientNotAuthorized to)), w'.
      split; [exact Hrun|]. right; left; reflexivity. }
    destruct ((rc <? 3)%nat && status_ge_500 (AxiosError o)) eqn:Hretry.
    + right. apply andb_true_iff in Hretry as [Hrc Hge].
      apply Nat.ltb_lt in Hrc. split; [exact Hrc|].
      assert (Hr : retryable (post_result E (httpPosts w))).
      { rewrite Hpost. destruct o as [r|]; [|discriminate].
        exists r. split; [reflexivity|].
        unfold status_ge_500 in Hge. simpl in Hge, Hcode.
        apply Z.geb_le in Hge. split; [lia|exact Hcode]. }
      destruct (attempt_retried E to m rc w Hopen Hc Hr Hrc) as (w' & L & Heq).
      exists w'. split; [exact (leg_clock _ _ _ _ _ L)|exact Heq].
    + left. destruct (attempt_rejected E to m rc w o Hopen Hc Hpost Hcode Hretry)
        as (w' & _ & Hrun).
      exists (Throw (AxiosError o)), w'.
      split; [exact Hrun|]. right; right; left. exists o. reflexivity.
Qed.

Lemma send_settles_within d : forall rc w n to m,
  (3 - rc <= d)%nat -> windowStart w <= now w -> (3 * S d <= n)%nat ->
  exists r w',
    sendWhatsAppMessage E n to m rc w = (r, w') /\
    ((exists data, r = Ok data) \/ r = Throw (RecipientNotAuthorized to) \/
     (exists o, r = Throw (AxiosError o)) \/ r = Throw RedisError).
Proof.
  induction d as [|d IH]; intros rc w n to m Hd Hc Hn.
  - destruct (past_limiter E w Hc) as (j & w1 & Hj & L1 & Hopen & Heq).
    destruct (attempt_cases to m rc w1 Hopen (leg_clock _ _ _ _ _ L1))
      as [(r & w' & Hrun & Hr)|(Hrc & _)]; [|lia].
    exists r, w'. split; [|exact Hr].
    replace n with ((j + 1) + (n - (j + 1)))%nat by lia.
    assert (Hrun' : sendWhatsAppMessage E (j + 1) to m rc w = (r, w')).
    { rewrite Heq. apply Hrun. }
    rewrite send_budget_mono; [exact Hrun'|]. rewrite Hrun'.
    destruct Hr as [(? & ->)|[->|[(? & ->)| ->]]]; discriminate.
  - destruct (past_limiter E w Hc) as (j & w1 & Hj & L1 & Hopen & Heq).
    destruct (attempt_cases to m rc w1 Hopen (leg_clock _ _ _ _ _ L1))
      as [(r & w' & Hrun & Hr)|(Hrc & w2 & Hc2 & Hrun)].
    + exists r, w'. split; [|exact Hr].
      replace n with ((j + 1) + (n - (j + 1)))%nat by lia.
      assert (Hrun' : sendWhatsAppMessage E (j + 1) to m rc w = (r, w')).
      { rewrite Heq. apply Hrun. }
      rewrite send_budget_mono; [exact Hrun'|]. rewrite Hrun'.
      destruct Hr as [(? & ->)|[->|[(? & ->)| ->]]]; discriminate.
    + destruct (IH (S rc) w2 (3 * S d)%nat to m ltac:(lia) Hc2 ltac:(lia))
        as (r & w' & Hrec & Hr).
      exists r, w'. split; [|exact Hr].
      replace n with ((j + S (3 * S d)) + (n - (j + S (3 * S d))))%nat by lia.
      assert (Hrun' : sendWhatsAppMessage E (j + S (3 * S d)) to m rc w = (r, w')).
      { rewrite Heq, Hrun. exact Hrec. }
      rewrite send_budget_mono; [exact Hrun'|]. rewrite Hrun'.
      destruct Hr as [(? & ->)|[->|[(? & ->)| ->]]]; discriminate.
Qed.

(** After [k] failures that are retried the channel takes the
    message. *)
Lemma send_recovers_in k : forall rc w to m data,
  windowStart w <= now w -> (rc + k <= 3)%nat ->
  (forall i, (i < k)%nat -> retryable (post_result E (httpPosts w + i))) ->
  post_result E (httpPosts w + k) = HttpOk data ->
  redis_fault E (redisOps w) = false ->
  redis_fault E (S (redisOps w)) = false ->
  exists n w' t, (n <= 3 * S k)%nat /\
    sendWhatsAppMessage E n to m rc w = (Ok data, w') /\
    map (fun p => (p.1.2, p.2)) (posts (trace w')) =
      (map (fun p => (p.1.2, p.2)) (posts (trace w)) ++ repeat (to, m) (S k))%list /\
    backoffDelays (trace w') = (backoffDelays (trace w) ++ backoffsFrom rc k)%list /\
    now w <= t <= now w' /\
    redis w' = <[lastMessageKeyOf to := (String_of_arg m, Some (t + 3600 * 1000))]> (redis w).
Proof.
  induction k as [|k IH]; intros rc w to m data Hc Hk Hfail Hok Hf1 Hf2.
  - destruct (past_limiter E w Hc) as (j & w1 & Hj & L1 & Hopen & Heq).
    destruct L1 as [P1 D1 _ H1 R1 O1 C1 N1].
    simpl in H1. rewrite Nat.add_0_r in *. rewrite app_nil_r in *.
    destruct (attempt_delivered E to m rc w1 data Hopen C1)
      as (w' & t & Hrun & Hp & Hd & _ & Ht & Hr); try (rewrite ?H1, ?O1; assumption).
    exists (j + 1)%nat, w', t. split; [lia|]. split; [rewrite Heq; apply Hrun|].
    rewrite Hp, Hd, P1, D1, Hr, R1. unfold backoffsFrom. simpl. rewrite ?app_nil_r.
    repeat split; auto; lia.
  - destruct (past_limiter E w Hc) as (j & w1 & Hj & L1 & Hopen & Heq).
    pose proof (leg_httpPosts _ _ _ _ _ L1) as H1. simpl in H1. rewrite Nat.add_0_r in H1.
    assert (Hr1 : retryable (post_result E (httpPosts w1))).
    { rewrite H1. specialize (Hfail 0%nat ltac:(lia)). rewrite Nat.add_0_r in Hfail.
      exact Hfail. }
    destruct (attempt_retried E to m rc w1 Hopen (leg_clock _ _ _ _ _ L1) Hr1 ltac:(lia))
      as (w2 & L2 & Hrun).
    pose proof (leg_trans _ _ _ _ _ _ _ _ _ L1 L2) as [P2 D2 _ H2 R2 O2 C2 N2].
    simpl in *.
    destruct (IH (S rc) w2 to m data C2 ltac:(lia)) as (n & w' & t & Hn & Hrec & Hp & Hd & Ht & Hr).
    { intros i Hi. rewrite H2. replace (httpPosts w + 1 + i)%nat with (httpPosts w + S i)%nat by lia.
      apply Hfail. lia. }
    { rewrite H2. replace (httpPosts w + 1 + k)%nat with (httpPosts w + S k)%nat by lia.
      exact Hok. }
    { rewrite O2. exact Hf1. }
    { rewrite O2. exact Hf2. }
    exists (j + S n)%nat, w', t. split; [lia|]. split; [rewrite Heq, Hrun; exact Hrec|].
    rewrite Hp, Hd, P2, D2, Hr, R2. unfold backoffsFrom. simpl.
    rewrite <- !app_assoc. simpl. repeat split; auto; lia.
Qed.

End Deliveries.


(** ** The conversation store, write by write *)

Section Writes.

Variable E : Env.

(** What a fulfilled [updateConversationHistory] returns and stores. *)
Lemma updateConversationHistory_fulfilled userId newMessages tokenUsage w h' w' :
  updateConversationHistory E userId newMessages tokenUsage w = (Ok h', w') ->
  exists h w1 old x1 x2,
    getConversationHistory E userId w = (Ok h, w1) /\
    messages h = VMessages old /\
    h' = {| messages := VMessages (old ++ newMessages);
            tokenCount := jsnum_add (tokenCount h) (Int tokenUsage) |} /\
    redis w' = <[tokenCountKeyOf userId := (String_of_jsnum (tokenCount h'), Some x2)]>
                 (<[historyKeyOf userId := (Json (messages h'), Some x1)]> (redis w)) /\
    now w + CONVERSATION_TTL * 1000 <= x1 /\ x1 <= x2 /\
    x2 <= now w' + CONVERSATION_TTL * 1000 /\ now w <= now w'.
Proof.
  intros Hu.
  destruct (updateConversationHistory_Ok_inv E _ _ _ _ _ _ Hu)
    as (h & w1 & old & Hh & Hm & Hf1 & Hf2 & Hw'). cbv zeta in Hw'.
  destruct (getConversationHistory_total E userId w) as (h0 & w0 & Hh0 & Hc & _).
  rewrite Hh in Hh0. inversion Hh0; subst h0 w0. clear Hh0.
  assert (Hh' : h' = {| messages := VMessages (old ++ newMessages);
                        tokenCount := jsnum_add (tokenCount h) (Int tokenUsage) |}).
  { revert Hu. unfold updateConversationHistory, try_catch, bind at 1. rewrite Hh.
    unfold bind at 1. rewrite Hm. simpl spread. unfold ret at 1. cbv iota beta.
    unfold bind at 1. rewrite (redis_set_ok E _ _ _ _ Hf1).
    unfold bind at 1. rewrite redis_set_ok by exact Hf2.
    intros Heq. inversion Heq. reflexivity. }
  exists h, w1, old, (now w1 + CONVERSATION_TTL * 1000),
    (now (served E (<[historyKeyOf userId :=
                       (Json (VMessages (old ++ newMessages)),
                        Some (now w1 + CONVERSATION_TTL * 1000))]> (redis w1)) w1)
     + CONVERSATION_TTL * 1000).
  pose proof (calm_now _ _ Hc) as Hn. pose proof (calm_redis _ _ Hc) as Hr.
  split; [exact Hh|]. split; [exact Hm|]. split; [exact Hh'|].
  subst w' h'. simpl. rewrite Hr. split; [reflexivity|]. lia.
Qed.

(** The history write is served and the count write rejects. *)
Lemma updateConversationHistory_half userId newMessages tokenUsage w h w1 old :
  getConversationHistory E userId w = (Ok h, w1) ->
  messages h = VMessages old ->
  redis_fault E (redisOps w1) = false ->
  redis_fault E (S (redisOps w1)) = true ->
  exists we x,
    updateConversationHistory E userId newMessages tokenUsage w = (Throw RedisError, we) /\
    redis we = <[historyKeyOf userId :=
                  (Json (VMessages (old ++ newMessages)), Some x)]> (redis w) /\
    exists earlier, logged (trace we) = (earlier ++ [ErrUpdatingHistory])%list.
Proof.
  intros Hh Hm Hf1 Hf2.
  destruct (getConversationHistory_total E userId w) as (h0 & w0 & Hh0 & Hc & _).
  rewrite Hh in Hh0. inversion Hh0; subst h0 w0. clear Hh0.
  unfold updateConversationHistory, try_catch, bind at 1. rewrite Hh.
  unfold bind at 1. rewrite Hm. simpl spread. unfold ret at 1. cbv iota beta.
  unfold bind at 1. rewrite (redis_set_ok E _ _ _ _ Hf1).
  unfold bind at 1. rewrite redis_set_fault by exact Hf2. simpl.
  eexists _, _. split; [reflexivity|]. simpl. rewrite (calm_redis _ _ Hc).
  split; [reflexivity|]. trace_simpl. eauto.
Qed.

(** A reply generation that rejects leaves the cache entry of its text
    as it was. *)
Lemma generateReply_rejected userMessage userId w e w' :
  generateReply E userMessage userId w = (Throw e, w') ->
  redis w' !! cacheKeyOf userMessage = redis w !! cacheKeyOf userMessage.
Proof.
  unfold generateReply, bind at 1.
  destruct (getConversationHistory_total E userId w) as (h & wb & Hh & Hc & _).
  rewrite Hh. unfold bind at 1. rewrite loadSupportScript_cases.
  pose proof (calm_redis _ _ Hc) as Hr.
  destruct (readFile_result E (fsReads wb)) as [scriptContent|].
  2: { intros Heq. inversion Heq. simpl. rewrite Hr. reflexivity. }
  unfold bind at 1.
  destruct (messages h) as [| |hm|]; simpl spread;
    try (unfold throw; intros Heq; inversion Heq; simpl; rewrite Hr; reflexivity).
  unfold ret at 1. cbv iota beta.
  unfold bind at 1. rewrite openai_create_cases.
  destruct (create_result E _ _) as [c|].
  2: { intros Heq. inversion Heq. simpl. rewrite Hr. reflexivity. }
  unfold bind at 1.
  match goal with |- context [updateConversationHistory E ?u ?n ?k ?w0] =>
    pose proof (within_updateConversationHistory E (fun _ => True)
                  (fun key => key = historyKeyOf u \/ key = tokenCountKeyOf u)
                  (fun _ => I) u n k (or_introl eq_refl) (or_intror eq_refl) w0) as Hup;
    destruct (updateConversationHistory E u n k w0) as [[h'|e'|] we] end.
  3: discriminate.
  all: pose proof (cf_keys _ _ _ _ Hup (cacheKeyOf userMessage)) as Hk;
    simpl in Hk; rewrite Hr in Hk;
    assert (Hkeep : redis we !! cacheKeyOf userMessage = redis w !! cacheKeyOf userMessage)
      by (apply Hk; intros [Hx|Hx]; symmetry in Hx;
          [exact (history_key_not_cache _ _ Hx)|exact (count_key_not_cache _ _ Hx)]).
  - unfold bind at 1.
    destruct (redis_fault E (redisOps we)) eqn:Hf.
    + rewrite redis_set_fault by exact Hf. intros Heq. inversion Heq. simpl. exact Hkeep.
    + rewrite (redis_set_ok E _ _ _ _ Hf). discriminate.
  - intros Heq. inversion Heq. subst. exact Hkeep.
Qed.

End Writes.

(** ** The webhook *)

Lemma member_present p v : member p v = None <-> present v = false.
Proof. destruct v; simpl; split; intros H; try discriminate; reflexivity. Qed.

Lemma member_Some_present p v x : member p v = Some x -> present v = true.
Proof. destruct v; simpl; intros H; try discriminate; reflexivity. Qed.

(** A message that has a [from] to read has a text to test. *)
Lemma messageTextOf_present message :
  present message = true -> exists t, messageTextOf message = Some t.
Proof.
  unfold messageTextOf. intros Hp.
  destruct (member p_text message) as [text|] eqn:Ht.
  - destruct text; simpl; eauto.
  - apply member_present in Ht. rewrite Ht in Hp. discriminate.
Qed.

Section Webhook.

Variable Q : QueueEnv.

Lemma webhookJob_widen s1 u1 s2 u2 j :
  s2 <= s1 -> u1 <= u2 -> webhookJob s1 u1 j -> webhookJob s2 u2 j.
Proof. intros Hs Hu (H1 & H2 & H3 & H4). repeat split; auto; lia. Qed.

Lemma enqueued_nothing h : enqueued [] h (Done, h).
Proof.
  exists [], []. simpl. rewrite app_nil_r.
  split; [reflexivity|]. split; [reflexivity|]. split; [reflexivity|].
  split; [constructor|lia].
Qed.

Lemma enqueued_thrown expected e h : enqueued expected h (Thrown e, h).
Proof.
  exists [], expected. simpl. rewrite app_nil_r.
  split; [reflexivity|]. split; [reflexivity|]. split; [discriminate|].
  split; [constructor|lia].
Qed.

Lemma enqueued_then e1 e2 h h1 r :
  enqueued e1 h (Done, h1) -> enqueued e2 h1 r -> enqueued (e1 ++ e2) h r.
Proof.
  intros (js1 & rest1 & Hq1 & He1 & Hd1 & Hj1 & Hn1) (js2 & rest2 & Hq2 & He2 & Hd2 & Hj2 & Hn2).
  simpl in *. rewrite (Hd1 eq_refl), app_nil_r in He1. subst e1 e2.
  exists (js1 ++ js2)%list, rest2.
  split; [rewrite Hq2, Hq1, app_assoc; reflexivity|].
  split; [rewrite map_app, app_assoc; reflexivity|].
  split; [exact Hd2|]. split; [|lia].
  apply Forall_app. split.
  - eapply Forall_impl; [exact Hj1|]. intros j. apply webhookJob_widen; lia.
  - eapply Forall_impl; [exact Hj2|]. intros j. apply webhookJob_widen; lia.
Qed.

Lemma enqueued_cut e1 e2 h e h1 :
  enqueued e1 h (Thrown e, h1) -> enqueued (e1 ++ e2) h (Thrown e, h1).
Proof.
  intros (js1 & rest1 & Hq1 & He1 & Hd1 & Hj1 & Hn1). simpl in *. subst e1.
  exists js1, (rest1 ++ e2)%list.
  split; [exact Hq1|]. split; [rewrite app_assoc; reflexivity|].
  split; [discriminate|]. split; [exact Hj1|exact Hn1].
Qed.

Lemma enqueued_step e1 e2 h (r1 : Flow * Hook) (next : Hook -> Flow * Hook) :
  enqueued e1 h r1 ->
  (forall h1, enqueued e2 h1 (next h1)) ->
  enqueued (e1 ++ e2) h
    (match r1 with
     | (Done, h1) => next h1
     | (Thrown e, h1) => (Thrown e, h1)
     end).
Proof.
  intros H1 H2. destruct r1 as [[|e] h1].
  - apply (enqueued_then _ _ _ _ _ H1 (H2 h1)).
  - apply (enqueued_cut _ _ _ _ _ H1).
Qed.

Lemma enqueued_add from messageText h :
  truthyValue messageText = true ->
  enqueued [(from, messageText)] h
    (messageQueue_add Q "process_message" from messageText (hook_now h)
       webhookJobOptions (hook_log (LogAddingToQueue from messageText) h)).
Proof.
  intros Ht. unfold messageQueue_add. simpl.
  pose proof (N2Z.is_nonneg (add_latency Q (hook_adds h))) as Hl.
  destruct (add_fault Q (hook_adds h)).
  - exists [], [(from, messageText)]. simpl. rewrite app_nil_r.
    split; [reflexivity|]. split; [reflexivity|]. split; [discriminate|].
    split; [constructor|lia].
  - eexists [_], []. simpl.
    split; [reflexivity|]. split; [reflexivity|]. split; [reflexivity|].
    split; [|lia]. constructor; [|constructor].
    repeat split; simpl; try lia. exact Ht.
Qed.

Lemma enqueued_forMessages l : forall h,
  enqueued (flat_map textsOfMessage l) h (forMessages Q l h).
Proof.
  induction l as [|message l IH]; intros h; simpl.
  - apply enqueued_nothing.
  - unfold textsOfMessage at 1.
    destruct (member p_from message) as [from|]; [|apply enqueued_thrown].
    destruct (messageTextOf message) as [messageText|]; [|apply enqueued_thrown].
    destruct (truthyValue messageText) eqn:Ht; [|apply IH].
    apply (enqueued_step [_] _ _ _ _ (enqueued_add from messageText h Ht) IH).
Qed.

Lemma enqueued_forChange change h :
  enqueued (textsOfChange change) h (forChange Q change h).
Proof.
  unfold textsOfChange, forChange.
  destruct (member p_value change) as [value|]; [|apply enqueued_thrown].
  destruct (member p_messages value) as [messages|]; [|apply enqueued_thrown].
  destruct (truthyValue messages); [|apply enqueued_nothing].
  destruct (iterate messages) as [l|]; simpl; [|apply enqueued_thrown].
  apply enqueued_forMessages.
Qed.

Lemma enqueued_forChanges l : forall h,
  enqueued (flat_map textsOfChange l) h (forChanges Q l h).
Proof.
  induction l as [|change l IH]; intros h; simpl.
  - apply enqueued_nothing.
  - apply (enqueued_step _ _ _ _ _ (enqueued_forChange change h) IH).
Qed.

Lemma enqueued_forEntries l : forall h,
  enqueued (flat_map textsOfEntry l) h (forEntries Q l h).
Proof.
  induction l as [|entry l IH]; intros h; simpl.
  - apply enqueued_nothing.
  - apply enqueued_step; [|exact IH].
    unfold textsOfEntry.
    destruct (member p_changes entry) as [changes|]; [|apply enqueued_thrown].
    destruct (iterate changes) as [l'|]; simpl; [|apply enqueued_thrown].
    apply enqueued_forChanges.
Qed.

(** On a queue that takes every job, a loop is interrupted only by
    a part of the payload that is not there to be read. *)
Hypothesis Hqueue : forall n, add_fault Q n = false.

Lemma forMessages_flow l : forall h,
  (forMessages Q l h).1 = if forallb present l then Done else Thrown TypeError.
Proof.
  induction l as [|message l IH]; intros h; simpl; [reflexivity|].
  destruct (member p_from message) as [from|] eqn:Hf.
  - pose proof (member_Some_present _ _ _ Hf) as Hp. rewrite Hp. simpl.
    destruct (messageTextOf_present message Hp) as (t & ->).
    destruct (truthyValue t); [|apply IH].
    unfold messageQueue_add. rewrite Hqueue. apply IH.
  - apply member_present in Hf. rewrite Hf. reflexivity.
Qed.

Lemma forChange_flow change h :
  (forChange Q change h).1 = if completeChange change then Done else Thrown TypeError.
Proof.
  unfold forChange, completeChange.
  destruct (member p_value change) as [value|]; [|reflexivity].
  destruct (member p_messages value) as [messages|]; [|reflexivity].
  destruct (truthyValue messages); [|reflexivity].
  destruct (iterate messages) as [l|]; [|reflexivity].
  apply forMessages_flow.
Qed.

Lemma forChanges_flow l : forall h,
  (forChanges Q l h).1 = if forallb completeChange l then Done else Thrown TypeError.
Proof.
  induction l as [|change l IH]; intros h; simpl; [reflexivity|].
  pose proof (forChange_flow change h) as Hc.
  destruct (forChange Q change h) as [[|e] h1]; simpl in Hc;
    destruct (completeChange change); try discriminate; simpl.
  - apply IH.
  - exact Hc.
Qed.

Lemma forEntries_flow l : forall h,
  (forEntries Q l h).1 = if forallb completeEntry l then Done else Thrown TypeError.
Proof.
  induction l as [|entry l IH]; intros h; simpl; [reflexivity|].
  unfold completeEntry at 1.
  destruct (member p_changes entry) as [changes|]; [|reflexivity].
  destruct (iterate changes) as [l'|]; [|reflexivity].
  pose proof (forChanges_flow l' h) as Hc.
  destruct (forChanges Q l' h) as [[|e] h1]; simpl in Hc;
    destruct (forallb completeChange l'); try discriminate; simpl.
  - apply IH.
  - exact Hc.
Qed.

End Webhook.


(** ** Delivery: the outcomes of [sendWhatsAppMessage] *)

(** X1. When the channel fails [k] times with an error that is retried
    and then takes the message ([k] at most three less the retries
    already made; [k = 0] is a delivery at the first attempt),
    [sendWhatsAppMessage] fulfils with the data of the channel after
    [k + 1] calls for the same recipient and body, with the waits
    1000 * 2^retryCount, ... between them, and leaves the message under
    [last_message:<to>] with an expiry 3600 s after the [expire]
    command. *)
Theorem delivery_after_retries (E : Env) (to : string) (m : option string)
    (retryCount k : nat) (w : World) (data : string) (budget : nat)
    (Hclock : windowStart w <= now w)
    (Hk : (retryCount + k <= 3)%nat)
    (Hfail : forall i, (i < k)%nat -> retryable (post_result E (httpPosts w + i)))
    (Hok : post_result E (httpPosts w + k) = HttpOk data)
    (Hset : redis_fault E (redisOps w) = false)
    (Hexpire : redis_fault E (S (redisOps w)) = false)
    (Hbudget : (3 * S k <= budget)%nat) :
  exists w' t,
    sendWhatsAppMessage E budget to m retryCount w = (Ok data, w') /\
    map (fun p => (p.1.2, p.2)) (posts (trace w')) =
      (map (fun p => (p.1.2, p.2)) (posts (trace w)) ++ repeat (to, m) (S k))%list /\
    backoffDelays (trace w') = (backoffDelays (trace w) ++ backoffsFrom retryCount k)%list /\
    now w <= t <= now w' /\
    redis w' = <[lastMessageKeyOf to := (String_of_arg m, Some (t + 3600 * 1000))]> (redis w).
Proof.
  destruct (send_recovers_in E k retryCount w to m data Hclock Hk Hfail Hok Hset Hexpire)
    as (n & w' & t & Hn & Hrun & Hrest).
  exists w', t. split; [|exact Hrest].
  replace budget with (n + (budget - n))%nat by lia.
  rewrite send_budget_mono; [exact Hrun|]. rewrite Hrun. discriminate.
Qed.

(** X1 at a channel that answers 503 twice and then takes the
    message. *)
Lemma delivery_after_retries_witness :
  windowStart freshWorld <= now freshWorld /\
  (0 + 2 <= 3)%nat /\
  (forall i, (i < 2)%nat -> retryable (post_result flaky (httpPosts freshWorld + i))) /\
  post_result flaky (httpPosts freshWorld + 2) = HttpOk "ack" /\
  redis_fault flaky (redisOps freshWorld) = false /\
  redis_fault flaky (S (redisOps freshWorld)) = false /\
  (3 * 3 <= 9)%nat /\
  exists w' t,
    sendWhatsAppMessage flaky 9 customer (Some "hello") 0 freshWorld = (Ok "ack", w') /\
    map (fun p => (p.1.2, p.2)) (posts (trace w')) =
      (map (fun p => (p.1.2, p.2)) (posts (trace freshWorld)) ++
       repeat (customer, Some "hello") 3)%list /\
    backoffDelays (trace w') = (backoffDelays (trace freshWorld) ++ backoffsFrom 0 2)%list /\
    now freshWorld <= t <= now w' /\
    redis w' = <[lastMessageKeyOf customer :=
                  (String_of_arg (Some "hello"), Some (t + 3600 * 1000))]>
                 (redis freshWorld).
Proof.
  assert (H1 : windowStart freshWorld <= now freshWorld) by (simpl; lia).
  assert (H2 : (0 + 2 <= 3)%nat) by lia.
  assert (H3 : forall i, (i < 2)%nat ->
                 retryable (post_result flaky (httpPosts freshWorld + i))).
  { intros i Hi. destruct i as [|[|i]]; [| |lia];
      (eexists; split; [reflexivity|]; simpl; split; [lia|discriminate]). }
  assert (H4 : post_result flaky (httpPosts freshWorld + 2) = HttpOk "ack") by reflexivity.
  assert (H5 : redis_fault flaky (redisOps freshWorld) = false) by reflexivity.
  assert (H6 : redis_fault flaky (S (redisOps freshWorld)) = false) by reflexivity.
  assert (H7 : (3 * 3 <= 9)%nat) by lia.
  split; [exact H1|]. split; [exact H2|]. split; [exact H3|]. split; [exact H4|].
  split; [exact H5|]. split; [exact H6|]. split; [exact H7|].
  exact (delivery_after_retries flaky customer (Some "hello") 0 2 freshWorld "ack" 9
           H1 H2 H3 H4 H5 H6 H7).
Defined.

(** X2. When the channel refuses the recipient (error code 131030),
    whatever the status of the response and the count of retries,
    [sendWhatsAppMessage] rejects with an error of its own after that
    one call: it logs the refusal, waits for no retry and leaves the
    keyspace alone. *)
Theorem refused_recipient_is_final (E : Env) (to : string) (m : option string)
    (retryCount : nat) (w : World) (budget : nat)
    (Hclock : windowStart w <= now w)
    (Hrefused : refused (post_result E (httpPosts w)))
    (Hbudget : (3 <= budget)%nat) :
  exists w',
    sendWhatsAppMessage E budget to m retryCount w =
      (Throw (RecipientNotAuthorized to), w') /\
    leg w w' [(to, m)] [] [ErrRecipientNotAllowed].
Proof.
  destruct (first_attempt E to m retryCount w budget Hclock Hbudget)
    as (w1 & L1 & Hopen & Hrun).
  assert (Hr1 : refused (post_result E (httpPosts w1))).
  { rewrite (leg_httpPosts _ _ _ _ _ L1). simpl. rewrite Nat.add_0_r. exact Hrefused. }
  destruct (attempt_refused E to m retryCount w1 Hopen (leg_clock _ _ _ _ _ L1) Hr1)
    as (w' & L2 & Heq).
  exists w'. split; [|exact (leg_trans _ _ _ [] _ [] _ [] _ L1 L2)].
  apply Hrun; [discriminate|exact Heq].
Qed.

(** X2 at a channel that refuses every recipient with a status of
    400. *)
Lemma refused_recipient_is_final_witness :
  windowStart freshWorld <= now freshWorld /\
  refused (post_result refusing (httpPosts freshWorld)) /\
  (3 <= 3)%nat /\
  exists w',
    sendWhatsAppMessage refusing 3 customer (Some "hello") 0 freshWorld =
      (Throw (RecipientNotAuthorized customer), w') /\
    leg freshWorld w' [(customer, Some "hello")] [] [ErrRecipientNotAllowed].
Proof.
  assert (H1 : windowStart freshWorld <= now freshWorld) by (simpl; lia).
  assert (H2 : refused (post_result refusing (httpPosts freshWorld))).
  { eexists. split; reflexivity. }
  assert (H3 : (3 <= 3)%nat) by lia.
  split; [exact H1|]. split; [exact H2|]. split; [exact H3|].
  exact (refused_recipient_is_final refusing customer (Some "hello") 0 freshWorld 3
           H1 H2 H3).
Defined.

(** X3. When the call of the channel fails without a response, or
    with a response whose status is below 500, and the recipient is
    not refused, [sendWhatsAppMessage] rejects with that same error
    after the one call, whatever the count of retries: it logs the
    error, waits for no retry and leaves the keyspace alone. *)
Theorem unretried_failure_is_rethrown (E : Env) (to : string) (m : option string)
    (retryCount : nat) (w : World) (budget : nat)
    (Hclock : windowStart w <= now w)
    (Hfinal : final (post_result E (httpPosts w)))
    (Hbudget : (3 <= budget)%nat) :
  exists o w',
    post_result E (httpPosts w) = HttpFail o /\
    sendWhatsAppMessage E budget to m retryCount w = (Throw (AxiosError o), w') /\
    leg w w' [(to, m)] [] [ErrSendingMessage].
Proof.
  destruct (first_attempt E to m retryCount w budget Hclock Hbudget)
    as (w1 & L1 & Hopen & Hrun).
  pose proof (leg_httpPosts _ _ _ _ _ L1) as H1. simpl in H1. rewrite Nat.add_0_r in H1.
  assert (Hcase : exists o, post_result E (httpPosts w) = HttpFail o /\
            error_code_of (AxiosError o) <> Some 131030 /\
            (retryCount <? 3)%nat && status_ge_500 (AxiosError o) = false).
  { destruct Hfinal as [Hnone|(r & Hsome & Hst & Hcode)].
    - exists None. split; [exact Hnone|]. split; [discriminate|apply andb_false_r].
    - exists (Some r). split; [exact Hsome|]. split; [exact Hcode|].
      unfold status_ge_500. simpl.
      destruct (Z.geb_spec (status r) 500); [lia|apply andb_false_r]. }
  destruct Hcase as (o & Hpost & Hcode & Hno).
  rewrite <- H1 in Hpost.
  destruct (attempt_rejected E to m retryCount w1 o Hopen (leg_clock _ _ _ _ _ L1)
              Hpost Hcode Hno) as (w' & L2 & Heq).
  exists o, w'. rewrite H1 in Hpost. split; [exact Hpost|].
  split; [|exact (leg_trans _ _ _ [] _ [] _ [] _ L1 L2)].
  apply Hrun; [discriminate|exact Heq].
Qed.

(** X3 at a channel that answers 400. *)
Lemma unretried_failure_is_rethrown_witness :
  windowStart freshWorld <= now freshWorld /\
  final (post_result badRequest (httpPosts freshWorld)) /\
  (3 <= 3)%nat /\
  exists o w',
    post_result badRequest (httpPosts freshWorld) = HttpFail o /\
    sendWhatsAppMessage badRequest 3 customer (Some "hello") 0 freshWorld =
      (Throw (AxiosError o), w') /\
    leg freshWorld w' [(customer, Some "hello")] [] [ErrSendingMessage].
Proof.
  assert (H1 : windowStart freshWorld <= now freshWorld) by (simpl; lia).
  assert (H2 : final (post_result badRequest (httpPosts freshWorld))).
  { right. eexists. split; [reflexivity|]. simpl. split; [lia|discriminate]. }
  assert (H3 : (3 <= 3)%nat) by lia.
  split; [exact H1|]. split; [exact H2|]. split; [exact H3|].
  exact (unretried_failure_is_rethrown badRequest customer (Some "hello") 0 freshWorld 3
           H1 H2 H3).
Defined.

(** X4. When the channel takes the message and one of the two
    commands that record it rejects, [sendWhatsAppMessage] rejects
    with the error of the store although the message has been sent:
    the channel was called once, there is no retry, and when it is the
    [expire] that rejects the message stays under [last_message:<to>]
    without an expiry. *)
Theorem unrecorded_delivery_rejects (E : Env) (to : string) (m : option string)
    (retryCount : nat) (w : World) (data : string) (budget : nat)
    (Hclock : windowStart w <= now w)
    (Hok : post_result E (httpPosts w) = HttpOk data)
    (Hfault : redis_fault E (redisOps w) = true \/
              redis_fault E (S (redisOps w)) = true)
    (Hbudget : (3 <= budget)%nat) :
  exists w',
    sendWhatsAppMessage E budget to m retryCount w = (Throw RedisError, w') /\
    map (fun p => (p.1.2, p.2)) (posts (trace w')) =
      (map (fun p => (p.1.2, p.2)) (posts (trace w)) ++ [(to, m)])%list /\
    backoffDelays (trace w') = backoffDelays (trace w) /\
    redis w' = if redis_fault E (redisOps w) then redis w
               else <[lastMessageKeyOf to := (String_of_arg m, None)]> (redis w).
Proof.
  destruct (first_attempt E to m retryCount w budget Hclock Hbudget)
    as (w1 & [P1 D1 _ H1 R1 O1 C1 N1] & Hopen & Hrun).
  simpl in H1. rewrite Nat.add_0_r in H1. rewrite app_nil_r in P1, D1.
  rewrite <- H1 in Hok. rewrite <- O1 in Hfault.
  destruct (attempt_unrecorded E to m retryCount w1 data Hopen C1 Hok Hfault)
    as (w' & Heq & Hp & Hd & _ & Hr).
  exists w'. split; [apply Hrun; [discriminate|exact Heq]|].
  rewrite Hp, Hd, Hr, P1, D1, R1, O1. auto.
Qed.

(** X4 at a store whose first command rejects. *)
Lemma unrecorded_delivery_rejects_witness :
  windowStart freshWorld <= now freshWorld /\
  post_result (faultAt 0) (httpPosts freshWorld) = HttpOk "ack" /\
  (redis_fault (faultAt 0) (redisOps freshWorld) = true \/
   redis_fault (faultAt 0) (S (redisOps freshWorld)) = true) /\
  (3 <= 3)%nat /\
  exists w',
    sendWhatsAppMessage (faultAt 0) 3 customer (Some "hello") 0 freshWorld =
      (Throw RedisError, w') /\
    map (fun p => (p.1.2, p.2)) (posts (trace w')) =
      (map (fun p => (p.1.2, p.2)) (posts (trace freshWorld)) ++
       [(customer, Some "hello")])%list /\
    backoffDelays (trace w') = backoffDelays (trace freshWorld) /\
    redis w' = if redis_fault (faultAt 0) (redisOps freshWorld) then redis freshWorld
               else <[lastMessageKeyOf customer := (String_of_arg (Some "hello"), None)]>
                      (redis freshWorld).
Proof.
  assert (H1 : windowStart freshWorld <= now freshWorld) by (simpl; lia).
  assert (H2 : post_result (faultAt 0) (httpPosts freshWorld) = HttpOk "ack")
    by reflexivity.
  assert (H3 : redis_fault (faultAt 0) (redisOps freshWorld) = true \/
               redis_fault (faultAt 0) (S (redisOps freshWorld)) = true)
    by (left; reflexivity).
  assert (H4 : (3 <= 3)%nat) by lia.
  split; [exact H1|]. split; [exact H2|]. split; [exact H3|]. split; [exact H4|].
  exact (unrecorded_delivery_rejects (faultAt 0) customer (Some "hello") 0 freshWorld
           "ack" 3 H1 H2 H3 H4).
Defined.

(** X5. Whatever the channel and the store do, a call of
    [sendWhatsAppMessage] made when the clock is not behind the window
    start settles within twelve activations: it fulfils with the data
    of the channel, or rejects with the error for a refused recipient,
    with the error of a call of the channel, or with the error of the
    store. *)
Theorem delivery_settles (E : Env) (to : string) (m : option string)
    (retryCount : nat) (w : World) (budget : nat)
    (Hclock : windowStart w <= now w)
    (Hbudget : (12 <= budget)%nat) :
  exists r w',
    sendWhatsAppMessage E budget to m retryCount w = (r, w') /\
    ((exists data, r = Ok data) \/ r = Throw (RecipientNotAuthorized to) \/
     (exists o, r = Throw (AxiosError o)) \/ r = Throw RedisError).
Proof.
  apply (send_settles_within E 3); [lia|exact Hclock|lia].
Qed.

(** X5 at a channel that is down. *)
Lemma delivery_settles_witness :
  windowStart freshWorld <= now freshWorld /\
  (12 <= 12)%nat /\
  exists r w',
    sendWhatsAppMessage serverDown 12 customer (Some "hello") 0 freshWorld = (r, w') /\
    ((exists data, r = Ok data) \/ r = Throw (RecipientNotAuthorized customer) \/
     (exists o, r = Throw (AxiosError o)) \/ r = Throw RedisError).
Proof.
  assert (H1 : windowStart freshWorld <= now freshWorld) by (simpl; lia).
  assert (H2 : (12 <= 12)%nat) by lia.
  split; [exact H1|]. split; [exact H2|].
  exact (delivery_settles serverDown customer (Some "hello") 0 freshWorld 12 H1 H2).
Defined.

(** X6. In every world and every environment, and whatever its
    outcome, a call of [sendWhatsAppMessage] records nothing but
    console lines, timers and calls of the channel for its own
    recipient and body; it calls the channel four times at most, less
    the retries already made (and once at least allowed); and it
    writes to no key but [last_message:<to>]. *)
Theorem delivery_is_confined (E : Env) (budget : nat) (to : string)
    (m : option string) (retryCount : nat) (w : World) :
  let w' := (sendWhatsAppMessage E budget to m retryCount w).2 in
  exists t,
    trace w' = (trace w ++ t)%list /\
    Forall (deliveryEvent to m) t /\
    (length (posts t) <= S (3 - retryCount))%nat /\
    forall key, key <> lastMessageKeyOf to -> redis w' !! key = redis w !! key.
Proof.
  intros w'.
  pose proof (within_sendWhatsAppMessage E (deliveryEvent to m)
                (fun key => key = lastMessageKeyOf to) to m
                (fun _ => I) (fun _ _ => I) (fun _ => conj eq_refl eq_refl) eq_refl
                budget retryCount w) as [(t & Ht & Hall) Hkeys _ _].
  pose proof (postsAtMost_sendWhatsAppMessage E budget to m retryCount w) as Hn.
  fold w' in Ht, Hkeys, Hn.
  exists t. split; [exact Ht|]. split; [exact Hall|]. split; [|exact Hkeys].
  rewrite Ht, posts_app, length_app in Hn. lia.
Qed.


(** ** The conversation store: round trip and partial writes *)

(** X7. What a fulfilled [updateConversationHistory] returns is what
    it has stored: both keys hold it with an expiry of
    [CONVERSATION_TTL] seconds counted from the write, whatever expiry
    they had; and as long as the two keys are left alone, a
    [getConversationHistory] whose reads are served before that expiry
    returns that same history and count. *)
Theorem history_write_then_read (E : Env) (userId : string)
    (newMessages : list Message) (tokenUsage : Z) (w w' w2 : World) (h' : History)
    (Hwrite : updateConversationHistory E userId newMessages tokenUsage w = (Ok h', w'))
    (Hcount : tokenCount h' <> NaN)
    (Hkept : untouched userId w' w2)
    (Hread1 : redis_fault E (redisOps w2) = false)
    (Hread2 : redis_fault E (S (redisOps w2)) = false)
    (Hsoon : now (served E (redis w2) w2) < now w + CONVERSATION_TTL * 1000) :
  (exists x1 x2,
     redis w' !! historyKeyOf userId = Some (Json (messages h'), Some x1) /\
     redis w' !! tokenCountKeyOf userId =
       Some (String_of_jsnum (tokenCount h'), Some x2) /\
     now w + CONVERSATION_TTL * 1000 <= x1 /\ x1 <= x2 /\
     x2 <= now w' + CONVERSATION_TTL * 1000) /\
  getConversationHistory E userId w2 =
    (Ok h', served E (redis w2) (served E (redis w2) w2)).
Proof.
  destruct (updateConversationHistory_fulfilled E _ _ _ _ _ _ Hwrite)
    as (h & w1 & old & x1 & x2 & Hh & Hm & Hh' & Hr & Hx1 & Hx12 & Hx2 & Hn).
  assert (Hhk : redis w' !! historyKeyOf userId = Some (Json (messages h'), Some x1)).
  { rewrite Hr. rewrite lookup_insert_ne by (apply not_eq_sym, history_key_not_count).
    apply lookup_insert_eq. }
  assert (Htk : redis w' !! tokenCountKeyOf userId =
                Some (String_of_jsnum (tokenCount h'), Some x2)).
  { rewrite Hr. apply lookup_insert_eq. }
  split; [exists x1, x2; auto|].
  destruct Hkept as [Kh Kt]. clear Hh' Hr Hwrite.
  destruct h' as [ms cnt]. simpl in Hhk, Htk, Hcount.
  destruct cnt as [n|]; [|contradiction].
  rewrite (getConversationHistory_reads E userId w2 Hread1 Hread2). cbv zeta.
  unfold lookup_live. rewrite Kh, Kt, Hhk, Htk. unfold live. simpl in *.
  destruct (Z.ltb_spec (now w2) x1) as [_|Hge]; [|lia].
  destruct (Z.ltb_spec (now w2 + 0 + Z.of_N (latency E (awaits w2))) x2) as [_|Hge]; [|lia].
  reflexivity.
Qed.

(** X7 at the first exchange of the customer, read back at once. *)
Lemma history_write_then_read_witness :
  updateConversationHistory quietEnv customer (turnMessages "hello" sampleCompletion)
    42 freshWorld =
    (Ok {| messages := VMessages (turnMessages "hello" sampleCompletion);
           tokenCount := Int 42 |}, helloStored) /\
  Int 42 <> NaN /\
  untouched customer helloStored helloStored /\
  redis_fault quietEnv (redisOps helloStored) = false /\
  redis_fault quietEnv (S (redisOps helloStored)) = false /\
  now (served quietEnv (redis helloStored) helloStored) <
    now freshWorld + CONVERSATION_TTL * 1000 /\
  getConversationHistory quietEnv customer helloStored =
    (Ok {| messages := VMessages (turnMessages "hello" sampleCompletion);
           tokenCount := Int 42 |},
     served quietEnv (redis helloStored)
       (served quietEnv (redis helloStored) helloStored)).
Proof.
  assert (H1 : updateConversationHistory quietEnv customer
                 (turnMessages "hello" sampleCompletion) 42 freshWorld =
               (Ok {| messages := VMessages (turnMessages "hello" sampleCompletion);
                      tokenCount := Int 42 |}, helloStored))
    by (vm_compute; reflexivity).
  assert (H2 : tokenCount {| messages := VMessages (turnMessages "hello" sampleCompletion);
                             tokenCount := Int 42 |} <> NaN) by discriminate.
  assert (H3 : untouched customer helloStored helloStored) by (split; reflexivity).
  assert (H4 : redis_fault quietEnv (redisOps helloStored) = false) by reflexivity.
  assert (H5 : redis_fault quietEnv (S (redisOps helloStored)) = false) by reflexivity.
  assert (H6 : now (served quietEnv (redis helloStored) helloStored) <
               now freshWorld + CONVERSATION_TTL * 1000) by (vm_compute; reflexivity).
  split; [exact H1|]. split; [exact H2|]. split; [exact H3|]. split; [exact H4|].
  split; [exact H5|]. split; [exact H6|].
  exact (proj2 (history_write_then_read quietEnv customer
                  (turnMessages "hello" sampleCompletion) 42 freshWorld helloStored
                  helloStored _ H1 H2 H3 H4 H5 H6)).
Defined.

(** X8. The two writes of [updateConversationHistory] are not one
    step: when the history write is served and the count write
    rejects, the call logs the error and rejects, the stored history
    has the new messages at its end, and the stored count is the one
    from before. *)
Theorem count_write_failure_keeps_history (E : Env) (userId : string)
    (newMessages : list Message) (tokenUsage : Z) (w w1 : World) (h : History)
    (old : list Message)
    (Hread : getConversationHistory E userId w = (Ok h, w1))
    (Harray : messages h = VMessages old)
    (Hset1 : redis_fault E (redisOps w1) = false)
    (Hset2 : redis_fault E (S (redisOps w1)) = true) :
  exists we,
    updateConversationHistory E userId newMessages tokenUsage w = (Throw RedisError, we) /\
    storedMessages userId we = (old ++ newMessages)%list /\
    redis we !! tokenCountKeyOf userId = redis w !! tokenCountKeyOf userId /\
    exists earlier, logged (trace we) = (earlier ++ [ErrUpdatingHistory])%list.
Proof.
  destruct (updateConversationHistory_half E userId newMessages tokenUsage w h w1 old
              Hread Harray Hset1 Hset2) as (we & x & Hrun & Hr & Hlog).
  exists we. split; [exact Hrun|]. split; [|split; [|exact Hlog]].
  - unfold storedMessages. rewrite Hr, lookup_insert_eq. reflexivity.
  - rewrite Hr. apply lookup_insert_ne, history_key_not_count.
Qed.

(** X8 at a first exchange whose count write, the fourth command,
    rejects. *)
Lemma count_write_failure_keeps_history_witness :
  getConversationHistory (faultAt 3) customer freshWorld =
    (Ok emptyHistory, (getConversationHistory (faultAt 3) customer freshWorld).2) /\
  messages emptyHistory = VMessages [] /\
  redis_fault (faultAt 3)
    (redisOps (getConversationHistory (faultAt 3) customer freshWorld).2) = false /\
  redis_fault (faultAt 3)
    (S (redisOps (getConversationHistory (faultAt 3) customer freshWorld).2)) = true /\
  exists we,
    updateConversationHistory (faultAt 3) customer (turnMessages "hello" sampleCompletion)
      42 freshWorld = (Throw RedisError, we) /\
    storedMessages customer we = ([] ++ turnMessages "hello" sampleCompletion)%list /\
    redis we !! tokenCountKeyOf customer = redis freshWorld !! tokenCountKeyOf customer /\
    exists earlier, logged (trace we) = (earlier ++ [ErrUpdatingHistory])%list.
Proof.
  assert (H1 : getConversationHistory (faultAt 3) customer freshWorld =
               (Ok emptyHistory, (getConversationHistory (faultAt 3) customer freshWorld).2))
    by (vm_compute; reflexivity).
  assert (H2 : messages emptyHistory = VMessages []) by reflexivity.
  assert (H3 : redis_fault (faultAt 3)
                 (redisOps (getConversationHistory (faultAt 3) customer freshWorld).2)
               = false) by (vm_compute; reflexivity).
  assert (H4 : redis_fault (faultAt 3)
                 (S (redisOps (getConversationHistory (faultAt 3) customer freshWorld).2))
               = true) by (vm_compute; reflexivity).
  split; [exact H1|]. split; [exact H2|]. split; [exact H3|]. split; [exact H4|].
  exact (count_write_failure_keeps_history (faultAt 3) customer
           (turnMessages "hello" sampleCompletion) 42 freshWorld _ emptyHistory []
           H1 H2 H3 H4).
Defined.

(** X9. A stored history that [JSON.parse] rejects is read as no
    history at all, with the error logged and the stored count
    dropped with it; the next [updateConversationHistory] replaces it
    by the new messages alone and restarts the count at their
    usage. *)
Theorem corrupt_history_is_replaced (E : Env) (userId : string)
    (newMessages : list Message) (tokenUsage : Z) (w : World) (t : string)
    (Hentry : lookup_live (now w) (historyKeyOf userId) (redis w) = Some (Raw t))
    (Hnonempty : t <> "")
    (Hcorrupt : JSON_parse_text E t = None)
    (Hserved : forall n, (redisOps w <= n < redisOps w + 4)%nat ->
                         redis_fault E n = false) :
  exists w1 w',
    getConversationHistory E userId w = (Ok emptyHistory, w1) /\
    logged (trace w1) = (logged (trace w) ++ [ErrGettingHistory])%list /\
    updateConversationHistory E userId newMessages tokenUsage w =
      (Ok {| messages := VMessages newMessages; tokenCount := Int tokenUsage |}, w') /\
    storedMessages userId w' = newMessages /\
    storedTokenCount userId w' = tokenUsage.
Proof.
  assert (Hf0 : redis_fault E (redisOps w) = false) by (apply Hserved; lia).
  assert (Hf1 : redis_fault E (S (redisOps w)) = false) by (apply Hserved; lia).
  assert (Hf2 : redis_fault E (S (S (redisOps w))) = false) by (apply Hserved; lia).
  assert (Hf3 : redis_fault E (S (S (S (redisOps w)))) = false) by (apply Hserved; lia).
  pose proof (getConversationHistory_reads E userId w Hf0 Hf1) as Hread.
  cbv zeta in Hread. rewrite Hentry in Hread. unfold parsedHistory in Hread.
  rewrite (truthy_Raw t Hnonempty), Hcorrupt in Hread.
  eexists _, _. split; [exact Hread|]. split; [simpl; trace_simpl; reflexivity|].
  unfold updateConversationHistory, try_catch, bind at 1. rewrite Hread.
  unfold bind at 1. simpl spread. unfold ret at 1. cbv iota beta.
  unfold bind at 1. rewrite redis_set_ok by exact Hf2.
  unfold bind at 1. rewrite redis_set_ok by exact Hf3.
  split; [reflexivity|]. unfold storedMessages, storedTokenCount. simpl. split.
  - rewrite lookup_insert_ne by (apply not_eq_sym, history_key_not_count).
    rewrite lookup_insert_eq. reflexivity.
  - rewrite lookup_insert_eq. reflexivity.
Qed.

(** X9 at a history that reads "oops", with a count of 900 beside
    it. *)
Lemma corrupt_history_is_replaced_witness :
  lookup_live (now garbledWorld) (historyKeyOf customer) (redis garbledWorld) =
    Some (Raw "oops") /\
  "oops" <> "" /\
  JSON_parse_text quietEnv "oops" = None /\
  (forall n, (redisOps garbledWorld <= n < redisOps garbledWorld + 4)%nat ->
             redis_fault quietEnv n = false) /\
  exists w1 w',
    getConversationHistory quietEnv customer garbledWorld = (Ok emptyHistory, w1) /\
    logged (trace w1) = (logged (trace garbledWorld) ++ [ErrGettingHistory])%list /\
    updateConversationHistory quietEnv customer (turnMessages "hello" sampleCompletion)
      42 garbledWorld =
      (Ok {| messages := VMessages (turnMessages "hello" sampleCompletion);
             tokenCount := Int 42 |}, w') /\
    storedMessages customer w' = turnMessages "hello" sampleCompletion /\
    storedTokenCount customer w' = 42.
Proof.
  assert (H1 : lookup_live (now garbledWorld) (historyKeyOf customer) (redis garbledWorld) =
               Some (Raw "oops")) by (vm_compute; reflexivity).
  assert (H2 : "oops" <> "") by discriminate.
  assert (H3 : JSON_parse_text quietEnv "oops" = None) by reflexivity.
  assert (H4 : forall n, (redisOps garbledWorld <= n < redisOps garbledWorld + 4)%nat ->
                         redis_fault quietEnv n = false) by (intros n _; reflexivity).
  split; [exact H1|]. split; [exact H2|]. split; [exact H3|]. split; [exact H4|].
  exact (corrupt_history_is_replaced quietEnv customer
           (turnMessages "hello" sampleCompletion) 42 garbledWorld "oops" H1 H2 H3 H4).
Defined.




(** ** Reply generation and the job: what they leave alone *)

(** A fulfilled reply generation ends with its cache write: the
    command is issued at an instant not before the start of the call,
    and the call returns when the command is answered. *)
Lemma generateReply_cache_write (E : Env) userMessage userId w v w' :
  generateReply E userMessage userId w = (Ok v, w') ->
  exists r we,
    v = VResponse r /\ now w <= now we /\
    w' = served E (<[cacheKeyOf userMessage :=
                      (Json (VResponse r), Some (now we + 3600 * 1000))]> (redis we)) we.
Proof.
  intros H.
  destruct (generateReply_Ok_inv E _ _ _ _ _ H)
    as (h & wb & sc & hm & c & h' & we & Hh & _ & _ & _ & Hu & _ & -> & ->).
  exists (responseOf c), we. split; [reflexivity|]. split; [|reflexivity].
  destruct (getConversationHistory_total E userId w) as (h0 & wb0 & Hh0 & Hc & _).
  rewrite Hh in Hh0. inversion Hh0; subst h0 wb0.
  pose proof (within_updateConversationHistory E (fun _ => True) (fun _ => True)
                (fun _ => I) userId (turnMessages userMessage c)
                (total_tokens (reply_usage c)) I I
                (asked E (personaOf sc :: hm ++ [userMessageOf userMessage])%list
                       (fileRead E wb))) as Hw.
  rewrite Hu in Hw. apply cf_now in Hw. simpl in Hw.
  pose proof (calm_now _ _ Hc). lia.
Qed.

(** X11. [getAIResponse] changes the cache entry of its text in one
    case only: it has asked the backend, and the entry is then the
    very reply it returns, written with an expiry of 3600 s: the entry
    expires 3600000 ms after the instant at which the write was issued,
    an instant of the call, and the call returns as soon as the write
    is answered. When the body of its [try] block rejects, so that the
    apology is returned, the entry is as it was: the apology is never
    cached. *)
Theorem cache_entry_changes_only_on_success (E : Env) (userMessage userId : string)
    (w : World) :
  let r := getAIResponse E userMessage userId w in
  (redis r.2 !! cacheKeyOf userMessage = redis w !! cacheKeyOf userMessage \/
   exists resp written answered,
     r.1 = Ok (VResponse resp) /\ now w <= written /\ written <= now r.2 /\
     awaits r.2 = S answered /\
     now r.2 = written + Z.of_N (latency E answered) /\
     redis r.2 !! cacheKeyOf userMessage =
       Some (Json (VResponse resp), Some (written + 3600 * 1000)) /\
     backendCalls r.2 <> backendCalls w) /\
  (forall e w1,
     getAIResponse_try E userMessage userId w = (Throw e, w1) ->
     r.1 = Ok (VResponse fallbackResponse) /\
     redis r.2 !! cacheKeyOf userMessage = redis w !! cacheKeyOf userMessage).
Proof.
  intros r.
  assert (Hthrown : forall e w1,
    getAIResponse_try E userMessage userId w = (Throw e, w1) ->
    redis w1 !! cacheKeyOf userMessage = redis w !! cacheKeyOf userMessage).
  { intros e w1. unfold getAIResponse_try, bind at 1.
    pose proof (calm_lookupCachedResponse E (cacheKeyOf userMessage) w) as Hc.
    destruct (lookupCachedResponse E (cacheKeyOf userMessage) w) as [[[parsed|]|e0|] wa];
      simpl in Hc; try discriminate.
    - intros Hgen. rewrite (generateReply_rejected E _ _ _ _ _ Hgen).
      rewrite (calm_redis _ _ Hc). reflexivity.
    - intros Heq. inversion Heq; subst. rewrite (calm_redis _ _ Hc). reflexivity. }
  split.
  - unfold r. clear r.
    pose proof (settles_getAIResponse_try E userMessage userId w) as Hs.
    destruct (getAIResponse_try E userMessage userId w) as [[v|e|] w1] eqn:Ht.
    + rewrite (getAIResponse_passed E _ _ _ _ _ Ht). simpl.
      revert Ht. unfold getAIResponse_try, bind at 1.
      pose proof (calm_lookupCachedResponse E (cacheKeyOf userMessage) w) as Hc.
      destruct (lookupCachedResponse E (cacheKeyOf userMessage) w) as [[[parsed|]|e0|] wa];
        simpl in Hc; try discriminate.
      * intros Heq. inversion Heq; subst. left. rewrite (calm_redis _ _ Hc). reflexivity.
      * intros Hgen.
        destruct (generateReply_caches E _ _ _ _ _ Hgen) as (resp0 & written0 & _ & _ & _ & Hb).
        destruct (generateReply_cache_write E _ _ _ _ _ Hgen) as (resp & we & -> & Hnow & ->).
        right. exists resp, (now we), (awaits we).
        pose proof (calm_now _ _ Hc) as Hca.
        split; [reflexivity|]. split; [lia|]. split; [simpl; lia|].
        split; [reflexivity|]. split; [simpl; lia|].
        split; [simpl; apply lookup_insert_eq|].
        rewrite <- (calm_backend _ _ Hc). exact Hb.
    + rewrite (getAIResponse_caught E _ _ _ _ _ Ht). simpl. left.
      exact (Hthrown _ _ eq_refl).
    + simpl in Hs. contradiction.
  - intros e w1 Ht. unfold r. rewrite (getAIResponse_caught E _ _ _ _ _ Ht). simpl.
    split; [reflexivity|exact (Hthrown _ _ Ht)].
Qed.

(** X12. In every world and every environment, [getAIResponse]
    records nothing but console lines and calls of the backend: it
    never calls the channel. It writes to no key but the user's two
    conversation keys and the cache entry of the text, so what is
    stored for any other user is as it was. *)
Theorem reply_generation_is_confined (E : Env) (userMessage userId : string)
    (w : World) :
  let w' := (getAIResponse E userMessage userId w).2 in
  (exists t, trace w' = (trace w ++ t)%list /\ Forall replyEvent t) /\
  posts (trace w') = posts (trace w) /\
  (forall key, ~ conversationKeys userMessage userId key ->
               redis w' !! key = redis w !! key) /\
  (forall other, other <> userId -> untouched other w w').
Proof.
  intros w'.
  pose proof (within_getAIResponse E replyEvent (conversationKeys userMessage userId)
                (fun _ => I) (fun _ => I) userMessage userId
                (or_introl eq_refl) (or_intror (or_introl eq_refl))
                (or_intror (or_intror eq_refl)) w) as Hc.
  fold w' in Hc.
  split; [exact (cf_events _ _ _ _ Hc)|].
  split; [exact (confined_posts _ _ _ _ replyEvent_no Hc)|].
  split; [exact (cf_keys _ _ _ _ Hc)|].
  intros other Hother. split; apply (cf_keys _ _ _ _ Hc).
  - intros [Hk|[Hk|Hk]].
    + apply Hother, history_key_inj, Hk.
    + exact (history_key_not_count _ _ Hk).
    + exact (history_key_not_cache _ _ Hk).
  - intros [Hk|[Hk|Hk]].
    + symmetry in Hk. exact (history_key_not_count _ _ Hk).
    + apply Hother, count_key_inj, Hk.
    + exact (count_key_not_cache _ _ Hk).
Qed.

Section Job.

Variable E : Env.

Lemma jobKeys_history from messageText : jobKeys from messageText (historyKeyOf from).
Proof. left. left. reflexivity. Qed.

Lemma jobKeys_count from messageText : jobKeys from messageText (tokenCountKeyOf from).
Proof. left. right. left. reflexivity. Qed.

Lemma jobKeys_cache from messageText : jobKeys from messageText (cacheKeyOf messageText).
Proof. left. right. right. reflexivity. Qed.

Lemma within_processMessage budget from messageText :
  within (jobEvent from) (jobKeys from messageText)
         (processMessage E budget from messageText).
Proof.
  unfold processMessage.
  apply within_try_catch.
  - apply within_bind; [apply within_console; exact I|intros ?].
    apply within_bind.
    { apply within_getAIResponse; try (intros; exact I).
      - apply jobKeys_history.
      - apply jobKeys_count.
      - apply jobKeys_cache. }
    intros aiResponse.
    apply within_bind; [apply within_console; exact I|intros ?].
    apply within_bind; [apply within_prop_content|intros text].
    apply within_bind.
    { apply within_sendWhatsAppMessage; try (intros; exact I).
      - intros t. reflexivity.
      - right. reflexivity. }
    intros ?.
    apply within_bind; [apply within_console; exact I|intros ?].
    apply within_bind; [apply within_prop_usage|intros ?].
    apply within_bind; [apply within_console; exact I|intros ?]. confine.
  - intros ?. apply within_bind; [apply within_console; exact I|intros ?; confine].
Qed.

Lemma postsAtMost_processMessage budget from messageText :
  postsAtMost 4 (processMessage E budget from messageText).
Proof.
  assert (Hquiet : forall A (m : M A), within noPost (fun _ => True) m -> postsAtMost 0 m).
  { intros A m. apply postsAtMost_quiet. exact noPost_no. }
  unfold processMessage.
  apply (postsAtMost_try_catch 4 0).
  - apply (postsAtMost_bind 0 4); [apply Hquiet, within_console; exact I|intros ?].
    apply (postsAtMost_bind 0 4).
    { apply Hquiet. apply within_getAIResponse; intros; exact I. }
    intros aiResponse.
    apply (postsAtMost_bind 0 4); [apply Hquiet, within_console; exact I|intros ?].
    apply (postsAtMost_bind 0 4); [apply Hquiet, within_prop_content|intros text].
    apply (postsAtMost_bind 4 0).
    { apply (postsAtMost_sendWhatsAppMessage E budget from text 0). }
    intros ?. apply Hquiet.
    apply within_bind; [apply within_console; exact I|intros ?].
    apply within_bind; [apply within_prop_usage|intros ?].
    apply within_bind; [apply within_console; exact I|intros ?]. confine.
  - intros ?. apply Hquiet.
    apply within_bind; [apply within_console; exact I|intros ?; confine].
Qed.

End Job.

(** X13. In every world and every environment, and whatever its
    outcome, one run of the [process_message] handler calls the
    channel four times at most and for the sender of the job only,
    never empties the store, and writes to no key but the sender's
    conversation keys, the cache entry of the text and
    [last_message:<from>]: what is stored for any other user is as it
    was. *)
Theorem job_is_confined (E : Env) (budget : nat) (from messageText : string)
    (w : World) :
  let w' := (processMessage E budget from messageText w).2 in
  (exists t, trace w' = (trace w ++ t)%list /\ Forall (jobEvent from) t /\
             (length (posts t) <= 4)%nat) /\
  (forall key, ~ jobKeys from messageText key -> redis w' !! key = redis w !! key) /\
  (forall other, other <> from -> untouched other w w').
Proof.
  intros w'.
  pose proof (within_processMessage E budget from messageText w) as Hc.
  pose proof (postsAtMost_processMessage E budget from messageText w) as Hn.
  fold w' in Hc, Hn. destruct Hc as [(t & Ht & Hall) Hkeys _ _].
  split; [|split; [exact Hkeys|]].
  - exists t. split; [exact Ht|]. split; [exact Hall|].
    rewrite Ht, posts_app, length_app in Hn. lia.
  - intros other Hother. split; apply Hkeys.
    + intros [[Hk|[Hk|Hk]]|Hk].
      * apply Hother, history_key_inj, Hk.
      * exact (history_key_not_count _ _ Hk).
      * exact (history_key_not_cache _ _ Hk).
      * exact (history_key_not_last _ _ Hk).
    + intros [[Hk|[Hk|Hk]]|Hk].
      * symmetry in Hk. exact (history_key_not_count _ _ Hk).
      * apply Hother, count_key_inj, Hk.
      * exact (count_key_not_cache _ _ Hk).
      * exact (count_key_not_last _ _ Hk).
Qed.

(** ** The webhook endpoints *)

(** X14. [GET /webhook] answers 200 with the challenge of the query
    exactly when the mode is "subscribe" and the token is not empty
    and equals [VERIFY_TOKEN]; it answers 400 exactly when the mode or
    the token is missing or empty, and 403 in every other case. A
    process whose [VERIFY_TOKEN] is unset or empty verifies nobody. *)
Theorem webhook_verification (VERIFY_TOKEN : option string) (query : VerifyQuery) :
  let reply := (verifyWebhook VERIFY_TOKEN query).2 in
  (reply = send 200 (hub_challenge query) <->
     hub_mode query = Some "subscribe" /\
     falsy (hub_verify_token query) = false /\
     hub_verify_token query = VERIFY_TOKEN) /\
  (reply = sendStatus 400 <->
     falsy (hub_mode query) = true \/ falsy (hub_verify_token query) = true) /\
  (reply = send 200 (hub_challenge query) \/ reply = sendStatus 400 \/
   reply = sendStatus 403) /\
  (falsy VERIFY_TOKEN = true -> reply = sendStatus 400 \/ reply = sendStatus 403).
Proof.
  intros reply. unfold reply, verifyWebhook. cbv zeta.
  destruct (falsy (hub_mode query)) eqn:Hm; simpl.
  { repeat split; auto; try discriminate; intros (Hs & _ & _);
      rewrite Hs in Hm; discriminate. }
  destruct (falsy (hub_verify_token query)) eqn:Ht; simpl.
  { repeat split; auto; try discriminate; intros (_ & Hf & _); discriminate. }
  destruct (bool_decide_reflect (hub_mode query = Some "subscribe")) as [Hs|Hs]; simpl.
  - destruct (bool_decide_reflect (hub_verify_token query = VERIFY_TOKEN)) as [Hv|Hv]; simpl.
    + repeat split; auto; try discriminate.
      * intros [?|?]; discriminate.
      * intros Hf. rewrite <- Hv, Ht in Hf. discriminate.
    + repeat split; auto; try discriminate.
      * intros (_ & _ & Heq). contradiction.
      * intros [?|?]; discriminate.
  - repeat split; auto; try discriminate.
    + intros (Heq & _ & _). contradiction.
    + intros [?|?]; discriminate.
Qed.

(** X15. Whatever the body of the request and the queue do,
    [POST /webhook] answers 200 or 500, and the jobs it has added are,
    in the order of the payload, those of a prefix of the messages
    that carry a text: all of them when the answer is 200. Each job
    is a [process_message] job with three attempts and an exponential
    backoff of 2000 ms, with a text that is truthy, stamped with an
    instant of the request. A payload for another object is answered
    200 with nothing added; one for the right object whose [entry] is
    missing, or cannot be iterated, is answered 500 with nothing
    added, and so is a body that is [null] or [undefined]. *)
Theorem webhook_enqueues_texts_in_order (Q : QueueEnv) (data : JsonValue) (h : Hook) :
  let r := postWebhook Q data h in
  (r.1 = sendStatus 200 \/ r.1 = sendStatus 500) /\
  (exists js rest,
     hook_queue r.2 = (hook_queue h ++ js)%list /\
     textMessages data =
       (map (fun j => (queued_from j, queued_messageText j)) js ++ rest)%list /\
     (r.1 = sendStatus 200 -> rest = []) /\
     Forall (webhookJob (hook_now h) (hook_now r.2)) js) /\
  (forall object,
     member p_object data = Some object ->
     isString "whatsapp_business_account" object = false ->
     r = (sendStatus 200, h)) /\
  (forall entry,
     member p_object data = Some (JString "whatsapp_business_account") ->
     member p_entry data = Some entry -> iterate entry = None ->
     r = (sendStatus 500, hook_log ErrProcessingWebhook h)) /\
  (member p_object data = None ->
   r = (sendStatus 500, hook_log ErrProcessingWebhook h)).
Proof.
  intros r. unfold r, postWebhook, textMessages. clear r.
  destruct (member p_object data) as [object|] eqn:Ho.
  2: { split; [right; reflexivity|].
       split; [exists [], []; simpl; rewrite app_nil_r; repeat split; auto|].
       split; [discriminate|]. split; [discriminate|reflexivity]. }
  destruct (member p_entry data) as [entry|] eqn:He.
  2: { apply member_present in He. apply member_Some_present in Ho.
       rewrite He in Ho. discriminate. }
  destruct (isString "whatsapp_business_account" object) eqn:Hs.
  2: { split; [left; reflexivity|].
       split; [exists [], []; simpl; rewrite app_nil_r; repeat split; auto|].
       split; [reflexivity|]. split; [|discriminate].
       intros entry' Heq _ _. inversion Heq; subst. discriminate. }
  destruct (iterate entry) as [entries|] eqn:Hi; simpl.
  2: { split; [right; reflexivity|].
       split; [exists [], []; simpl; rewrite app_nil_r; repeat split; auto;
               discriminate|].
       split; [intros object' Heq Hn; inversion Heq; subst; congruence|].
       split; [reflexivity|discriminate]. }
  pose proof (enqueued_forEntries Q entries h) as (js & rest & Hq & Hexp & Hd & Hj & Hn).
  destruct (forEntries Q entries h) as [[|e] h1]; simpl in *.
  - split; [left; reflexivity|].
    split; [exists js, rest; repeat split; auto|].
    split; [intros object' Heq Hn'; inversion Heq; subst; congruence|].
    split; [|discriminate].
    intros entry' _ Heq Hi'. inversion Heq; subst. congruence.
  - split; [right; reflexivity|].
    split; [exists js, rest; split; [exact Hq|]; split; [exact Hexp|];
            split; [discriminate|exact Hj]|].
    split; [intros object' Heq Hn'; inversion Heq; subst; congruence|].
    split; [|discriminate].
    intros entry' _ Heq Hi'. inversion Heq; subst. congruence.
Qed.

(** X16. On a queue that takes every job, a payload of the WhatsApp
    object is answered 200 exactly when it has every part the handler
    reads without a test, and 500 otherwise: so a message that is
    [null], or [messages] that are truthy and cannot be iterated, make
    the answer 500. When it is answered 200 the queue has gained one
    job for each of its messages with a text, in the order of the
    payload, and nothing for the others. *)
Theorem webhook_accepts_complete_payload (Q : QueueEnv) (data : JsonValue) (h : Hook)
    (Hobject : member p_object data = Some (JString "whatsapp_business_account"))
    (Hqueue : forall n, add_fault Q n = false) :
  ((postWebhook Q data h).1 = sendStatus 200 <-> complete data = true) /\
  (complete data = false -> (postWebhook Q data h).1 = sendStatus 500) /\
  (complete data = true ->
   jobsOf (postWebhook Q data h).2 = (jobsOf h ++ textMessages data)%list).
Proof.
  unfold postWebhook, textMessages, complete, jobsOf. rewrite Hobject.
  destruct (member p_entry data) as [entry|] eqn:He.
  2: { apply member_present in He. apply member_Some_present in Hobject.
       rewrite He in Hobject. discriminate. }
  assert (Hs : isString "whatsapp_business_account"
                 (JString "whatsapp_business_account") = true) by reflexivity.
  rewrite Hs. clear Hs.
  destruct (iterate entry) as [entries|]; simpl.
  2: { split; [split; discriminate|]. split; [reflexivity|discriminate]. }
  pose proof (enqueued_forEntries Q entries h) as (js & rest & Hq & Hexp & Hd & _ & _).
  pose proof (forEntries_flow Q Hqueue entries h) as Hflow.
  destruct (forEntries Q entries h) as [[|e] h1]; simpl in *;
    destruct (forallb completeEntry entries); try discriminate.
  - split; [split; reflexivity|]. split; [discriminate|]. intros _.
    rewrite Hq, map_app, Hexp, (Hd eq_refl), app_nil_r. reflexivity.
  - split; [split; discriminate|]. split; [reflexivity|discriminate].
Qed.

(** X16 at a payload of two entries with two texts among four
    messages, and at one that holds a [null] message after a text. *)
Lemma webhook_accepts_complete_payload_witness :
  member p_object samplePayload = Some (JString "whatsapp_business_account") /\
  member p_object brokenPayload = Some (JString "whatsapp_business_account") /\
  (forall n, add_fault steadyQueue n = false) /\
  complete samplePayload = true /\
  postWebhook steadyQueue samplePayload hookStart =
    (sendStatus 200,
     {| hook_now := 4;
        hook_queue :=
          [{| queued_name := "process_message"; queued_from := JString customer;
              queued_messageText := JString "hello"; queued_timestamp := 0;
              queued_opts := webhookJobOptions |};
           {| queued_name := "process_message"; queued_from := JString otherCustomer;
              queued_messageText := JString "thanks"; queued_timestamp := 2;
              queued_opts := webhookJobOptions |}];
        hook_adds := 2;
        hook_lines := [LogAddingToQueue (JString customer) (JString "hello");
                       LogAddingToQueue (JString otherCustomer) (JString "thanks")] |}) /\
  complete brokenPayload = false /\
  (postWebhook steadyQueue brokenPayload hookStart).1 = sendStatus 500 /\
  jobsOf (postWebhook steadyQueue brokenPayload hookStart).2 =
    [(JString customer, JString "hello")] /\
  ((postWebhook steadyQueue samplePayload hookStart).1 = sendStatus 200 <->
   complete samplePayload = true) /\
  (complete samplePayload = true ->
   jobsOf (postWebhook steadyQueue samplePayload hookStart).2 =
     (jobsOf hookStart ++ textMessages samplePayload)%list).
Proof.
  assert (H1 : member p_object samplePayload =
               Some (JString "whatsapp_business_account")) by reflexivity.
  assert (H2 : member p_object brokenPayload =
               Some (JString "whatsapp_business_account")) by reflexivity.
  assert (H3 : forall n, add_fault steadyQueue n = false) by reflexivity.
  split; [exact H1|]. split; [exact H2|]. split; [exact H3|].
  split; [vm_compute; reflexivity|]. split; [vm_compute; reflexivity|].
  split; [vm_compute; reflexivity|].
  split; [exact (proj1 (proj2 (webhook_accepts_complete_payload steadyQueue
                                 brokenPayload hookStart H2 H3))
                       ltac:(vm_compute; reflexivity))|].
  split; [vm_compute; reflexivity|].
  destruct (webhook_accepts_complete_payload steadyQueue samplePayload hookStart H1 H3)
    as (Hiff & _ & Hjobs).
  split; [exact Hiff|exact Hjobs].
Defined.

(** ** The limiter: waits *)

Lemma checkRun_waits ts : forall t0 l,
  start l <= t0 -> 0 <= sent l <= MAX_MESSAGES_PER_WINDOW ->
  nondecreasingFrom t0 ts ->
  Forall waitWithin (checkRun ts l).1 /\
  0 <= sent (checkRun ts l).2 <= MAX_MESSAGES_PER_WINDOW /\
  start l <= start (checkRun ts l).2.
Proof.
  induction ts as [|t ts IH]; intros t0 l Hs Hn Hm; simpl.
  - split; [constructor|]. split; [exact Hn|lia].
  - destruct Hm as [Ht Hm].
    destruct (rateLimitCheck_cases t l) as [[Hw Hc]|[[Hw [Hx Hc]]|[Hw [Hx Hc]]]];
      rewrite Hc; clear Hc.
    + destruct (IH t {| sent := 1; start := t |}) as (I1 & I2 & I3);
        [simpl; lia|unfold MAX_MESSAGES_PER_WINDOW; simpl; lia|exact Hm|].
      destruct (checkRun ts {| sent := 1; start := t |}) as [r l2]. simpl in *.
      split; [constructor; [simpl; lia|exact I1]|]. split; [exact I2|lia].
    + destruct (IH t l) as (I1 & I2 & I3); [lia|exact Hn|exact Hm|].
      destruct (checkRun ts l) as [r l2]. simpl in *.
      split; [constructor; [simpl; unfold MESSAGE_WINDOW_MS in *; lia|exact I1]|].
      split; [exact I2|exact I3].
    + destruct (IH t {| sent := sent l + 1; start := start l |}) as (I1 & I2 & I3);
        [simpl; lia|simpl; lia|exact Hm|].
      destruct (checkRun ts {| sent := sent l + 1; start := start l |}) as [r l2].
      simpl in *.
      split; [constructor; [simpl; lia|exact I1]|]. split; [exact I2|exact I3].
Qed.

(** X17. Over any run of the limiter from the state the module
    starts in, with checks made at instants that do not go back, the
    counter stays between 0 and 30, the window start never moves
    back, a check that is let through falls at or after the start of
    its window, and a caller that is told to wait is told to wait for
    what is left of the window: at least 0 and at most 1000 ms. *)
Theorem limiter_waits_are_bounded (t0 : Z) (ts : list Z)
    (Hmono : nondecreasingFrom t0 ts) :
  let r := checkRun ts {| sent := 0; start := t0 |} in
  Forall waitWithin r.1 /\
  0 <= sent r.2 <= MAX_MESSAGES_PER_WINDOW /\
  t0 <= start r.2.
Proof.
  intros r. unfold r.
  apply (checkRun_waits ts t0 {| sent := 0; start := t0 |}); simpl;
    unfold MAX_MESSAGES_PER_WINDOW; auto; lia.
Qed.

(** X17 at six checks spread over three windows. *)
Lemma limiter_waits_are_bounded_witness :
  nondecreasingFrom 0 [0; 0; 400; 1000; 1001; 2500] /\
  Forall waitWithin (checkRun [0; 0; 400; 1000; 1001; 2500] {| sent := 0; start := 0 |}).1 /\
  0 <= sent (checkRun [0; 0; 400; 1000; 1001; 2500] {| sent := 0; start := 0 |}).2
    <= MAX_MESSAGES_PER_WINDOW /\
  0 <= start (checkRun [0; 0; 400; 1000; 1001; 2500] {| sent := 0; start := 0 |}).2.
Proof.
  assert (H1 : nondecreasingFrom 0 [0; 0; 400; 1000; 1001; 2500]) by (simpl; lia).
  split; [exact H1|].
  exact (limiter_waits_are_bounded 0 [0; 0; 400; 1000; 1001; 2500] H1).
Defined.


(** ** Expiry, and the job as a whole *)

(** X18. A conversation is forgotten [CONVERSATION_TTL] seconds after
    its last write. Once a fulfilled [updateConversationHistory] is
    that far in the past, with the user's two keys left alone since, a
    [getConversationHistory] whose reads are served returns the empty
    history with a count of 0 and logs nothing, and the next reply is
    asked of the backend with the persona and the new message alone. *)
Theorem conversation_is_forgotten (E : Env) (userId : string)
    (newMessages : list Message) (tokenUsage : Z) (w w' w2 : World) (h' : History)
    (Hwrite : updateConversationHistory E userId newMessages tokenUsage w = (Ok h', w'))
    (Hkept : untouched userId w' w2)
    (Hread1 : redis_fault E (redisOps w2) = false)
    (Hread2 : redis_fault E (S (redisOps w2)) = false)
    (Hlate : now w' + CONVERSATION_TTL * 1000 <= now w2) :
  getConversationHistory E userId w2 =
    (Ok emptyHistory, served E (redis w2) (served E (redis w2) w2)) /\
  forall userMessage scriptContent,
    readFile_result E (fsReads w2) = Some scriptContent ->
    prompts (trace (generateReply E userMessage userId w2).2) =
      (prompts (trace w2) ++ [[personaOf scriptContent; userMessageOf userMessage]])%list.
Proof.
  destruct (updateConversationHistory_fulfilled E _ _ _ _ _ _ Hwrite)
    as (h & w1 & old & x1 & x2 & _ & _ & Hh' & Hr & Hx1 & Hx12 & Hx2 & Hn).
  destruct Hkept as [Kh Kt].
  assert (Hhk : redis w2 !! historyKeyOf userId = Some (Json (messages h'), Some x1)).
  { rewrite Kh, Hr. rewrite lookup_insert_ne by (apply not_eq_sym, history_key_not_count).
    apply lookup_insert_eq. }
  assert (Htk : redis w2 !! tokenCountKeyOf userId =
                Some (String_of_jsnum (tokenCount h'), Some x2)).
  { rewrite Kt, Hr. apply lookup_insert_eq. }
  assert (Hread : getConversationHistory E userId w2 =
            (Ok emptyHistory, served E (redis w2) (served E (redis w2) w2))).
  { rewrite (getConversationHistory_reads E userId w2 Hread1 Hread2). cbv zeta.
    unfold lookup_live. rewrite Hhk, Htk. unfold live. simpl.
    destruct (Z.ltb_spec (now w2) x1); [lia|].
    destruct (Z.ltb_spec (now w2 + 0 + Z.of_N (latency E (awaits w2))) x2); [lia|].
    reflexivity. }
  split; [exact Hread|].
  intros userMessage scriptContent Hfile.
  apply (generateReply_prompt E _ _ _ _ _ [] _ Hread); [|reflexivity|exact Hfile].
  eapply calm_trans; [apply calm_served|apply (calm_served E (served E (redis w2) w2))].
Qed.

(** X18 at the first exchange of the customer, read a day later. *)
Lemma conversation_is_forgotten_witness :
  updateConversationHistory quietEnv customer (turnMessages "hello" sampleCompletion)
    42 freshWorld =
    (Ok {| messages := VMessages (turnMessages "hello" sampleCompletion);
           tokenCount := Int 42 |}, helloStored) /\
  untouched customer helloStored helloExpiring /\
  redis_fault quietEnv (redisOps helloExpiring) = false /\
  redis_fault quietEnv (S (redisOps helloExpiring)) = false /\
  now helloStored + CONVERSATION_TTL * 1000 <= now helloExpiring /\
  getConversationHistory quietEnv customer helloExpiring =
    (Ok emptyHistory,
     served quietEnv (redis helloExpiring)
       (served quietEnv (redis helloExpiring) helloExpiring)) /\
  forall userMessage scriptContent,
    readFile_result quietEnv (fsReads helloExpiring) = Some scriptContent ->
    prompts (trace (generateReply quietEnv userMessage customer helloExpiring).2) =
      (prompts (trace helloExpiring) ++
       [[personaOf scriptContent; userMessageOf userMessage]])%list.
Proof.
  assert (H1 : updateConversationHistory quietEnv customer
                 (turnMessages "hello" sampleCompletion) 42 freshWorld =
               (Ok {| messages := VMessages (turnMessages "hello" sampleCompletion);
                      tokenCount := Int 42 |}, helloStored))
    by (vm_compute; reflexivity).
  assert (H3 : untouched customer helloStored helloExpiring)
    by (split; vm_compute; reflexivity).
  assert (H4 : redis_fault quietEnv (redisOps helloExpiring) = false) by reflexivity.
  assert (H5 : redis_fault quietEnv (S (redisOps helloExpiring)) = false) by reflexivity.
  assert (H6 : now helloStored + CONVERSATION_TTL * 1000 <= now helloExpiring)
    by (vm_compute; discriminate).
  split; [exact H1|]. split; [exact H3|]. split; [exact H4|].
  split; [exact H5|]. split; [exact H6|].
  exact (conversation_is_forgotten quietEnv customer
           (turnMessages "hello" sampleCompletion) 42 freshWorld helloStored
           helloExpiring _ H1 H3 H4 H5 H6).
Defined.




(** ** The statistics endpoint *)

Section StatsProofs.

Variable E : Env.

Lemma lookup_live_stable t t' key (m : gmap string (RedisString * option Z)) :
  t <= t' ->
  (forall c x, m !! key = Some (c, Some x) -> x <= t \/ t' < x) ->
  lookup_live t' key m = lookup_live t key m.
Proof.
  intros Ht Hx. unfold lookup_live, live.
  destruct (m !! key) as [[c [x|]]|] eqn:Hm; simpl; try reflexivity.
  destruct (Hx c x eq_refl) as [Hd|Hl].
  - destruct (Z.ltb_spec t' x); destruct (Z.ltb_spec t x); try lia; reflexivity.
  - destruct (Z.ltb_spec t' x); destruct (Z.ltb_spec t x); try lia; reflexivity.
Qed.

Lemma fold_left_ext_In {A B} (f g : A -> B -> A) (l : list B) : forall a,
  (forall a b, In b l -> f a b = g a b) -> fold_left f l a = fold_left g l a.
Proof.
  induction l as [|b l IH]; intros a H; simpl; [reflexivity|].
  rewrite (H a b (or_introl eq_refl)). apply IH. intros a' b' Hb. apply H. right. exact Hb.
Qed.

(** The loop of the handler, when every command is served and no key
    it reads expires on the way. *)
Lemma sumTokenCounts_scan keys : forall total w,
  (forall n, (redisOps w <= n)%nat -> redis_fault E n = false) ->
  (forall key c x, In key keys -> redis w !! key = Some (c, Some x) ->
     x <= now w \/ now (sumTokenCounts E keys total w).2 < x) ->
  exists w',
    sumTokenCounts E keys total w =
      (Ok (fold_left (fun acc key =>
                        jsnum_add acc (parsedCount E (lookup_live (now w) key (redis w))))
                     keys total), w') /\
    redis w' = redis w /\ now w <= now w'.
Proof.
  induction keys as [|key rest IH]; intros total w Hf Hl; simpl.
  - exists w. split; [reflexivity|]. split; [reflexivity|lia].
  - simpl in Hl. unfold bind at 1 in Hl. unfold bind at 1.
    rewrite redis_get_ok in * by (apply Hf; lia).
    set (total' := jsnum_add total (parsedCount E (lookup_live (now w) key (redis w)))) in *.
    destruct (IH total' (served E (redis w) w)) as (w' & Hrun & Hr & Hn).
    { intros n Hle. apply Hf. simpl in Hle. lia. }
    { intros k c x Hin Hk. simpl in Hk.
      destruct (Hl k c x (or_intror Hin) Hk) as [Hd|Hlate]; [left; simpl; lia|right; exact Hlate]. }
    exists w'. rewrite Hrun. simpl in Hr, Hn. split; [|split; [exact Hr|lia]].
    f_equal. f_equal. apply fold_left_ext_In. intros a k Hin. f_equal. f_equal.
    simpl. apply lookup_live_stable; [lia|].
    intros c x Hk. destruct (Hl k c x (or_intror Hin) Hk) as [Hd|Hlate]; [left; exact Hd|].
    right. rewrite Hrun in Hlate. simpl in Hlate. lia.
Qed.

Lemma sum_of_numbers (f : string -> Z) keys : forall a,
  fold_left (fun acc key => jsnum_add acc (Int (f key))) keys (Int a) =
  Int (a + foldr Z.add 0 (map f keys)).
Proof.
  induction keys as [|key keys IH]; intros a; simpl.
  - f_equal. lia.
  - rewrite IH. f_equal. lia.
Qed.

Lemma sum_with_NaN (f : string -> jsnum) keys : forall total,
  total = NaN \/ (exists key, In key keys /\ f key = NaN) ->
  fold_left (fun acc key => jsnum_add acc (f key)) keys total = NaN.
Proof.
  induction keys as [|key keys IH]; intros total H; simpl.
  - destruct H as [H|(k & [] & _)]. exact H.
  - apply IH. destruct H as [->|(k & [<-|Hin] & Hk)].
    + left. reflexivity.
    + left. rewrite Hk. destruct total; reflexivity.
    + right. exists k. auto.
Qed.

Lemma NoDup_map_fst_filter {A B} (f : A * B -> bool) (l : list (A * B)) :
  NoDup (map fst l) -> NoDup (map fst (List.filter f l)).
Proof.
  induction l as [|a l IH]; simpl; intros H; [constructor|].
  apply NoDup_cons in H as [Hn Hd].
  destruct (f a); simpl; [|apply IH; exact Hd].
  apply NoDup_cons. split; [|apply IH; exact Hd].
  intros Hin. apply Hn.
  apply list_elem_of_In in Hin. apply list_elem_of_In.
  apply in_map_iff in Hin as (x & Hx & Hin). apply filter_In in Hin as [Hin _].
  apply in_map_iff. exists x. auto.
Qed.

End StatsProofs.

(** X20. When the calls of the queue fulfil, every command of the
    store is served and no count expires while the handler runs,
    [GET /stats] answers 200 with the reply of the queue; its
    [activeConversations] is the number of keys [token_count:...]
    alive when the handler lists them, each counted once, and a user
    is among them exactly when a count is stored for that user and has
    not expired. When all these counts are numbers,
    [totalTokensUsed] is their sum; when [parseInt] makes [NaN] of one
    of them, [totalTokensUsed] is [NaN]. The store is left as it
    was. *)
Theorem stats_count_and_sum (E : Env) (A : Type) (getQueueStats : M A)
    (w w0 : World) (q : A)
    (Hqueue : getQueueStats w = (Ok q, w0))
    (Hserved : forall n, (redisOps w0 <= n)%nat -> redis_fault E n = false)
    (Hlive : forall key c x,
        isTokenCountKey key = true -> redis w0 !! key = Some (c, Some x) ->
        x <= now w0 \/ now (statsHandler E getQueueStats w).2 < x) :
  exists keys total w',
    statsHandler E getQueueStats w =
      (Ok ([], 200, Some {| queueStats := q; activeConversations := length keys;
                            totalTokensUsed := total |}), w') /\
    redis w' = redis w0 /\
    NoDup keys /\
    (forall key, In key keys <->
       isTokenCountKey key = true /\ lookup_live (now w0) key (redis w0) <> None) /\
    (forall userId, In (tokenCountKeyOf userId) keys <->
       lookup_live (now w0) (tokenCountKeyOf userId) (redis w0) <> None) /\
    ((forall key, In key keys -> exists n x, redis w0 !! key = Some (Json (VNumber n), x)) ->
     total = Int (foldr Z.add 0 (map (fun key => countUnder key w0) keys))) /\
    ((exists key, In key keys /\
        parsedCount E (lookup_live (now w0) key (redis w0)) = NaN) ->
     total = NaN).
Proof.
  set (keys := map fst (List.filter
                 (fun kv : string * (RedisString * option Z) =>
                    isTokenCountKey kv.1 && live (now w0) kv.2)
                 (map_to_list (redis w0)))).
  assert (Hkeys : forall key, In key keys <->
            isTokenCountKey key = true /\ lookup_live (now w0) key (redis w0) <> None).
  { intros key. unfold keys, lookup_live. rewrite in_map_iff. split.
    - intros ([k e] & <- & Hin). apply filter_In in Hin as [Hin Hb].
      apply list_elem_of_In, elem_of_map_to_list in Hin.
      apply andb_true_iff in Hb as [Hp Hl]. simpl in *.
      split; [exact Hp|]. rewrite Hin, Hl. discriminate.
    - intros [Hp Hl]. destruct (redis w0 !! key) as [e|] eqn:He; [|contradiction].
      destruct (live (now w0) e) eqn:Hle; [|contradiction].
      exists (key, e). split; [reflexivity|]. apply filter_In. split.
      + apply list_elem_of_In, elem_of_map_to_list. exact He.
      + simpl. rewrite Hp, Hle. reflexivity. }
  assert (Hprefix : forall userId, isTokenCountKey (tokenCountKeyOf userId) = true).
  { intros userId. unfold isTokenCountKey, tokenCountKeyOf. simpl.
    destruct userId; reflexivity. }
  assert (Hnodup : NoDup keys).
  { unfold keys. apply NoDup_map_fst_filter.
    pose proof (NoDup_fst_map_to_list (redis w0)) as Hnd.
    replace (map fst (map_to_list (redis w0))) with ((map_to_list (redis w0)).*1);
      [exact Hnd|].
    generalize (map_to_list (redis w0)). intros l.
    induction l as [|a l IH]; [reflexivity|]. simpl. f_equal; try exact IH. }
  set (w1 := served E (redis w0) w0).
  assert (Hkeys_eq : redis_keys E isTokenCountKey w0 = (Ok keys, w1)).
  { unfold redis_keys, redis_command. rewrite Hserved by lia. reflexivity. }
  assert (Hend : (statsHandler E getQueueStats w).2 =
                 (sumTokenCounts E keys (Int 0) w1).2).
  { unfold statsHandler, try_catch, bind at 1. rewrite Hqueue.
    unfold bind at 1. rewrite Hkeys_eq. unfold bind.
    destruct (sumTokenCounts E keys (Int 0) w1) as [[t|e|] w2]; reflexivity. }
  rewrite Hend in Hlive.
  destruct (sumTokenCounts_scan E keys (Int 0) w1) as (w' & Hscan & Hr & Hn).
  { intros n Hle. apply Hserved. simpl in Hle. lia. }
  { intros key c x Hin Hk. simpl in Hk.
    destruct (Hlive key c x (proj1 (proj1 (Hkeys key) Hin)) Hk) as [Hd|Hl];
      [left; simpl; lia|right; exact Hl]. }
  assert (Htotal : fold_left (fun acc key =>
                      jsnum_add acc (parsedCount E (lookup_live (now w1) key (redis w1))))
                     keys (Int 0) =
                   fold_left (fun acc key =>
                      jsnum_add acc (parsedCount E (lookup_live (now w0) key (redis w0))))
                     keys (Int 0)).
  { apply fold_left_ext_In. intros a key Hin. f_equal. f_equal.
    simpl redis. apply lookup_live_stable; [simpl; lia|].
    intros c x Hk.
    destruct (Hlive key c x (proj1 (proj1 (Hkeys key) Hin)) Hk) as [Hd|Hl];
      [left; exact Hd|right]. rewrite Hscan in Hl. simpl in Hl. lia. }
  rewrite Htotal in Hscan. clear Htotal.
  eexists keys, _, w'. split; [|split; [|split; [|split; [|split; [|split]]]]].
  - unfold statsHandler, try_catch, bind at 1. rewrite Hqueue.
    unfold bind at 1. rewrite Hkeys_eq. unfold bind at 1. rewrite Hscan. reflexivity.
  - rewrite Hr. reflexivity.
  - exact Hnodup.
  - exact Hkeys.
  - intros userId. rewrite Hkeys. split; [intros [_ H]; exact H|].
    intros H. split; [apply Hprefix|exact H].
  - intros Hnum.
    rewrite (fold_left_ext_In _ (fun acc key => jsnum_add acc (Int (countUnder key w0)))).
    + rewrite sum_of_numbers. reflexivity.
    + intros a key Hin. f_equal.
      destruct (Hnum key Hin) as (n & x & Hk).
      destruct (proj1 (Hkeys key) Hin) as [_ Hl].
      unfold countUnder. revert Hl. unfold lookup_live. rewrite Hk.
      destruct (live (now w0) (Json (VNumber n), x)); [|contradiction].
      reflexivity.
  - intros Hnan. apply sum_with_NaN. right. exact Hnan.
Qed.

(** X20 at a store with the counts of two users, 42 and 7, and a
    queue that answers at once. *)
Lemma stats_count_and_sum_witness :
  ret tt twoCounts = (Ok tt, twoCounts) /\
  (forall n, (redisOps twoCounts <= n)%nat -> redis_fault quietEnv n = false) /\
  (forall key c x,
     isTokenCountKey key = true -> redis twoCounts !! key = Some (c, Some x) ->
     x <= now twoCounts \/ now (statsHandler quietEnv (ret tt) twoCounts).2 < x) /\
  exists keys total w',
    statsHandler quietEnv (ret tt) twoCounts =
      (Ok ([], 200, Some {| queueStats := tt; activeConversations := length keys;
                            totalTokensUsed := total |}), w') /\
    redis w' = redis twoCounts /\
    NoDup keys /\
    (forall key, In key keys <->
       isTokenCountKey key = true /\
       lookup_live (now twoCounts) key (redis twoCounts) <> None) /\
    (forall userId, In (tokenCountKeyOf userId) keys <->
       lookup_live (now twoCounts) (tokenCountKeyOf userId) (redis twoCounts) <> None) /\
    ((forall key, In key keys ->
        exists n x, redis twoCounts !! key = Some (Json (VNumber n), x)) ->
     total = Int (foldr Z.add 0 (map (fun key => countUnder key twoCounts) keys))) /\
    ((exists key, In key keys /\
        parsedCount quietEnv (lookup_live (now twoCounts) key (redis twoCounts)) = NaN) ->
     total = NaN).
Proof.
  assert (H1 : ret tt twoCounts = (Ok tt, twoCounts)) by reflexivity.
  assert (H2 : forall n, (redisOps twoCounts <= n)%nat -> redis_fault quietEnv n = false)
    by (intros n _; reflexivity).
  assert (H3 : forall key c x,
            isTokenCountKey key = true -> redis twoCounts !! key = Some (c, Some x) ->
            x <= now twoCounts \/ now (statsHandler quietEnv (ret tt) twoCounts).2 < x).
  { intros key c x _ Hk. right.
    assert (Hx : x = CONVERSATION_TTL * 1000).
    { unfold twoCounts, worldWith in Hk. simpl redis in Hk.
      apply lookup_insert_Some in Hk as [[_ Hk]|[_ Hk]]; [congruence|].
      apply lookup_insert_Some in Hk as [[_ Hk]|[_ Hk]]; [congruence|].
      apply lookup_singleton_Some in Hk as [_ Hk]. congruence. }
    rewrite Hx. vm_compute. reflexivity. }
  split; [exact H1|]. split; [exact H2|]. split; [exact H3|].
  exact (stats_count_and_sum quietEnv unit (ret tt) twoCounts twoCounts tt H1 H2 H3).
Defined.


(** ** The limiter inside [sendWhatsAppMessage] *)

Lemma checkRun_app ts1 : forall ts2 l,
  checkRun (ts1 ++ ts2) l =
    (((checkRun ts1 l).1 ++ (checkRun ts2 (checkRun ts1 l).2).1)%list,
     (checkRun ts2 (checkRun ts1 l).2).2).
Proof.
  induction ts1 as [|t ts1 IH]; intros ts2 l; simpl.
  - destruct (checkRun ts2 l); reflexivity.
  - destruct (rateLimitCheck t l) as [g l1]. rewrite IH.
    destruct (checkRun ts1 l1) as [r1 l2]. simpl.
    destruct (checkRun ts2 l2) as [r2 l3]. reflexivity.
Qed.

Lemma nondecreasingFrom_app ts1 : forall a b ts2,
  nondecreasingFrom a ts1 -> Forall (fun t => t <= b) ts1 -> a <= b ->
  nondecreasingFrom b ts2 -> nondecreasingFrom a (ts1 ++ ts2).
Proof.
  induction ts1 as [|t ts1 IH]; intros a b ts2 H1 Hb Hab H2; simpl in *.
  - destruct ts2 as [|t2 ts2]; simpl in *; [exact I|]. split; [lia|apply H2].
  - destruct H1 as [Hat H1]. apply Forall_cons in Hb as [Htb Hb].
    split; [exact Hat|]. apply (IH t b); assumption.
Qed.

Lemma grantInstants_app r1 r2 :
  grantInstants (r1 ++ r2) = (grantInstants r1 ++ grantInstants r2)%list.
Proof. unfold grantInstants. rewrite List.filter_app, map_app. reflexivity. Qed.

Lemma postInstants_app t1 t2 :
  postInstants (t1 ++ t2) = (postInstants t1 ++ postInstants t2)%list.
Proof. unfold postInstants. rewrite posts_app, map_app. reflexivity. Qed.

Lemma metering_refl w : metering w w.
Proof.
  exists []. unfold metered. simpl. rewrite app_nil_r.
  split; [exact I|]. split; [constructor|]. split; [lia|]. split; reflexivity.
Qed.

Lemma metering_trans w1 w2 w3 : metering w1 w2 -> metering w2 w3 -> metering w1 w3.
Proof.
  intros (ts1 & N1 & B1 & T1 & L1 & P1) (ts2 & N2 & B2 & T2 & L2 & P2).
  exists (ts1 ++ ts2)%list. unfold metered. rewrite checkRun_app. simpl.
  split; [apply (nondecreasingFrom_app ts1 (now w1) (now w2)); assumption|].
  split.
  { apply Forall_app. split; [|exact B2].
    eapply Forall_impl; [exact B1|]. intros t Ht. simpl in Ht. lia. }
  split; [lia|]. split.
  - rewrite L2, L1. reflexivity.
  - rewrite P2, P1, L1, grantInstants_app, app_assoc. reflexivity.
Qed.

Lemma metering_quiet w w' : quiet w w' -> metering w w'.
Proof.
  intros (Hl & Hp & Hn). exists []. unfold metered, postInstants. simpl.
  rewrite app_nil_r, Hp, Hl.
  split; [exact I|]. split; [constructor|]. split; [exact Hn|]. split; reflexivity.
Qed.

(** One check of the limiter that lets nothing through at once. *)
Lemma metering_wait w d l :
  rateLimitCheck (now w) (limiter_of w) = (Wait d, l) ->
  metering w (set_limiter (sent l) (start l) w).
Proof.
  intros Hc. exists [now w]. unfold metered. simpl. rewrite Hc. simpl.
  unfold grantInstants. simpl. rewrite app_nil_r.
  split; [split; [lia|exact I]|]. split; [constructor; [lia|constructor]|].
  split; [lia|]. split; [destruct l; reflexivity|reflexivity].
Qed.

(** One check that lets the send through, and the call that follows
    it in the same turn of the event loop. *)
Lemma metering_post w l to body w' :
  rateLimitCheck (now w) (limiter_of w) = (Proceed, l) ->
  limiter_of w' = l ->
  trace w' = (trace w ++ [EvPost (now w) to body])%list ->
  now w <= now w' ->
  metering w w'.
Proof.
  intros Hc Hl Ht Hn. exists [now w]. unfold metered. simpl. rewrite Hc. simpl.
  unfold grantInstants. simpl. rewrite Ht, postInstants_app.
  split; [split; [lia|exact I]|]. split; [constructor; [exact Hn|constructor]|].
  split; [exact Hn|]. split; [exact Hl|reflexivity].
Qed.

Section Along.

Variable R : World -> World -> Prop.
Hypothesis R_refl : forall w, R w w.
Hypothesis R_trans : forall w1 w2 w3, R w1 w2 -> R w2 w3 -> R w1 w3.

Lemma along_ret {A} (a : A) : along R (ret a).
Proof. intros w. apply R_refl. Qed.

Lemma along_throw {A} e : along R (@throw A e).
Proof. intros w. apply R_refl. Qed.

Lemma along_bind {A B} (m : M A) (k : A -> M B) :
  along R m -> (forall a, along R (k a)) -> along R (bind m k).
Proof.
  intros Hm Hk w. unfold bind. specialize (Hm w).
  destruct (m w) as [[a|e|] w1]; simpl in *; auto.
  eapply R_trans; [exact Hm|apply Hk].
Qed.

Lemma along_try_catch {A} (m : M A) (h : JSError -> M A) :
  along R m -> (forall e, along R (h e)) -> along R (try_catch m h).
Proof.
  intros Hm Hh w. unfold try_catch. specialize (Hm w).
  destruct (m w) as [[a|e|] w1]; simpl in *; auto.
  eapply R_trans; [exact Hm|apply Hh].
Qed.

End Along.

Section Metering.

Variable E : Env.

Lemma quiet_console l : along metering (console l).
Proof.
  intros w. apply metering_quiet. unfold quiet. simpl. rewrite posts_app. simpl.
  rewrite app_nil_r. split; [reflexivity|]. split; [reflexivity|lia].
Qed.

Lemma quiet_setTimeout_await site delay : along metering (setTimeout_await E site delay).
Proof.
  intros w. apply metering_quiet. unfold quiet. simpl. rewrite posts_app. simpl.
  rewrite app_nil_r. pose proof (timer_delay delay).
  split; [reflexivity|]. split; [reflexivity|lia].
Qed.

Lemma quiet_redis_command {A}
    (run : Z -> gmap string (RedisString * option Z) ->
           A * gmap string (RedisString * option Z)) :
  along metering (redis_command E run).
Proof.
  intros w. apply metering_quiet. unfold quiet, redis_command.
  destruct (redis_fault E (redisOps w)).
  - simpl. split; [reflexivity|]. split; [reflexivity|lia].
  - destruct (run (now w) (redis w)) as [a m]. simpl.
    split; [reflexivity|]. split; [reflexivity|lia].
Qed.

Lemma try_catch_bind {A B} (m : M A) (k : A -> M B) (h : JSError -> M B) w :
  try_catch (bind m k) h w =
    match m w with
    | (Ok a, w1) => try_catch (k a) h w1
    | (Throw e, w1) => h e w1
    | (Pending, w1) => (Pending, w1)
    end.
Proof. unfold try_catch, bind. destruct (m w) as [[a|e|] w1]; reflexivity. Qed.

Lemma axios_post_cases to body w :
  axios_post E to body w =
    let w1 := set_clock (now w + 0 + Z.of_N (latency E (awaits w))) (S (awaits w))
                (count_httpPost (record (EvPost (now w) to body) w)) in
    match post_result E (httpPosts w) with
    | HttpOk data => (Ok data, w1)
    | HttpFail r => (Throw (AxiosError r), w1)
    end.
Proof. unfold axios_post. destruct (post_result E (httpPosts w)); reflexivity. Qed.

Lemma metering_sendOnce self to message retryCount :
  (forall rc, along metering (self to message rc)) ->
  along metering (sendOnce E self to message retryCount).
Proof.
  intros Hself w. unfold sendOnce, bind at 1, rate_limit_check.
  destruct (rateLimitCheck (now w) (limiter_of w)) as [[|d] l] eqn:Hc.
  - rewrite try_catch_bind.
    assert (Hhandler : forall error,
      along metering
        (if decide (error_code_of error = Some 131030) then
           do* console ErrRecipientNotAllowed in
           throw (RecipientNotAuthorized to)
         else
           do* console ErrSendingMessage in
           if (retryCount <? 3)%nat && status_ge_500 error then
             do* setTimeout_await E RetryBackoff (2 ^ Z.of_nat retryCount * 1000) in
             self to message (S retryCount)
           else
             throw error)).
    { intros error. destruct (decide _).
      - apply (along_bind metering metering_trans); [apply quiet_console|intros _].
        apply (along_throw metering metering_refl).
      - apply (along_bind metering metering_trans); [apply quiet_console|intros _].
        destruct (_ && _); [|apply (along_throw metering metering_refl)].
        apply (along_bind metering metering_trans);
          [apply quiet_setTimeout_await|intros _; apply Hself]. }
    rewrite axios_post_cases. cbv zeta.
    set (w1 := set_clock _ _ _).
    assert (Hafter : metering w w1).
    { apply (metering_post w l to message _ Hc); unfold w1; simpl;
        [destruct l; reflexivity|reflexivity|lia]. }
    clearbody w1.
    destruct (post_result E _) as [data|o]; cbv beta iota.
    + eapply metering_trans; [exact Hafter|].
      apply (along_try_catch metering metering_trans); [|exact Hhandler].
      apply (along_bind metering metering_trans); [apply quiet_redis_command|intros _].
      apply (along_bind metering metering_trans); [apply quiet_redis_command|intros _].
      apply (along_bind metering metering_trans); [apply quiet_console|intros _].
      apply (along_ret metering metering_refl).
    + eapply metering_trans; [exact Hafter|]. apply Hhandler.
  - simpl. eapply metering_trans; [exact (metering_wait w d l Hc)|].
    apply (along_bind metering metering_trans);
      [apply quiet_setTimeout_await|intros _; apply Hself].
Qed.

Lemma metering_sendWhatsAppMessage budget to message :
  forall retryCount, along metering (sendWhatsAppMessage E budget to message retryCount).
Proof.
  induction budget as [|budget IH]; intros retryCount; simpl.
  - intros w. apply metering_refl.
  - apply metering_sendOnce. exact IH.
Qed.

Lemma metering_Traffic w w' : Traffic E w w' -> metering w w'.
Proof.
  induction 1 as [w|w w1 w2 _ IH Hq|w w1 budget to message retryCount _ IH].
  - apply metering_refl.
  - eapply metering_trans; [exact IH|apply metering_quiet, Hq].
  - eapply metering_trans; [exact IH|apply metering_sendWhatsAppMessage].
Qed.

Lemma Traffic_deliverAll budget calls : forall w w1,
  Traffic E w w1 -> Traffic E w (deliverAll E budget calls w1).
Proof.
  induction calls as [|[to message] calls IH]; intros w w1 Ht; simpl; [exact Ht|].
  apply IH. apply traffic_send. exact Ht.
Qed.

End Metering.

Lemma length_filter_map {A B} (f : A -> B) (p : B -> bool) (l : list A) :
  length (List.filter p (map f l)) = length (List.filter (fun a => p (f a)) l).
Proof.
  induction l as [|a l IH]; simpl; [reflexivity|].
  destruct (p (f a)); simpl; rewrite IH; reflexivity.
Qed.

Lemma length_filter_filter {A} (p q : A -> bool) (l : list A) :
  length (List.filter p (List.filter q l)) =
  length (List.filter (fun a => q a && p a) l).
Proof.
  induction l as [|a l IH]; simpl; [reflexivity|].
  destruct (q a); simpl; [destruct (p a); simpl; rewrite IH; reflexivity|exact IH].
Qed.

(** The sends a run lets through at instants of a window. *)
Lemma grants_inWindow window run :
  length (List.filter (inWindow window) (grantInstants run)) =
  length (List.filter (isGrantWithin window) run).
Proof.
  unfold grantInstants. rewrite length_filter_map, length_filter_filter.
  f_equal. apply List.filter_ext. intros [[t s] [|d]]; reflexivity.
Qed.

(** C7. The limiter starts with an empty window at the instant the
    module is loaded. Whatever the instants at which callers run its
    check afterwards, at most 30 sends are let through at instants of
    one window of 1000 ms; a check made after the window has lapsed
    resets the counter and the window start; a check that finds the
    budget used up suspends the caller for the rest of the window,
    after which the check is run again; and of 31 checks made at one
    instant the last is told to wait for the rest of the window, and
    nothing is let through afterwards until that window has lapsed.
    The process keeps to this: over any sequence of calls of
    [sendWhatsAppMessage], with whatever else happens in between, the
    counter and the window start of the process are those of such a
    run of checks, the calls of the channel are exactly the checks
    that were let through, each made at the instant of its check, and
    so at most 30 of them fall in one window; and a call of
    [sendWhatsAppMessage] that finds 30 sends counted calls the channel
    only after the window has lapsed. *)
Theorem rate_limiter_window (t0 : Z) (ts : list Z)
    (Hmono : nondecreasingFrom t0 ts) :
  let run := (checkRun ts {| sent := 0; start := t0 |}).1 in
  (forall window, In window (map windowOf run) ->
     Z.of_nat (length (List.filter (isGrantWithin window) run))
       <= MAX_MESSAGES_PER_WINDOW) /\
  (forall t l, t - start l > MESSAGE_WINDOW_MS ->
     rateLimitCheck t l = (Proceed, {| sent := 1; start := t |})) /\
  (forall E budget to m rc w,
     now w - windowStart w <= MESSAGE_WINDOW_MS ->
     MAX_MESSAGES_PER_WINDOW <= messagesSentInWindow w ->
     sendWhatsAppMessage E (S budget) to m rc w =
     (do* setTimeout_await E RateLimitWait
            (MESSAGE_WINDOW_MS - (now w - windowStart w)) in
      sendWhatsAppMessage E budget to m rc) w) /\
  (forall l t, 0 <= sent l <= MAX_MESSAGES_PER_WINDOW ->
     let burst := checkRun (repeat t 31) l in
     last burst.1 =
       Some (t, start burst.2, Wait (MESSAGE_WINDOW_MS - (t - start burst.2))) /\
     forall later, nondecreasingFrom t later ->
       Forall (fun c => isGrant c = true ->
                        start burst.2 + MESSAGE_WINDOW_MS < instantOf c)
              (checkRun later burst.2).1) /\
  (forall E w0 w,
     Traffic E w0 w ->
     0 <= messagesSentInWindow w0 -> windowStart w0 <= now w0 ->
     exists checks,
       nondecreasingFrom (now w0) checks /\
       let made := checkRun checks (limiter_of w0) in
       limiter_of w = made.2 /\
       postInstants (trace w) = (postInstants (trace w0) ++ grantInstants made.1)%list /\
       forall window, In window (map windowOf made.1) ->
         Z.of_nat (length (List.filter (inWindow window) (grantInstants made.1)))
           <= MAX_MESSAGES_PER_WINDOW) /\
  (forall E budget to m rc w,
     MAX_MESSAGES_PER_WINDOW <= messagesSentInWindow w ->
     exists sends,
       postInstants (trace (sendWhatsAppMessage E budget to m rc w).2) =
         (postInstants (trace w) ++ sends)%list /\
       Forall (fun t => windowStart w + MESSAGE_WINDOW_MS < t) sends).
Proof.
  intros run. split; [|split; [|split; [|split; [|split]]]].
  - intros window Hin.
    apply (grants_within_window ts t0 {| sent := 0; start := t0 |} window);
      simpl; auto; lia.
  - apply rateLimitCheck_reset.
  - intros. apply send_suspended; assumption.
  - intros l t Hs burst31.
    assert (Hb : burst31 = checkRun (repeat t 31) (rolled t l)).
    { unfold burst31. change (repeat t 31) with (t :: repeat t 30).
      cbn [checkRun]. rewrite rateLimitCheck_rolled. reflexivity. }
    pose proof (burst 31 (rolled t l) t (rolled_in_window t l) (rolled_sent t l Hs))
      as (Hst & Hsn & Hlast).
    rewrite <- Hb in Hst, Hsn, Hlast.
    pose proof (rolled_sent t l Hs) as Hr.
    split.
    + rewrite Hst. apply Hlast. unfold MAX_MESSAGES_PER_WINDOW in *. lia.
    + intros later Hlater. eapply late_grants; [exact Hlater|].
      left. split; [|reflexivity].
      rewrite Hsn. unfold MAX_MESSAGES_PER_WINDOW in *. lia.
  - intros E w0 w Htraffic Hsent Hclock.
    destruct (metering_Traffic E w0 w Htraffic) as (checks & Hn & _ & _ & Hl & Hp).
    exists checks. split; [exact Hn|]. cbv zeta.
    split; [exact Hl|]. split; [exact Hp|].
    intros window Hin. rewrite grants_inWindow.
    apply (grants_within_window checks (now w0) (limiter_of w0) window);
      simpl; auto.
  - intros E budget to m rc w Hfull.
    destruct (metering_sendWhatsAppMessage E budget to m rc w)
      as (checks & Hn & _ & _ & _ & Hp).
    exists (grantInstants (checkRun checks (limiter_of w)).1).
    split; [exact Hp|].
    pose proof (late_grants checks (now w) (limiter_of w)
                  (windowStart w + MESSAGE_WINDOW_MS) Hn
                  (or_introl (conj Hfull eq_refl))) as Hlate.
    unfold grantInstants. apply Forall_map.
    apply List.Forall_forall. intros c Hc. apply filter_In in Hc as [Hc Hg].
    rewrite List.Forall_forall in Hlate. exact (Hlate c Hc Hg).
Qed.

(** C7 at thirty-one messages sent back to back on a channel without
    latency: the limiter makes thirty-three checks, thirty sends go out
    at once and the thirty-first only at 1001 ms, after the window has
    lapsed. *)
Lemma rate_limiter_window_witness :
  nondecreasingFrom 0 burstChecks /\
  (forall window,
     In window (map windowOf
       (checkRun burstChecks {| sent := 0; start := 0 |}).1) ->
     Z.of_nat (length (List.filter (isGrantWithin window)
       (checkRun burstChecks {| sent := 0; start := 0 |}).1))
       <= MAX_MESSAGES_PER_WINDOW) /\
  Traffic quietEnv freshWorld (deliverAll quietEnv 3 backToBack freshWorld) /\
  postInstants (trace (deliverAll quietEnv 3 backToBack freshWorld)) =
    (repeat 0 30 ++ [1001])%list /\
  limiter_of (deliverAll quietEnv 3 backToBack freshWorld) =
    {| sent := 1; start := 1001 |} /\
  (exists checks,
     nondecreasingFrom 0 checks /\
     limiter_of (deliverAll quietEnv 3 backToBack freshWorld) =
       (checkRun checks {| sent := 0; start := 0 |}).2 /\
     postInstants (trace (deliverAll quietEnv 3 backToBack freshWorld)) =
       grantInstants (checkRun checks {| sent := 0; start := 0 |}).1 /\
     forall window,
       In window (map windowOf (checkRun checks {| sent := 0; start := 0 |}).1) ->
       Z.of_nat (length (List.filter (inWindow window)
         (grantInstants (checkRun checks {| sent := 0; start := 0 |}).1)))
         <= MAX_MESSAGES_PER_WINDOW).
Proof.
  assert (Hmono : nondecreasingFrom 0 burstChecks).
  { vm_compute. repeat split; discriminate. }
  assert (Htraffic : Traffic quietEnv freshWorld
                       (deliverAll quietEnv 3 backToBack freshWorld)).
  { apply Traffic_deliverAll, traffic_none. }
  assert (Hsent : 0 <= messagesSentInWindow freshWorld) by (simpl; lia).
  assert (Hclock : windowStart freshWorld <= now freshWorld) by (simpl; lia).
  destruct (rate_limiter_window 0 burstChecks Hmono) as (Hrun & _ & _ & _ & Hall & _).
  split; [exact Hmono|]. split; [exact Hrun|]. split; [exact Htraffic|].
  split; [vm_compute; reflexivity|]. split; [vm_compute; reflexivity|].
  destruct (Hall quietEnv freshWorld _ Htraffic Hsent Hclock)
    as (checks & Hn & Hl & Hp & Hw).
  exists checks. split; [exact Hn|]. split; [exact Hl|]. split; [exact Hp|exact Hw].
Defined.
